(** * Market DNA helix visualiser: a shallow embedding of
      [dna_visualiser/js/dna-visualizer.js] and [dna_visualiser/js/orbit-controls.js]

    Conventions of the embedding.

    - A JavaScript number is a real number ([R]) and the geometry is
      computed exactly: rounding, infinities and [NaN] from an operation on
      numbers are not modelled there.  Where the code prints a number
      ([calculateStats]) a last bit decides a digit, so there the additions
      and the division round to binary64 ([round64]; overflow is not
      modelled).  The one [NaN] that the code can meet from its data, a
      numeric field that is absent ([undefined]), is modelled with
      [option]: [None] reads as [NaN].
    - A field of a segment that is present holds a value of the kind the
      segmenter writes: a string for the type tag and the times, an integer
      for the indices, a number for the prices and the change.
    - An exception is an explicit outcome ([Throws]); the methods that touch
      the fields of the visualiser run in a state monad whose state survives
      a throw.
    - [debugLog] only writes diagnostics and is left out.
    - three.js is an external library: its material and mesh constructors
      are data constructors (a mesh is the record of what it was built
      from), its tube constructor throws where the library does, and its
      conversions between vectors and spherical coordinates are written out
      as the library computes them.
    - An object used as a map ([config], [colorMap], [typeCounts]) is the
      finite map of its own properties under the members it inherits from
      [Object.prototype] ([constructor], [toString], ...): a read finds an
      own property, or else an inherited member, or else [undefined]. *)

From stdpp Require Import gmap strings pretty.
From Stdlib Require Import Reals Lra Lia ZArith List.
Import ListNotations.

(** ** Outcomes of JavaScript evaluation *)

Module JS.

Local Open Scope R_scope.

Inductive exn : Type :=
| TypeError
| SyntaxError.

Inductive outcome (A : Type) : Type :=
| Return (a : A)
| Throws (e : exn).
Arguments Return {A} a.
Arguments Throws {A} e.

Definition obind {A B : Type} (m : outcome A) (k : A -> outcome B) : outcome B :=
  match m with
  | Return a => k a
  | Throws e => Throws e
  end.

(** [Array.prototype.filter] with a callback that may throw: the callback
    runs on the elements from left to right and the first throw leaves the
    call. *)
Fixpoint array_filter {A : Type} (p : A -> outcome bool) (l : list A)
  : outcome (list A) :=
  match l with
  | [] => Return []
  | x :: rest =>
      obind (p x) (fun keep =>
      obind (array_filter p rest) (fun rest' =>
      Return (if keep : bool then x :: rest' else rest')))
  end.

(** The names of the members that every object inherits from
    [Object.prototype]. *)
Definition prototype_members : list string :=
  ["constructor"; "__defineGetter__"; "__defineSetter__"; "hasOwnProperty";
   "__lookupGetter__"; "__lookupSetter__"; "isPrototypeOf";
   "propertyIsEnumerable"; "toString"; "valueOf"; "__proto__";
   "toLocaleString"].

Definition inherited (key : string) : bool :=
  existsb (String.eqb key) prototype_members.

(** What reading [object[key]] finds in an object literal: an own
    property, a member of [Object.prototype] under its name, or
    [undefined]. *)
Inductive property (A : Type) : Type :=
| Own (a : A)
| Inherited (name : string)
| Undefined.
Arguments Own {A} a.
Arguments Inherited {A} name.
Arguments Undefined {A}.

Definition get_property {A : Type} (own : option A) (key : string)
  : property A :=
  match own with
  | Some a => Own a
  | None => if inherited key then Inherited key else Undefined
  end.

(** [object[key] || fallback] when the own properties are truthy: an
    inherited member is a function or an object, which is truthy too. *)
Definition or_else {A : Type} (p : property A) (fallback : A) : property A :=
  match p with
  | Undefined => Own fallback
  | _ => p
  end.

(** [Math.max] and [Math.min] on two numbers. *)
Definition Math_max (a b : R) : R := Rmax a b.
Definition Math_min (a b : R) : R := Rmin a b.

(** [Math.atan2(y, x)] on the reals (no signed zero). *)
Definition Math_atan2 (y x : R) : R :=
  if Rlt_dec 0 x then atan (y / x)
  else if Rlt_dec x 0 then
    if Rle_dec 0 y then atan (y / x) + PI else atan (y / x) - PI
  else if Rlt_dec 0 y then PI / 2
  else if Rlt_dec y 0 then - (PI / 2)
  else 0.

(** [Math.log(n) / Math.log(10)], as the code writes the decimal logarithm. *)
Definition log_ratio (x : R) : R := ln x / ln 10.

(** Rounding to the nearest binary64 number, ties to the even significand:
    the result of an addition or a division of two numbers.  A number in
    the binade [2^b, 2^(b+1)) is a multiple of [2^(b-52)], and of [2^-1074]
    below [2^-1022]. *)
Definition round_half_even (x : R) : Z :=
  let n := Int_part x in
  if Rlt_dec (x - IZR n) (1 / 2) then n
  else if Rlt_dec (1 / 2) (x - IZR n) then (n + 1)%Z
  else if Z.even n then n else (n + 1)%Z.

Definition binade (x : R) : Z := Int_part (ln x / ln 2).

Definition quantum (x : R) : R :=
  powerRZ 2 (Z.max (binade (Rabs x)) (-1022) - 52).

Definition round64 (x : R) : R :=
  if Req_dec_T x 0 then 0
  else if Rlt_dec x 0
       then - (IZR (round_half_even (- x / quantum x)) * quantum x)
       else IZR (round_half_even (x / quantum x)) * quantum x.

(** [Number::toString] on a whole number [n] of at least [10^21]: the
    digits are those of the shortest decimal [s * 10^p] that rounds to [n],
    the nearest one when there are several with as few digits, and they are
    written with an exponent. *)
Definition decimal_length (n : Z) : Z := Z.of_nat (String.length (pretty n)).

Definition rounds_to (v n : Z) : bool :=
  if Req_dec_T (round64 (IZR v)) (IZR n) then true else false.

Fixpoint shortest (fuel : nat) (k n : Z) : Z * Z :=
  match fuel with
  | O => (n, 0%Z)
  | S fuel' =>
      let p := (decimal_length n - k)%Z in
      let lo := (n / 10 ^ p)%Z in
      let hi := (lo + 1)%Z in
      match rounds_to (lo * 10 ^ p) n, rounds_to (hi * 10 ^ p) n with
      | true, true =>
          if (n - lo * 10 ^ p <? hi * 10 ^ p - n)%Z then (lo, p)
          else if (hi * 10 ^ p - n <? n - lo * 10 ^ p)%Z then (hi, p)
          else if Z.even lo then (lo, p) else (hi, p)
      | true, false => (lo, p)
      | false, true => (hi, p)
      | false, false => shortest fuel' (k + 1)%Z n
      end
  end.

Fixpoint drop_zeros (fuel : nat) (s p : Z) : Z * Z :=
  match fuel with
  | O => (s, p)
  | S fuel' =>
      if (s mod 10 =? 0)%Z then drop_zeros fuel' (s / 10)%Z (p + 1)%Z
      else (s, p)
  end.

Definition significand (n : Z) : Z * Z :=
  let (s, p) := shortest 17 1 n in drop_zeros 17 s p.

Definition leading_digit (n : Z) : Z :=
  let (s, _) := significand n in (s / 10 ^ (decimal_length s - 1))%Z.

Definition exponential (n : Z) : string :=
  let (s, p) := significand n in
  match pretty s with
  | String c rest =>
      String c (if String.eqb rest "" then "" else "." +:+ rest)
      +:+ "e+" +:+ pretty (decimal_length s + p - 1)%Z
  | EmptyString => ""
  end.

(** [parseInt] of a whole number: it reads the text of the number, which
    has an exponent from [10^21] on, so that only the leading digit is
    read. *)
Definition parseInt_number (n : Z) : Z :=
  if (Z.abs n <? 10 ^ 21)%Z then n
  else (Z.sgn n * leading_digit (Z.abs n))%Z.

(** [Number.prototype.toFixed(2)]: below [10^21] the integer [n] nearest to
    [100 * x], the larger one on a tie, printed with a point before its last
    two digits; from [10^21] on the text of the number. *)
Definition two_digits (n : Z) : string :=
  (if (n <? 10)%Z then "0" else "") +:+ pretty n.

Definition toFixed2_magnitude (x : R) : string :=
  if Rle_dec (10 ^ 21) x then exponential (Int_part x)
  else
    let n := Int_part (x * 100 + / 2) in
    pretty (n / 100)%Z +:+ "." +:+ two_digits (n mod 100)%Z.

Definition toFixed2 (x : R) : string :=
  if Rlt_dec x 0 then "-" +:+ toFixed2_magnitude (- x)
  else toFixed2_magnitude x.

End JS.
Export JS.

#[export] Instance outcome_bind : MBind outcome :=
  fun A B k m => obind m k.

(** ** The parts of three.js the code uses

    three.js is an external library.  Its vector and spherical conversions
    are written out as the library computes them; its geometry, material and
    mesh constructors only record their arguments. *)

Module THREE.

Local Open Scope R_scope.

Record Vector3 : Type := mkVector3 { x : R; y : R; z : R }.

Definition add (a b : Vector3) : Vector3 :=
  mkVector3 (x a + x b) (y a + y b) (z a + z b).

Definition sub (a b : Vector3) : Vector3 :=
  mkVector3 (x a - x b) (y a - y b) (z a - z b).

Definition multiplyScalar (a : Vector3) (k : R) : Vector3 :=
  mkVector3 (x a * k) (y a * k) (z a * k).

Record Spherical : Type := mkSpherical { radius : R; phi : R; theta : R }.

(** [MathUtils.clamp(value, min, max)]. *)
Definition clamp (value lo hi : R) : R := Math_max lo (Math_min hi value).

(** [Spherical.setFromVector3] (three.js [setFromCartesianCoords]): the
    polar angle [phi] is measured from the positive y axis, the azimuth
    [theta] around it from the positive z axis, so that
    [x = r sin phi sin theta] and [z = r sin phi cos theta].  Measuring the
    azimuth from the x axis instead swaps the roles of [x] and [z] and
    changes nothing below. *)
Definition setFromVector3 (v : Vector3) : Spherical :=
  let r := sqrt (x v * x v + y v * y v + z v * z v) in
  if Req_dec_T r 0 then mkSpherical r 0 0
  else mkSpherical r (acos (clamp (y v / r) (-1) 1)) (Math_atan2 (x v) (z v)).

(** [Spherical.makeSafe], with the library's [EPS = 0.000001]. *)
Definition EPS : R := 0.000001.

Definition makeSafe (s : Spherical) : Spherical :=
  mkSpherical (radius s) (Math_max EPS (Math_min (PI - EPS) (phi s))) (theta s).

(** [Vector3.setFromSpherical] (three.js [setFromSphericalCoords]). *)
Definition setFromSpherical (s : Spherical) : Vector3 :=
  let sinPhiRadius := sin (phi s) * radius s in
  mkVector3 (sinPhiRadius * sin (theta s))
            (cos (phi s) * radius s)
            (sinPhiRadius * cos (theta s)).

(** Geometries.  A radius that the code computes from an absent index is
    [None] ([NaN]). *)
Inductive Geometry : Type :=
| TubeGeometry (path : list Vector3) (tubularSegments : R) (tubeRadius : R)
    (radialSegments : nat) (closed : bool)
| CylinderGeometry (radiusTop radiusBottom : option R) (height : R)
    (radialSegments heightSegments : nat) (openEnded : bool)
| SphereGeometry (sphereRadius : R) (widthSegments heightSegments : nat).

Inductive Material : Type :=
| MeshStandardMaterial (color : Z) (metalness roughness : R)
    (transparent : bool) (opacity : R) (emissive : Z) (emissiveIntensity : R)
| MeshBasicMaterial (color : Z) (transparent : bool) (opacity : R).

(** The values that the tooltip template of a rung interpolates. *)
Record Info : Type := mkInfo {
  info_type : string;
  info_startIdx : option Z;
  info_endIdx : option Z;
  info_startPrice : option R;
  info_endPrice : option R;
  info_pctChange : R;
  info_segmentLength : option Z;
  info_start_time : option string;
  info_end_time : option string
}.

Record AnimationParams : Type := mkAnimationParams {
  initialScale : R;
  maxScale : R;
  pulseSpeed : R;
  phase : R
}.

Inductive UserData : Type :=
| NoUserData
| UserInfo (info : Info)
| UserAnimation (animationParams : AnimationParams).

(** A mesh: what it was built from, where it was put, and how it was
    turned ([lookAt] a point, then [rotateX] by an angle). *)
Record Mesh : Type := mkMesh {
  geometry : Geometry;
  material : Material;
  position : Vector3;
  lookAt : option Vector3;
  rotateX : R;
  userData : UserData
}.

(** A group.  [id] is the identity of the object: [Scene.remove] compares
    objects, not contents. *)
Record Group : Type := mkGroup {
  id : nat;
  children : list Mesh;
  group_position : Vector3;
  rotation_y : R
}.

Definition origin : Vector3 := mkVector3 0 0 0.

(** [new THREE.TubeGeometry(new THREE.CatmullRomCurve3(points),
    tubularSegments, radius, radialSegments, closed)].  The library takes
    the frames of the curve at [i / tubularSegments] for the whole [i] from
    [0] up to [tubularSegments] and then reads the frame at index
    [tubularSegments]; the curve reads two of its points.  With fewer than
    two points, or when [tubularSegments] is not a positive whole number, it
    reads a property of [undefined] and throws. *)
Definition whole_positive (r : R) : bool :=
  if Rlt_dec 0 r then
    if Req_dec_T (IZR (Int_part r)) r then true else false
  else false.

Definition new_TubeGeometry (points : list Vector3)
    (tubularSegments radius : R) (radialSegments : nat) (closed : bool)
  : outcome Geometry :=
  if whole_positive tubularSegments && (2 <=? length points)%nat then
    Return (TubeGeometry points tubularSegments radius radialSegments closed)
  else Throws TypeError.

(** [Color.set(value)], to which the material constructors hand the
    [color] and the [emissive] they are given: a number sets the colour,
    and a value that is neither a colour, a number nor a string leaves the
    colour that the material has from the start. *)
Definition Color_set (initial : Z) (value : property Z) : Z :=
  match value with
  | Own hex => hex
  | _ => initial
  end.

Definition scene_add (scene : list Group) (g : Group) : list Group :=
  scene ++ [g].

Definition scene_remove (scene : list Group) (g : Group) : list Group :=
  List.filter (fun o => negb (Nat.eqb (id o) (id g))) scene.

End THREE.

(** ** Segment data *)

(** One record of the segment JSON.  A field that the object does not have
    is [None] ([undefined] when read). *)
Record Segment : Type := mkSegment {
  segment_type : option string;
  start_index : option Z;
  end_index : option Z;
  start_time : option string;
  end_time : option string;
  start_price : option R;
  end_price : option R;
  pct_change : option R
}.

(** An element of the parsed array.  Reading a property of [null] throws;
    every other element behaves as an object with the fields it has. *)
Inductive entry : Type :=
| ENull
| EObject (s : Segment).

(** What [JSON.parse] hands over, as far as the code distinguishes it. *)
Inductive json : Type :=
| JNull
| JArray (items : list entry)
| JOther. (* a number, a string, a boolean or an object that is not an array *)

Definition fields (e : entry) : outcome Segment :=
  match e with
  | ENull => Throws TypeError
  | EObject s => Return s
  end.

Definition defined {A : Type} (v : option A) : bool :=
  match v with
  | Some _ => true
  | None => false
  end.

(** Truthiness of a string-valued property: absent and empty are falsy. *)
Definition truthy (v : option string) : bool :=
  match v with
  | Some s => negb (String.eqb s "")
  | None => false
  end.

(** [segment.segment_type === type] for a string [type]. *)
Definition type_is (type : string) (s : Segment) : bool :=
  match segment_type s with
  | Some t => String.eqb t type
  | None => false
  end.

(** ** The visualiser *)

Module DNAVisualizer.

Import THREE.
Local Open Scope R_scope.

Record Config : Type := mkConfig {
  helixTurns : R;
  helixRadius : R;
  backboneThickness : R;
  height : R;
  pointsPerTurn : R
}.

(** The fields of a [DNAVisualizer], the children of its scene, and the two
    pieces of the host that its methods advance: the counter behind the
    identity of new three.js objects and the draws of [Math.random]
    ([entropy n] is the value of draw number [n]). *)
Record State : Type := mkState {
  scene : list Group;
  dnaGroup : option Group;
  lastLoadedData : option (list entry);
  selectedType : string;
  config : Config;
  next_id : nat;
  entropy : nat -> R;
  drawn : nat
}.

Definition constructor (scene : list Group) (next_id : nat)
    (entropy : nat -> R) (drawn : nat) : State :=
  {| scene := scene;
     dnaGroup := None;
     lastLoadedData := None;
     selectedType := "optimal";
     config := mkConfig 15 10 1.2 200 32;
     next_id := next_id;
     entropy := entropy;
     drawn := drawn |}.

Definition colorMap (type : string) : option Z :=
  if String.eqb type "negative" then Some 0xE55C7A%Z
  else if String.eqb type "optimal" then Some 0x00E2C5%Z
  else None.

(** Methods: state in, state and outcome out. *)
Definition M (A : Type) : Type := State -> State * outcome A.

#[export] Instance M_ret : MRet M := fun A a st => (st, Return a).
#[export] Instance M_bind : MBind M := fun A B k m st =>
  match m st with
  | (st', Return a) => k a st'
  | (st', Throws e) => (st', Throws e)
  end.

Definition lift {A : Type} (o : outcome A) : M A := fun st => (st, o).
Definition throw {A : Type} (e : exn) : M A := fun st => (st, Throws e).
Definition get : M State := fun st => (st, Return st).

Definition set_config (c : Config) : M unit := fun st =>
  (mkState (scene st) (dnaGroup st) (lastLoadedData st) (selectedType st) c
     (next_id st) (entropy st) (drawn st), Return tt).

Definition set_selectedType (t : string) : M unit := fun st =>
  (mkState (scene st) (dnaGroup st) (lastLoadedData st) t (config st)
     (next_id st) (entropy st) (drawn st), Return tt).

Definition set_lastLoadedData (d : option (list entry)) : M unit := fun st =>
  (mkState (scene st) (dnaGroup st) d (selectedType st) (config st)
     (next_id st) (entropy st) (drawn st), Return tt).

Definition set_dnaGroup (g : option Group) : M unit := fun st =>
  (mkState (scene st) g (lastLoadedData st) (selectedType st) (config st)
     (next_id st) (entropy st) (drawn st), Return tt).

Definition set_scene (sc : list Group) : M unit := fun st =>
  (mkState sc (dnaGroup st) (lastLoadedData st) (selectedType st) (config st)
     (next_id st) (entropy st) (drawn st), Return tt).

(** [Math.random()]. *)
Definition Math_random : M R := fun st =>
  (mkState (scene st) (dnaGroup st) (lastLoadedData st) (selectedType st)
     (config st) (next_id st) (entropy st) (S (drawn st)),
   Return (entropy st (drawn st))).

(** [new THREE.Group()]: an empty group with a fresh identity.  Only the
    identity of groups is modelled; it is what [Scene.remove] compares. *)
Definition new_Group : M Group := fun st =>
  (mkState (scene st) (dnaGroup st) (lastLoadedData st) (selectedType st)
     (config st) (S (next_id st)) (entropy st) (drawn st),
   Return (mkGroup (next_id st) [] origin 0)).

Definition setConfig (key : string) (value : R) : M unit :=
  st ← get;
  let c := config st in
  if String.eqb key "helixTurns" then
    set_config (mkConfig value (helixRadius c) (backboneThickness c) (height c) (pointsPerTurn c))
  else if String.eqb key "helixRadius" then
    set_config (mkConfig (helixTurns c) value (backboneThickness c) (height c) (pointsPerTurn c))
  else if String.eqb key "backboneThickness" then
    set_config (mkConfig (helixTurns c) (helixRadius c) value (height c) (pointsPerTurn c))
  else if String.eqb key "height" then
    set_config (mkConfig (helixTurns c) (helixRadius c) (backboneThickness c) value (pointsPerTurn c))
  else if String.eqb key "pointsPerTurn" then
    set_config (mkConfig (helixTurns c) (helixRadius c) (backboneThickness c) (height c) value)
  else mret tt.

(** The own properties of [this.config]. *)
Definition config_own (c : Config) (key : string) : option R :=
  if String.eqb key "helixTurns" then Some (helixTurns c)
  else if String.eqb key "helixRadius" then Some (helixRadius c)
  else if String.eqb key "backboneThickness" then Some (backboneThickness c)
  else if String.eqb key "height" then Some (height c)
  else if String.eqb key "pointsPerTurn" then Some (pointsPerTurn c)
  else None.

Definition getConfig (key : string) : M (property R) :=
  st ← get;
  mret (get_property (config_own (config st) key) key).

Definition setSelectedType (type : string) : M unit := set_selectedType type.

Definition getSelectedType : M string := st ← get; mret (selectedType st).


(** The predicate of the filter in [validateData]. *)
Definition valid_segment (s : Segment) : bool :=
  truthy (segment_type s)
  && defined (start_index s)
  && defined (end_index s)
  && defined (start_price s)
  && defined (end_price s)
  && defined (pct_change s).

Definition filterSegmentsByType (data : list entry) (type : string)
  : outcome (list entry) :=
  if String.eqb type "all" then Return data
  else array_filter (fun e => s ← fields e; Return (type_is type s)) data.

Definition validateData (data : json) : outcome (list entry) :=
  match data with
  | JArray items =>
      array_filter (fun e => s ← fields e; Return (valid_segment s)) items
  | JNull | JOther => Return []
  end.

(** [parseInt] and [parseFloat] of a numeric field: [NaN] when the field is
    absent; [parseFloat] gives the number itself and [parseInt] the whole
    number that it reads in the text of the index. *)
Definition parseInt (v : option Z) : option Z :=
  match v with
  | Some n => Some (parseInt_number n)
  | None => None
  end.
Definition parseFloat (v : option R) : option R := v.

(** The point of a strand at azimuth [angle] and height [y]. *)
Definition strand_point (radius angle y : R) : Vector3 :=
  mkVector3 (radius * cos angle) y (radius * sin angle).

(** The loop that samples the two backbones, for [i] from [0] while
    [i <= totalPoints]: it runs for the [up totalPoints] naturals that are
    at most [totalPoints]. *)
Definition backbone_sample (radius turns height totalPoints : R) (i : nat)
  : Vector3 * Vector3 :=
  let t := INR i / totalPoints in
  let y := height * (0.5 - t) in
  let angle := 2 * PI * turns * t in
  (strand_point radius angle y, strand_point radius (angle + PI) y).

Definition backbone_samples (radius turns height totalPoints : R)
  : list (Vector3 * Vector3) :=
  map (backbone_sample radius turns height totalPoints)
      (seq 0 (Z.to_nat (up totalPoints))).

Definition backbone1 (backboneGeometry1 : Geometry) : Mesh :=
  mkMesh backboneGeometry1
         (MeshStandardMaterial 0x4286f4 0.7 0.3 true 0.9 0x1a3a7a 0.3)
         origin None 0 NoUserData.

Definition backbone2 (backboneGeometry2 : Geometry) : Mesh :=
  mkMesh backboneGeometry2
         (MeshStandardMaterial 0x4286f4 0.7 0.3 true 0.8 0x1a3a7a 0.2)
         origin None 0 NoUserData.

Definition segment_length (startIdx endIdx : option Z) : option Z :=
  match startIdx, endIdx with
  | Some a, Some b => Some (Z.max 1 (b - a))
  | _, _ => None
  end.

Definition scale_factor (segmentLength : option Z) : option R :=
  match segmentLength with
  | Some n => Some (Math_min 1.5 (log_ratio (IZR n) + 0.5))
  | None => None
  end.

Definition base_width (pctChange : R) : R :=
  0.3 + Math_min 0.5 (Rabs pctChange * 0.03).

Definition rung_radius (pctChange : R) (scaleFactor : option R) : option R :=
  match scaleFactor with
  | Some k => Some (base_width pctChange * k)
  | None => None
  end.

Definition rung_intensity (pctChange : R) : R :=
  Math_min 0.4 (Rabs pctChange * 0.03 + 0.1).

(** [this.colorMap[type] || 0xd7e5ff]: the colour of the type, the
    fallback colour, or a member that [colorMap] inherits. *)
Definition rung_color (type : string) : property Z :=
  or_else (get_property (colorMap type) type) 0xd7e5ff%Z.

(** A standard material starts white with a black emissive colour, a basic
    material starts white. *)
Definition rung_mesh (radius : R) (pointA pointB : Vector3)
    (color : property Z) (pctChange : R) (scaleFactor : option R)
    (info : Info) : Mesh :=
  mkMesh (CylinderGeometry (rung_radius pctChange scaleFactor)
            (rung_radius pctChange scaleFactor) (radius * 2) 8 1 false)
         (MeshStandardMaterial (Color_set 0xffffff color) 0.5 0.3 true 0.95
            (Color_set 0x000000 color) (rung_intensity pctChange))
         (multiplyScalar (add pointA pointB) 0.5)
         (Some pointB) (PI / 2)
         (UserInfo info).

Definition pulse_mesh (at_ : Vector3) (color : property Z)
    (pctChange r1 r2 : R) : Mesh :=
  mkMesh (SphereGeometry (0.8 + Rabs pctChange * 0.05) 16 16)
         (MeshBasicMaterial (Color_set 0xffffff color) true 0.2)
         at_ None 0
         (UserAnimation (mkAnimationParams 0.5 (1.0 + Rabs pctChange * 0.02)
                           (0.6 + r1 * 0.4) (r2 * PI * 2))).

Definition outer_pulse_mesh (at_ : Vector3) (color : property Z)
    (pctChange r1 r2 : R) : Mesh :=
  mkMesh (SphereGeometry (1.0 + Rabs pctChange * 0.08) 16 16)
         (MeshBasicMaterial (Color_set 0xffffff color) true 0.1)
         at_ None 0
         (UserAnimation (mkAnimationParams 0.7 (1.2 + Rabs pctChange * 0.03)
                           (0.4 + r1 * 0.3) (r2 * PI * 2))).

(** The rung of segment number [i] of [numSegments]: the top of one turn of
    the loop over the segments, up to [group.add(rung)]. *)
Definition segment_rung (radius turns height : R) (numSegments i : nat)
    (segment : Segment) (type : string) (pctChange : R) : Mesh :=
  let startIdx := parseInt (start_index segment) in
  let endIdx := parseInt (end_index segment) in
  let startPrice := parseFloat (start_price segment) in
  let endPrice := parseFloat (end_price segment) in
  let t := INR i / INR numSegments in
  let angle := 2 * PI * turns * t in
  let y := height * (0.5 - t) in
  let pointA := strand_point radius angle y in
  let pointB := strand_point radius (angle + PI) y in
  let color := rung_color type in
  let segmentLength := segment_length startIdx endIdx in
  let scaleFactor := scale_factor segmentLength in
  let info := mkInfo type startIdx endIdx startPrice endPrice pctChange
                segmentLength (start_time segment) (end_time segment) in
  rung_mesh radius pointA pointB color pctChange scaleFactor info.

(** One turn of the loop over the segments: the meshes it adds to the
    group, in the order it adds them.  Building the tooltip calls
    [type.toUpperCase()] and [pctChange.toFixed(2)], which throw on
    [undefined]. *)
Definition add_segment (radius turns height : R) (numSegments i : nat)
    (e : entry) : M (list Mesh) :=
  segment ← lift (fields e);
  match segment_type segment, pct_change segment with
  | Some type, Some pctChange =>
      let color := rung_color type in
      let rung := segment_rung radius turns height numSegments i segment
                    type pctChange in
      if Rlt_dec 5 (Rabs pctChange) then
        r1 ← Math_random;
        r2 ← Math_random;
        let pulse := pulse_mesh (position rung) color pctChange r1 r2 in
        if Rlt_dec 8 (Rabs pctChange) then
          r3 ← Math_random;
          r4 ← Math_random;
          let outerPulse :=
            outer_pulse_mesh (position rung) color pctChange r3 r4 in
          mret [rung; pulse; outerPulse]
        else mret [rung; pulse]
      else mret [rung]
  | _, _ => throw TypeError
  end.

Fixpoint add_segments (radius turns height : R) (numSegments i : nat)
    (data : list entry) : M (list Mesh) :=
  match data with
  | [] => mret []
  | e :: rest =>
      added ← add_segment radius turns height numSegments i e;
      more ← add_segments radius turns height numSegments (S i) rest;
      mret (added ++ more)
  end.

Definition createDNAHelix (data : list entry) : M Group :=
  group ← new_Group;
  let numSegments := length data in
  if Nat.eqb numSegments 0 then mret group
  else
    st ← get;
    let radius := helixRadius (config st) in
    let turns := helixTurns (config st) in
    let height := 200 in
    let backboneThickness := backboneThickness (config st) in
    let pointsPerTurn := 32 in
    let totalPoints := turns * pointsPerTurn in
    let samples := backbone_samples radius turns height totalPoints in
    let backbone1Points := map fst samples in
    let backbone2Points := map snd samples in
    backboneGeometry1 ←
      lift (new_TubeGeometry backbone1Points totalPoints backboneThickness
              8 false);
    backboneGeometry2 ←
      lift (new_TubeGeometry backbone2Points totalPoints backboneThickness
              8 false);
    rungs ← add_segments radius turns height numSegments 0 data;
    let group :=
      mkGroup (id group)
        (backbone1 backboneGeometry1 :: backbone2 backboneGeometry2 :: rungs)
        origin (PI / 6) in
    _ ← set_dnaGroup (Some group);
    mret group.

Definition clearScene : M unit :=
  st ← get;
  match dnaGroup st with
  | Some g =>
      _ ← set_scene (scene_remove (scene st) g);
      set_dnaGroup None
  | None => mret tt
  end.

Definition rebuildDNA (data : list entry) : M Group :=
  _ ← clearScene;
  dna ← createDNAHelix data;
  st ← get;
  _ ← set_scene (scene_add (scene st) dna);
  mret dna.

(** [loadFromText]; [parsed] is the outcome of [JSON.parse(jsonText)].
    Reading [rawData.length] inside the [try] throws for [null], and the
    [catch] answers both that and a parse error with [null].  The tally of
    types between validation and filtering is only logged. *)
Definition loadFromText (parsed : outcome json) : M (option Group) :=
  match parsed with
  | Throws _ | Return JNull => mret None
  | Return rawData =>
      data ← lift (validateData rawData);
      if Nat.eqb (length data) 0 then mret None
      else
        _ ← set_lastLoadedData (Some data);
        st ← get;
        filteredData ← lift (filterSegmentsByType data (selectedType st));
        dna ← rebuildDNA filteredData;
        mret (Some dna)
  end.

Definition updateVisualization : M unit :=
  st ← get;
  match lastLoadedData st with
  | Some data =>
      filteredData ← lift (filterSegmentsByType data (selectedType st));
      _ ← rebuildDNA filteredData;
      mret tt
  | None => mret tt
  end.

Definition getDNAGroup : M (option Group) := st ← get; mret (dnaGroup st).

Definition getLastLoadedData : M (option (list entry)) :=
  st ← get; mret (lastLoadedData st).

(** [calculateStats].  [typeCounts] is a fresh object used as a map from
    the type tag to its count; the key of an absent tag is the text
    [undefined].  A value of [typeCounts] is a count or, under a tag that
    names an inherited member, the text of that member followed by as many
    digits [1] as the tag was met: [(typeCounts[tag] || 0) + 1] appends to a
    text.  [Math.abs] of an absent change is [NaN]. *)
Inductive Count : Type :=
| Times (n : nat)
| MemberText (name : string) (ones : nat).

Record Stats : Type := mkStats {
  totalSegments : nat;
  typeCounts : gmap string Count;
  volatility : string
}.

Definition type_key (t : option string) : string :=
  match t with
  | Some s => s
  | None => "undefined"
  end.

(** [typeCounts[key] = (typeCounts[key] || 0) + 1].  The assignment to
    [__proto__] goes to the setter of [Object.prototype], which ignores a
    text. *)
Definition count_type (typeCounts : gmap string Count) (key : string)
  : gmap string Count :=
  match get_property (typeCounts !! key) key with
  | Own (Times n) => <[key := Times (n + 1)]> typeCounts
  | Own (MemberText name ones) => <[key := MemberText name (ones + 1)]> typeCounts
  | Inherited name =>
      if String.eqb key "__proto__" then typeCounts
      else <[key := MemberText name 1]> typeCounts
  | Undefined => <[key := Times 1]> typeCounts
  end.

(** [totalAbsChange += Math.abs(segment.pct_change)]: the sum is rounded. *)
Definition add_abs (total : option R) (pctChange : option R) : option R :=
  match total, pctChange with
  | Some a, Some p => Some (round64 (a + Rabs p))
  | _, _ => None
  end.

Fixpoint tally (data : list entry) (typeCounts : gmap string Count)
    (totalAbsChange : option R) : outcome (gmap string Count * option R) :=
  match data with
  | [] => Return (typeCounts, totalAbsChange)
  | e :: rest =>
      segment ← fields e;
      tally rest (count_type typeCounts (type_key (segment_type segment)))
            (add_abs totalAbsChange (pct_change segment))
  end.

Definition format_volatility (totalAbsChange : option R) (totalSegments : nat)
  : string :=
  match totalAbsChange with
  | Some total => toFixed2 (round64 (total / INR totalSegments))
  | None => "NaN"
  end +:+ "%".

Definition calculateStats (data : option (list entry)) : M (option Stats) :=
  st ← get;
  let dataToUse :=
    match data with
    | Some d => Some d
    | None => lastLoadedData st
    end in
  match dataToUse with
  | None => mret None
  | Some d =>
      if Nat.eqb (length d) 0 then mret None
      else
        totals ← lift (tally d ∅ (Some 0));
        mret (Some (mkStats (length d) (fst totals)
                      (format_volatility (snd totals) (length d))))
  end.

End DNAVisualizer.

(** ** The orbit controls *)

Module OrbitControls.

Import THREE.
Local Open Scope R_scope.

Inductive mode : Type := none | rotate | pan.

(** The camera (its position and the point it was last turned to) and the
    fields of the controls that [update] reads or writes. *)
Record State : Type := mkState {
  camera_position : Vector3;
  camera_lookAt : Vector3;
  target : Vector3;
  autoRotate : bool;
  autoRotateSpeed : R;
  _state : mode;
  _spherical : Spherical;
  _sphericalDelta : Spherical;
  _scale : R;
  _panOffset : Vector3
}.

Definition is_none (m : mode) : bool :=
  match m with
  | none => true
  | _ => false
  end.

Definition update (c : State) : State * bool :=
  let position := camera_position c in
  let delta :=
    if autoRotate c && is_none (_state c) then
      let rotAngle := 2 * PI / 60 / 60 * autoRotateSpeed c in
      mkSpherical (radius (_sphericalDelta c)) (phi (_sphericalDelta c))
                  (theta (_sphericalDelta c) - rotAngle)
    else _sphericalDelta c in
  let offset := sub position (target c) in
  let s0 := setFromVector3 offset in
  let s1 := mkSpherical (radius s0) (phi s0 + phi delta) (theta s0 + theta delta) in
  let s2 := mkSpherical (radius s1)
              (Math_max 0.01 (Math_min (PI - 0.01) (phi s1))) (theta s1) in
  let s3 := makeSafe s2 in
  let s4 := mkSpherical (radius s3 * _scale c) (phi s3) (theta s3) in
  let target' := add (target c) (_panOffset c) in
  let offset' := setFromSpherical s4 in
  let position' := add target' offset' in
  (mkState position' target' target' (autoRotate c) (autoRotateSpeed c)
     (_state c) s4 (mkSpherical 0 0 0) 1 (mkVector3 0 0 0),
   true).

End OrbitControls.

(** ** Vocabulary of the statements *)

Module Spec.

Import THREE.
Local Open Scope R_scope.

(** The six required fields are all there. *)
Definition all_present (s : Segment) : bool :=
  defined (segment_type s)
  && defined (start_index s)
  && defined (end_index s)
  && defined (start_price s)
  && defined (end_price s)
  && defined (pct_change s).

(** The three kinds of mesh in a helix, told apart by their geometry. *)
Definition is_backbone (m : Mesh) : bool :=
  match geometry m with
  | TubeGeometry _ _ _ _ _ => true
  | _ => false
  end.

Definition is_rung (m : Mesh) : bool :=
  match geometry m with
  | CylinderGeometry _ _ _ _ _ _ => true
  | _ => false
  end.

Definition is_pulse (m : Mesh) : bool :=
  match geometry m with
  | SphereGeometry _ _ _ => true
  | _ => false
  end.

Definition backbones (g : Group) : list Mesh := List.filter is_backbone (children g).
Definition rungs (g : Group) : list Mesh := List.filter is_rung (children g).
Definition pulses (g : Group) : list Mesh := List.filter is_pulse (children g).



(** The number of pulse spheres that a change of [pctChange] percent calls
    for: none up to 5, one up to 8, two above. *)
Definition expected_pulses (pctChange : R) : nat :=
  if Rle_dec (Rabs pctChange) 5 then 0
  else if Rle_dec (Rabs pctChange) 8 then 1
  else 2.

(** A complete record of the segment JSON. *)
Definition segment (type : string) (startIdx endIdx : Z)
    (startPrice endPrice pctChange : R) : Segment :=
  mkSegment (Some type) (Some startIdx) (Some endIdx) None None
            (Some startPrice) (Some endPrice) (Some pctChange).

(** What one turn of the loop over the segments adds after the rung, when
    [Math.random] has been drawn [drawn] times before. *)
Definition draws (pctChange : R) : nat :=
  if Rlt_dec 5 (Rabs pctChange) then
    if Rlt_dec 8 (Rabs pctChange) then 4 else 2
  else 0.

Definition effect_meshes (entropy : nat -> R) (drawn : nat) (at_ : Vector3)
    (color : property Z) (pctChange : R) : list Mesh :=
  if Rlt_dec 5 (Rabs pctChange) then
    DNAVisualizer.pulse_mesh at_ color pctChange
        (entropy drawn) (entropy (S drawn))
    :: (if Rlt_dec 8 (Rabs pctChange) then
          [DNAVisualizer.outer_pulse_mesh at_ color pctChange
             (entropy (S (S drawn))) (entropy (S (S (S drawn))))]
        else [])
  else [].

(** The meshes of the loop over segments with their tag and change present,
    one block per segment. *)
Fixpoint helix_blocks (radius turns height : R) (entropy : nat -> R)
    (numSegments i drawn : nat) (segs : list Segment) : list (list Mesh) :=
  match segs with
  | [] => []
  | s :: rest =>
      match segment_type s, pct_change s with
      | Some type, Some p =>
          let rung :=
            DNAVisualizer.segment_rung radius turns height numSegments i s
              type p in
          (rung :: effect_meshes entropy drawn (position rung)
                     (DNAVisualizer.rung_color type) p)
          :: helix_blocks radius turns height entropy numSegments (S i)
               (draws p + drawn) rest
      | _, _ => []
      end
  end.

(** The rungs among them. *)
Fixpoint helix_rungs (radius turns height : R) (numSegments i : nat)
    (segs : list Segment) : list Mesh :=
  match segs with
  | [] => []
  | s :: rest =>
      match segment_type s, pct_change s with
      | Some type, Some p =>
          DNAVisualizer.segment_rung radius turns height numSegments i s type p
          :: helix_rungs radius turns height numSegments (S i) rest
      | _, _ => []
      end
  end.

Fixpoint total_draws (segs : list Segment) : nat :=
  match segs with
  | [] => 0
  | s :: rest =>
      match pct_change s with
      | Some p => draws p
      | None => 0
      end + total_draws rest
  end.

(** The state after [k] more draws of [Math.random]. *)
Definition advance (st : DNAVisualizer.State) (k : nat) : DNAVisualizer.State :=
  DNAVisualizer.mkState (DNAVisualizer.scene st) (DNAVisualizer.dnaGroup st)
    (DNAVisualizer.lastLoadedData st) (DNAVisualizer.selectedType st)
    (DNAVisualizer.config st) (DNAVisualizer.next_id st)
    (DNAVisualizer.entropy st) (k + DNAVisualizer.drawn st).

(** The segment has a type tag and a change, so that its tooltip can be
    built. *)
Definition renderable (s : Segment) : bool :=
  defined (segment_type s) && defined (pct_change s).

(** The group that [createDNAHelix] builds in state [st] from a non-empty
    list of segments with their tag and change present, and the state in
    which it leaves the visualiser. *)
Definition helix_group (st : DNAVisualizer.State) (segs : list Segment) : Group :=
  let radius := DNAVisualizer.helixRadius (DNAVisualizer.config st) in
  let turns := DNAVisualizer.helixTurns (DNAVisualizer.config st) in
  let thickness := DNAVisualizer.backboneThickness (DNAVisualizer.config st) in
  let samples := DNAVisualizer.backbone_samples radius turns 200 (turns * 32) in
  mkGroup (DNAVisualizer.next_id st)
    (DNAVisualizer.backbone1
       (TubeGeometry (map fst samples) (turns * 32) thickness 8 false)
     :: DNAVisualizer.backbone2
          (TubeGeometry (map snd samples) (turns * 32) thickness 8 false)
     :: concat (helix_blocks radius turns 200 (DNAVisualizer.entropy st)
                  (length segs) 0 (DNAVisualizer.drawn st) segs))
    origin (PI / 6).

Definition helix_state (st : DNAVisualizer.State) (segs : list Segment)
  : DNAVisualizer.State :=
  DNAVisualizer.mkState (DNAVisualizer.scene st) (Some (helix_group st segs))
    (DNAVisualizer.lastLoadedData st) (DNAVisualizer.selectedType st)
    (DNAVisualizer.config st) (S (DNAVisualizer.next_id st))
    (DNAVisualizer.entropy st) (total_draws segs + DNAVisualizer.drawn st).

(** The empty group that [createDNAHelix] returns for no segments, and the
    state after it: only the identity counter has moved. *)
Definition empty_group (st : DNAVisualizer.State) : Group :=
  mkGroup (DNAVisualizer.next_id st) [] origin 0.

Definition empty_state (st : DNAVisualizer.State) : DNAVisualizer.State :=
  DNAVisualizer.mkState (DNAVisualizer.scene st) (DNAVisualizer.dnaGroup st)
    (DNAVisualizer.lastLoadedData st) (DNAVisualizer.selectedType st)
    (DNAVisualizer.config st) (S (DNAVisualizer.next_id st))
    (DNAVisualizer.entropy st) (DNAVisualizer.drawn st).

(** The state after [clearScene], after [this.scene.add(g)] and after
    [this.lastLoadedData = data]. *)
Definition cleared (st : DNAVisualizer.State) : DNAVisualizer.State :=
  match DNAVisualizer.dnaGroup st with
  | Some g =>
      DNAVisualizer.mkState (scene_remove (DNAVisualizer.scene st) g) None
        (DNAVisualizer.lastLoadedData st) (DNAVisualizer.selectedType st)
        (DNAVisualizer.config st) (DNAVisualizer.next_id st)
        (DNAVisualizer.entropy st) (DNAVisualizer.drawn st)
  | None => st
  end.

Definition shown (st : DNAVisualizer.State) (g : Group) : DNAVisualizer.State :=
  DNAVisualizer.mkState (scene_add (DNAVisualizer.scene st) g)
    (DNAVisualizer.dnaGroup st) (DNAVisualizer.lastLoadedData st)
    (DNAVisualizer.selectedType st) (DNAVisualizer.config st)
    (DNAVisualizer.next_id st) (DNAVisualizer.entropy st)
    (DNAVisualizer.drawn st).

Definition loaded (st : DNAVisualizer.State) (data : list entry)
  : DNAVisualizer.State :=
  DNAVisualizer.mkState (DNAVisualizer.scene st) (DNAVisualizer.dnaGroup st)
    (Some data) (DNAVisualizer.selectedType st) (DNAVisualizer.config st)
    (DNAVisualizer.next_id st) (DNAVisualizer.entropy st)
    (DNAVisualizer.drawn st).

(** Four segments of a run of the segmenter. *)
Definition sample : list Segment :=
  [segment "optimal" 0 10 100 110 10;
   segment "negative" 10 12 110 99 (-10);
   segment "optimal" 12 15 99 104 5;
   segment "negative" 15 16 104 103 (-1)].

(** A visualiser as its constructor leaves it, on an empty scene. *)
Definition fresh : DNAVisualizer.State :=
  DNAVisualizer.constructor [] 0 (fun _ => 0) 0.

(** The changes of the segments and the mean of their absolute values. *)
Definition changes (segs : list Segment) : list R :=
  omap pct_change segs.

Definition sum_abs (ps : list R) : R :=
  fold_right (fun p acc => Rabs p + acc) 0 ps.

Definition mean_abs (ps : list R) : R := sum_abs ps / INR (length ps).

(** The map counts [c]: a type whose name no object inherits is a key
    exactly when its count is not zero, and the count is its value. *)
Definition counts (m : gmap string DNAVisualizer.Count) (c : string -> nat)
  : Prop :=
  forall t : string,
    ~ In t prototype_members ->
    m !! t = if Nat.eqb (c t) 0 then None
             else Some (DNAVisualizer.Times (c t)).

(** The binary64 numbers nearest to 0.01 and to 0.02, two segments with
    these changes, and two whose changes are [2^53] and 1. *)
Definition cent : R := 5764607523034235 / 2 ^ 59.
Definition two_cents : R := 5764607523034235 / 2 ^ 58.

Definition cents : list Segment :=
  [mkSegment (Some "optimal") None None None None None None (Some cent);
   mkSegment (Some "optimal") None None None None None None (Some two_cents)].

Definition absorbed : list Segment :=
  [mkSegment (Some "optimal") None None None None None None
     (Some 9007199254740992);
   mkSegment (Some "optimal") None None None None None None (Some 1)].

(** The fresh visualiser after [setConfig("height", 100)] and
    [setConfig("pointsPerTurn", 8)]. *)
Definition retuned : DNAVisualizer.State :=
  fst (DNAVisualizer.setConfig "pointsPerTurn" 8
         (fst (DNAVisualizer.setConfig "height" 100 fresh))).

(** The path of a backbone tube. *)
Definition tube_path (m : Mesh) : list Vector3 :=
  match geometry m with
  | TubeGeometry path _ _ _ _ => path
  | _ => []
  end.

(** A camera at distance 1 in front of the target, nothing pending; at rest
    and with the automatic rotation on. *)
Definition resting : OrbitControls.State :=
  OrbitControls.mkState (mkVector3 0 0 1) (mkVector3 0 0 0) (mkVector3 0 0 0)
    false 2 OrbitControls.none (mkSpherical 1 0 0) (mkSpherical 0 0 0) 1
    (mkVector3 0 0 0).

Definition spinning : OrbitControls.State :=
  OrbitControls.mkState (mkVector3 0 0 1) (mkVector3 0 0 0) (mkVector3 0 0 0)
    true 2 OrbitControls.none (mkSpherical 1 0 0) (mkSpherical 0 0 0) 1
    (mkVector3 0 0 0).

(** Nothing is pending: no rotation, no zoom, no pan. *)
Definition nothing_pending (c : OrbitControls.State) : Prop :=
  theta (OrbitControls._sphericalDelta c) = 0
  /\ phi (OrbitControls._sphericalDelta c) = 0
  /\ OrbitControls._scale c = 1
  /\ OrbitControls._panOffset c = mkVector3 0 0 0.

(** The polar angle of the camera offset. *)
Definition polar_angle (c : OrbitControls.State) : R :=
  phi (setFromVector3
         (sub (OrbitControls.camera_position c) (OrbitControls.target c))).

(** The configuration holds a number of turns with which the backbones can
    be built: 32 times the turns is a positive whole number. *)
Definition whole_turns (st : DNAVisualizer.State) : Prop :=
  exists n : Z,
    (0 < n)%Z
    /\ DNAVisualizer.helixTurns (DNAVisualizer.config st) * 32 = IZR n.


(** A type tag that is not the name of a member every object inherits. *)
Definition plain_tag (type : string) : Prop :=
  ~ In type prototype_members.

(** Exact tag match, stable: [kept] is [segs] with the segments struck out
    whose type tag is not [type]. *)
Inductive exact_match (type : string)
  : list Segment -> list Segment -> Prop :=
| exact_match_nil : exact_match type [] []
| exact_match_keep (s : Segment) (segs kept : list Segment) :
    segment_type s = Some type ->
    exact_match type segs kept ->
    exact_match type (s :: segs) (s :: kept)
| exact_match_drop (s : Segment) (segs kept : list Segment) :
    segment_type s <> Some type ->
    exact_match type segs kept ->
    exact_match type (s :: segs) kept.

(** How often a type tag occurs. *)
Fixpoint tag_count (type : string) (segs : list Segment) : nat :=
  match segs with
  | [] => 0
  | s :: rest =>
      match segment_type s with
      | Some t => if String.string_dec t type then S (tag_count type rest)
                  else tag_count type rest
      | None => tag_count type rest
      end
  end.

(** A binary64 number: a significand of at most 53 bits times a power of
    two, from the smallest subnormal up. *)
Definition binary64 (x : R) : Prop :=
  exists m e : Z,
    (Z.abs m < 2 ^ 53)%Z /\ (-1074 <= e)%Z /\ x = IZR m * powerRZ 2 e.

(** The sum of the absolute values and their mean as binary64 arithmetic
    gives them, adding from the left. *)
Definition float_sum (ps : list R) : R :=
  fold_left (fun total p => round64 (total + Rabs p)) ps 0.

Definition float_mean (ps : list R) : R :=
  round64 (float_sum ps / INR (length ps)).

(** A whole number [n] of hundredths written with two decimals. *)
Definition digit (d : Z) : string :=
  String (Ascii.ascii_of_nat (48 + Z.to_nat d)) "".

Definition hundredths (n : Z) : string :=
  pretty (n / 100)%Z +:+ "." +:+ digit ((n / 10) mod 10)%Z
  +:+ digit (n mod 10)%Z.

(** [s] is [x] written with two decimals: the hundredths nearest to [x]. *)
Definition two_decimals (x : R) (s : string) : Prop :=
  exists n : Z, s = hundredths n /\ Rabs (IZR n / 100 - x) <= 1 / 200.


End Spec.

(** ** The rest of the orbit controls: pointer and wheel input *)

Module OrbitInput.

Import THREE OrbitControls.
Local Open Scope R_scope.

Record Vector2 : Type := mkVector2 { px : R; py : R }.

Definition subVectors (a b : Vector2) : Vector2 :=
  mkVector2 (px a - px b) (py a - py b).

(** [Vector3.distanceTo]. *)
Definition distanceTo (a b : Vector3) : R :=
  sqrt ((x a - x b) * (x a - x b) + (y a - y b) * (y a - y b)
        + (z a - z b) * (z a - z b)).

(** The listeners of the controls, on the element and on the document.
    Adding a listener that is already there does nothing, so that each is
    there or not. *)
Record Listeners : Type := mkListeners {
  dom_mousedown : bool;
  dom_wheel : bool;
  dom_contextmenu : bool;
  doc_mousemove : bool;
  doc_mouseup : bool
}.

(** The controls: the fields that [update] uses ([core]), the height of the
    element, the settings, the pointer tracking and the listeners. *)
Record Controls : Type := mkControls {
  core : State;
  clientHeight : R;
  enabled : bool;
  enableZoom : bool;
  zoomSpeed : R;
  enableRotate : bool;
  rotateSpeed : R;
  enablePan : bool;
  panSpeed : R;
  _rotateStart : Vector2;
  _rotateEnd : Vector2;
  _rotateDelta : Vector2;
  _panStart : Vector2;
  _panEnd : Vector2;
  _panDelta : Vector2;
  listeners : Listeners
}.

Record MouseEvent : Type := mkMouseEvent {
  button : Z;
  clientX : R;
  clientY : R
}.

Record WheelEvent : Type := mkWheelEvent { deltaY : R }.

Definition with_core (c : Controls) (s : State) : Controls :=
  mkControls s (clientHeight c) (enabled c) (enableZoom c) (zoomSpeed c)
    (enableRotate c) (rotateSpeed c) (enablePan c) (panSpeed c)
    (_rotateStart c) (_rotateEnd c) (_rotateDelta c)
    (_panStart c) (_panEnd c) (_panDelta c) (listeners c).

Definition with_listeners (c : Controls) (l : Listeners) : Controls :=
  mkControls (core c) (clientHeight c) (enabled c) (enableZoom c) (zoomSpeed c)
    (enableRotate c) (rotateSpeed c) (enablePan c) (panSpeed c)
    (_rotateStart c) (_rotateEnd c) (_rotateDelta c)
    (_panStart c) (_panEnd c) (_panDelta c) l.

Definition with_rotate (c : Controls) (start end_ delta : Vector2) : Controls :=
  mkControls (core c) (clientHeight c) (enabled c) (enableZoom c) (zoomSpeed c)
    (enableRotate c) (rotateSpeed c) (enablePan c) (panSpeed c)
    start end_ delta (_panStart c) (_panEnd c) (_panDelta c) (listeners c).

Definition with_pan (c : Controls) (start end_ delta : Vector2) : Controls :=
  mkControls (core c) (clientHeight c) (enabled c) (enableZoom c) (zoomSpeed c)
    (enableRotate c) (rotateSpeed c) (enablePan c) (panSpeed c)
    (_rotateStart c) (_rotateEnd c) (_rotateDelta c) start end_ delta
    (listeners c).

Definition set_state (s : State) (m : mode) : State :=
  mkState (camera_position s) (camera_lookAt s) (target s) (autoRotate s)
    (autoRotateSpeed s) m (_spherical s) (_sphericalDelta s) (_scale s)
    (_panOffset s).

Definition set_sphericalDelta (s : State) (d : Spherical) : State :=
  mkState (camera_position s) (camera_lookAt s) (target s) (autoRotate s)
    (autoRotateSpeed s) (_state s) (_spherical s) d (_scale s) (_panOffset s).

Definition set_scale (s : State) (k : R) : State :=
  mkState (camera_position s) (camera_lookAt s) (target s) (autoRotate s)
    (autoRotateSpeed s) (_state s) (_spherical s) (_sphericalDelta s) k
    (_panOffset s).

Definition set_panOffset (s : State) (v : Vector3) : State :=
  mkState (camera_position s) (camera_lookAt s) (target s) (autoRotate s)
    (autoRotateSpeed s) (_state s) (_spherical s) (_sphericalDelta s)
    (_scale s) v.

Definition _addEventListeners (c : Controls) : Controls :=
  with_listeners c
    (mkListeners true true true
       (doc_mousemove (listeners c)) (doc_mouseup (listeners c))).

Definition dispose (c : Controls) : Controls :=
  with_listeners c (mkListeners false false false false false).

(** [update()] on the whole object. *)
Definition tick (c : Controls) : Controls * bool :=
  (with_core c (fst (update (core c))), snd (update (core c))).

(** The handlers answer the new controls and whether they called
    [event.preventDefault()]. *)
Definition _onMouseDown (event : MouseEvent) (c : Controls) : Controls * bool :=
  if negb (enabled c) then (c, false)
  else
    let c1 :=
      if Z.eqb (button event) 0 then
        if enableRotate c then
          with_rotate (with_core c (set_state (core c) rotate))
            (mkVector2 (clientX event) (clientY event))
            (_rotateEnd c) (_rotateDelta c)
        else c
      else if Z.eqb (button event) 1 || Z.eqb (button event) 2 then
        if enablePan c then
          with_pan (with_core c (set_state (core c) pan))
            (mkVector2 (clientX event) (clientY event))
            (_panEnd c) (_panDelta c)
        else c
      else c in
    let c2 :=
      if is_none (_state (core c1)) then c1
      else
        with_listeners c1
          (mkListeners (dom_mousedown (listeners c1)) (dom_wheel (listeners c1))
             (dom_contextmenu (listeners c1)) true true) in
    (c2, true).

Definition _onMouseMove (event : MouseEvent) (c : Controls) : Controls * bool :=
  if negb (enabled c) then (c, false)
  else
    match _state (core c) with
    | rotate =>
        let rotateEnd := mkVector2 (clientX event) (clientY event) in
        let rotateDelta := subVectors rotateEnd (_rotateStart c) in
        let d := _sphericalDelta (core c) in
        let d' :=
          mkSpherical (radius d)
            (phi d - 2 * PI * py rotateDelta / clientHeight c * rotateSpeed c)
            (theta d - 2 * PI * px rotateDelta / clientHeight c * rotateSpeed c) in
        (with_rotate (with_core c (set_sphericalDelta (core c) d'))
           rotateEnd rotateEnd rotateDelta,
         true)
    | pan =>
        let panEnd := mkVector2 (clientX event) (clientY event) in
        let panDelta := subVectors panEnd (_panStart c) in
        let panFactor :=
          0.002 * distanceTo (camera_position (core c)) (target (core c)) in
        let o := _panOffset (core c) in
        let o' :=
          mkVector3 (x o - px panDelta * panFactor)
                    (y o + py panDelta * panFactor) (z o) in
        (with_pan (with_core c (set_panOffset (core c) o'))
           panEnd panEnd panDelta,
         true)
    | none => (c, true)
    end.

Definition _onMouseUp (c : Controls) : Controls :=
  with_core
    (with_listeners c
       (mkListeners (dom_mousedown (listeners c)) (dom_wheel (listeners c))
          (dom_contextmenu (listeners c)) false false))
    (set_state (core c) none).

(** [Math.pow(0.95, this.zoomSpeed)]. *)
Definition zoom_step (c : Controls) : R := Rpower 0.95 (zoomSpeed c).

Definition _onMouseWheel (event : WheelEvent) (c : Controls) : Controls * bool :=
  if negb (enabled c) || negb (enableZoom c) then (c, false)
  else
    let delta := deltaY event in
    if Rlt_dec 0 delta then
      (with_core c (set_scale (core c) (_scale (core c) / zoom_step c)), true)
    else if Rlt_dec delta 0 then
      (with_core c (set_scale (core c) (_scale (core c) * zoom_step c)), true)
    else (c, true).

Definition _onContextMenu (c : Controls) : Controls * bool :=
  if negb (enabled c) then (c, false) else (c, true).

Definition reset (c : Controls) : Controls :=
  with_core c
    (mkState (camera_position (core c)) (camera_lookAt (core c))
       (mkVector3 0 0 0) (autoRotate (core c)) (autoRotateSpeed (core c))
       none (_spherical (core c)) (mkSpherical 0 0 0) 1 (mkVector3 0 0 0)).

Definition setAutoRotateSpeed (speed : R) (c : Controls) : Controls :=
  with_core c
    (mkState (camera_position (core c)) (camera_lookAt (core c))
       (target (core c)) (autoRotate (core c)) speed (_state (core c))
       (_spherical (core c)) (_sphericalDelta (core c)) (_scale (core c))
       (_panOffset (core c))).

Definition toggleAutoRotate (c : Controls) : Controls * bool :=
  (with_core c
     (mkState (camera_position (core c)) (camera_lookAt (core c))
        (target (core c)) (negb (autoRotate (core c)))
        (autoRotateSpeed (core c)) (_state (core c)) (_spherical (core c))
        (_sphericalDelta (core c)) (_scale (core c)) (_panOffset (core c))),
   negb (autoRotate (core c))).

(** The constructor, for a camera at [position] turned to [lookedAt] and an
    element of height [height] that has none of these listeners yet. *)
Definition constructor (position lookedAt : Vector3) (height : R) : Controls :=
  fst (tick (_addEventListeners
    (mkControls
       (mkState position lookedAt (mkVector3 0 0 0) false 2.0 none
          (mkSpherical 1 0 0) (mkSpherical 1 0 0) 1 (mkVector3 0 0 0))
       height true true 1.0 true 1.0 true 1.0
       (mkVector2 0 0) (mkVector2 0 0) (mkVector2 0 0)
       (mkVector2 0 0) (mkVector2 0 0) (mkVector2 0 0)
       (mkListeners false false false false false)))).

End OrbitInput.

(** ** The helper [_addSegmentEffects] of the visualiser *)

Module Effects.

Import THREE DNAVisualizer.
Local Open Scope R_scope.

(** [this.colorMap[segment.segment_type] || 0xd7e5ff]. *)
Definition effect_color (type : option string) : property Z :=
  match type with
  | Some t => rung_color t
  | None => Own 0xd7e5ff%Z
  end.

(** [_addSegmentEffects(group, segment, position)]; the group it has added
    to is the answer.  [Math.abs] of an absent change is [NaN], which is not
    above 5. *)
Definition _addSegmentEffects (group : Group) (e : entry) (position : Vector3)
  : M Group :=
  segment ← lift (fields e);
  match pct_change segment with
  | Some pctChange =>
      if Rlt_dec 5 (Rabs pctChange) then
        let color := effect_color (segment_type segment) in
        r1 ← Math_random;
        r2 ← Math_random;
        let pulse := pulse_mesh position color pctChange r1 r2 in
        mret (mkGroup (id group) (children group ++ [pulse])
                (group_position group) (rotation_y group))
      else mret group
  | None => mret group
  end.

End Effects.

(** ** The application: what it does with the visualiser

    Of [MarketDNAApp] the embedding has the calls into the visualiser and
    the pulse animation.  What a method writes into the page is its
    answer. *)

Module MarketDNAApp.

Import THREE DNAVisualizer.
Local Open Scope R_scope.

Definition updateHelixTurns (turns : R) : M unit :=
  _ ← setConfig "helixTurns" turns;
  updateVisualization.

Definition updateHelixRadius (radius : R) : M unit :=
  _ ← setConfig "helixRadius" radius;
  updateVisualization.

Definition updateBackboneThickness (thickness : R) : M unit :=
  _ ← setConfig "backboneThickness" thickness;
  updateVisualization.

(** The texts that [updateSequenceStats] puts into the statistics panel. *)
Record Elements : Type := mkElements {
  shown_totalSegments : nat;
  optimalCount : Count;
  negativeCount : Count;
  shown_volatility : string
}.

(** [count || 0] for a count read under a name that no object inherits. *)
Definition or_zero (count : option Count) : Count :=
  match count with
  | Some c => c
  | None => Times 0
  end.

Definition updateSequenceStats : M (option Elements) :=
  lastLoadedData ← getLastLoadedData;
  match lastLoadedData with
  | None => mret None
  | Some data =>
      if Nat.eqb (length data) 0 then mret None
      else
        stats ← calculateStats None;
        match stats with
        | None => mret None
        | Some stats =>
            mret (Some (mkElements (totalSegments stats)
                          (or_zero (typeCounts stats !! "optimal"))
                          (or_zero (typeCounts stats !! "negative"))
                          (volatility stats)))
        end
  end.


(** The [onload] handler of [onFileLoad]; [parsed] is the outcome of
    [JSON.parse] on the text of the file. *)
Definition onFileLoaded (parsed : outcome json) : M (option Elements) :=
  result ← loadFromText parsed;
  match result with
  | Some _ => updateSequenceStats
  | None => mret None
  end.

Definition with_opacity (m : Material) (o : R) : Material :=
  match m with
  | MeshStandardMaterial c metal rough transparent _ emissive intensity =>
      MeshStandardMaterial c metal rough transparent o emissive intensity
  | MeshBasicMaterial c transparent _ => MeshBasicMaterial c transparent o
  end.

(** The pulse animation of [animateSceneElements] on one object: the scale
    it sets and the object with its new opacity; [None] when the object has
    no animation parameters or a zero [initialScale]. *)
Definition pulse_scale (params : AnimationParams) (elapsedTime : R) : R :=
  initialScale params
  + (maxScale params - initialScale params)
    * (0.5 + 0.5 * sin (elapsedTime * pulseSpeed params + phase params)).

Definition pulse_opacity (params : AnimationParams) (scale : R) : R :=
  0.3 * (1 - (scale - initialScale params)
             / (maxScale params - initialScale params)).

Definition animate_pulse (elapsedTime : R) (object : Mesh) : option (R * Mesh) :=
  match userData object with
  | UserAnimation params =>
      if Req_dec_T (initialScale params) 0 then None
      else
        let scale := pulse_scale params elapsedTime in
        Some (scale,
              mkMesh (geometry object)
                (with_opacity (material object) (pulse_opacity params scale))
                (position object) (lookAt object) (rotateX object)
                (userData object))
  | _ => None
  end.

End MarketDNAApp.

(** ** Vocabulary of the further statements *)

Module Props.

Import THREE.
Local Open Scope R_scope.

(** The five keys of the configuration. *)
Definition known_key (key : string) : bool :=
  String.eqb key "helixTurns" || String.eqb key "helixRadius"
  || String.eqb key "backboneThickness" || String.eqb key "height"
  || String.eqb key "pointsPerTurn".

(** The scene and the visualiser agree: the groups of the scene have
    different identities, all of them handed out already, and the current
    group is one of them. *)
Definition consistent (st : DNAVisualizer.State) : Prop :=
  NoDup (map id (DNAVisualizer.scene st))
  /\ Forall (fun g => (id g < DNAVisualizer.next_id st)%nat)
            (DNAVisualizer.scene st)
  /\ (forall g, DNAVisualizer.dnaGroup st = Some g ->
                In g (DNAVisualizer.scene st)).

(** An entry that [createDNAHelix] can turn into a rung. *)
Definition buildable (e : entry) : bool :=
  match e with
  | ENull => false
  | EObject s => Spec.renderable s
  end.

(** The state after [new THREE.Group()]. *)
Definition allocated (st : DNAVisualizer.State) : DNAVisualizer.State :=
  DNAVisualizer.mkState (DNAVisualizer.scene st) (DNAVisualizer.dnaGroup st)
    (DNAVisualizer.lastLoadedData st) (DNAVisualizer.selectedType st)
    (DNAVisualizer.config st) (S (DNAVisualizer.next_id st))
    (DNAVisualizer.entropy st) (DNAVisualizer.drawn st).

(** The segments that the visualiser shows of [segs] when [type] is
    selected. *)
Definition selection (type : string) (segs : list Segment) : list Segment :=
  if String.eqb type "all" then segs else List.filter (type_is type) segs.


(** The calls that change a visualiser, and the state after a run of
    them; a call that throws leaves the state in which it threw. *)
Inductive call : Type :=
| Load (parsed : outcome json)
| Rebuild (data : list entry)
| Update
| Clear
| SetConfig (key : string) (value : R)
| SetType (type : string).

Definition perform (c : call) (st : DNAVisualizer.State) : DNAVisualizer.State :=
  match c with
  | Load parsed => fst (DNAVisualizer.loadFromText parsed st)
  | Rebuild data => fst (DNAVisualizer.rebuildDNA data st)
  | Update => fst (DNAVisualizer.updateVisualization st)
  | Clear => fst (DNAVisualizer.clearScene st)
  | SetConfig key value => fst (DNAVisualizer.setConfig key value st)
  | SetType type => fst (DNAVisualizer.setSelectedType type st)
  end.

Definition performs (calls : list call) (st : DNAVisualizer.State)
  : DNAVisualizer.State :=
  fold_left (fun st c => perform c st) calls st.

(** The fresh visualiser after it has built the helix of [sample]. *)
Definition showing : DNAVisualizer.State :=
  fst (DNAVisualizer.rebuildDNA (map EObject Spec.sample) Spec.fresh).

(** What is read off a mesh: the height of a cylinder, the radius of a
    cylinder and of a tube, the colour and the opacity of the material. *)
Definition rung_height (m : Mesh) : option R :=
  match geometry m with
  | CylinderGeometry _ _ height _ _ _ => Some height
  | _ => None
  end.


Definition tube_radius (m : Mesh) : option R :=
  match geometry m with
  | TubeGeometry _ _ tubeRadius _ _ => Some tubeRadius
  | _ => None
  end.

Definition mesh_color (m : Mesh) : Z :=
  match material m with
  | MeshStandardMaterial color _ _ _ _ _ _ => color
  | MeshBasicMaterial color _ _ => color
  end.

(** The colour of a type: berry for [negative], cyan for [optimal] and a
    pale blue for every other tag. *)
Definition type_colour (type : string) : Z :=
  if String.string_dec type "negative" then 0xE55C7A
  else if String.string_dec type "optimal" then 0x00E2C5
  else 0xd7e5ff.

Definition mesh_opacity (m : Mesh) : R :=
  match material m with
  | MeshStandardMaterial _ _ _ _ opacity _ _ => opacity
  | MeshBasicMaterial _ _ opacity => opacity
  end.

(** A visualiser that has loaded [sample]. *)
Definition sampled : DNAVisualizer.State :=
  fst (DNAVisualizer.loadFromText
         (Return (JArray (map EObject Spec.sample))) Spec.fresh).

(** A run of pointer moves, and a run of wheel notches, through the
    handlers. *)
Definition drag (events : list OrbitInput.MouseEvent) (c : OrbitInput.Controls)
  : OrbitInput.Controls :=
  fold_left (fun c e => fst (OrbitInput._onMouseMove e c)) events c.

Definition scroll (events : list OrbitInput.WheelEvent) (c : OrbitInput.Controls)
  : OrbitInput.Controls :=
  fold_left (fun c e => fst (OrbitInput._onMouseWheel e c)) events c.

(** The notches towards the scene ([deltaY < 0]) and away from it
    ([deltaY > 0]) in a run of wheel events. *)
Definition notches_in (events : list OrbitInput.WheelEvent) : nat :=
  length (List.filter
            (fun e => if Rlt_dec (OrbitInput.deltaY e) 0 then true else false)
            events).

Definition notches_out (events : list OrbitInput.WheelEvent) : nat :=
  length (List.filter
            (fun e => if Rlt_dec 0 (OrbitInput.deltaY e) then true else false)
            events).

(** What can happen to the controls. *)
Inductive action : Type :=
| MouseDown (e : OrbitInput.MouseEvent)
| MouseMove (e : OrbitInput.MouseEvent)
| MouseUp
| MouseWheel (e : OrbitInput.WheelEvent)
| ContextMenu
| Tick
| Reset
| SetAutoRotateSpeed (speed : R)
| ToggleAutoRotate.

Definition act (a : action) (c : OrbitInput.Controls) : OrbitInput.Controls :=
  match a with
  | MouseDown e => fst (OrbitInput._onMouseDown e c)
  | MouseMove e => fst (OrbitInput._onMouseMove e c)
  | MouseUp => OrbitInput._onMouseUp c
  | MouseWheel e => fst (OrbitInput._onMouseWheel e c)
  | ContextMenu => fst (OrbitInput._onContextMenu c)
  | Tick => fst (OrbitInput.tick c)
  | Reset => OrbitInput.reset c
  | SetAutoRotateSpeed speed => OrbitInput.setAutoRotateSpeed speed c
  | ToggleAutoRotate => fst (OrbitInput.toggleAutoRotate c)
  end.

Definition acts (l : list action) (c : OrbitInput.Controls) : OrbitInput.Controls :=
  fold_left (fun c a => act a c) l c.

(** The events that the browser hands to the handlers, as against the calls
    of the application. *)
Definition is_input (a : action) : bool :=
  match a with
  | MouseDown _ | MouseMove _ | MouseUp | MouseWheel _ | ContextMenu => true
  | _ => false
  end.

(** While a drag is in progress the two listeners on the document are
    there. *)
Definition listening (c : OrbitInput.Controls) : Prop :=
  OrbitControls._state (OrbitInput.core c) <> OrbitControls.none ->
  OrbitInput.doc_mousemove (OrbitInput.listeners c) = true
  /\ OrbitInput.doc_mouseup (OrbitInput.listeners c) = true.

(** The automatic rotation does not apply at the next tick. *)
Definition no_auto_rotation (c : OrbitControls.State) : Prop :=
  OrbitControls.autoRotate c = false
  \/ OrbitControls._state c <> OrbitControls.none.

(** Controls as the constructor leaves them for the camera of the
    application, then with the left button down, and with the right one. *)
Definition idle : OrbitInput.Controls :=
  OrbitInput.constructor (mkVector3 0 10 100) (mkVector3 0 0 0) 600.

Definition turning : OrbitInput.Controls :=
  fst (OrbitInput._onMouseDown (OrbitInput.mkMouseEvent 0 100 100) idle).

Definition panning : OrbitInput.Controls :=
  fst (OrbitInput._onMouseDown (OrbitInput.mkMouseEvent 2 100 100) idle).

(** A camera at distance 1 in front of the target with a pan pending, and
    one with a zoom and a rotation pending. *)
Definition shifting : OrbitControls.State :=
  OrbitControls.mkState (mkVector3 0 0 1) (mkVector3 0 0 0) (mkVector3 0 0 0)
    false 2 OrbitControls.none (mkSpherical 1 0 0) (mkSpherical 0 0 0) 1
    (mkVector3 3 (-2) 0).

Definition zooming : OrbitControls.State :=
  OrbitControls.mkState (mkVector3 0 0 1) (mkVector3 0 0 0) (mkVector3 0 0 0)
    true 2 OrbitControls.none (mkSpherical 1 0 0) (mkSpherical 0 0.2 0.3) 0.9
    (mkVector3 3 (-2) 0).

(** Controls that are switched off, and controls whose three gestures are
    switched off. *)
Definition disabled : OrbitInput.Controls :=
  OrbitInput.mkControls (OrbitInput.core idle) 600 false true 1 true 1 true 1
    (OrbitInput.mkVector2 0 0) (OrbitInput.mkVector2 0 0)
    (OrbitInput.mkVector2 0 0) (OrbitInput.mkVector2 0 0)
    (OrbitInput.mkVector2 0 0) (OrbitInput.mkVector2 0 0)
    (OrbitInput.listeners idle).

Definition locked : OrbitInput.Controls :=
  OrbitInput.mkControls (OrbitInput.core idle) 600 true false 1 false 1 false 1
    (OrbitInput.mkVector2 0 0) (OrbitInput.mkVector2 0 0)
    (OrbitInput.mkVector2 0 0) (OrbitInput.mkVector2 0 0)
    (OrbitInput.mkVector2 0 0) (OrbitInput.mkVector2 0 0)
    (OrbitInput.listeners idle).

(** A press, a drag, a turn of the wheel and a release. *)
Definition gesture : list action :=
  [MouseDown (OrbitInput.mkMouseEvent 0 100 100);
   MouseMove (OrbitInput.mkMouseEvent 0 140 80);
   MouseWheel (OrbitInput.mkWheelEvent (-100));
   ContextMenu;
   MouseDown (OrbitInput.mkMouseEvent 2 140 80);
   MouseMove (OrbitInput.mkMouseEvent 2 150 90);
   MouseUp].

End Props.

(** * Verification *)

(** ** Filtering and validation *)

Section Filtering.

Import DNAVisualizer Spec.

(** On an array of objects the throwing filter is the plain filter. *)
Lemma array_filter_objects (p : Segment -> bool) (segs : list Segment) :
  array_filter (fun e => s ← fields e; Return (p s)) (map EObject segs)
  = Return (map EObject (List.filter p segs)).
Proof.
  induction segs as [|s segs IH]; [reflexivity|].
  cbn [map array_filter List.filter]. rewrite IH. cbn.
  destruct (p s); reflexivity.
Qed.

(** A [null] element makes the filter throw, wherever it stands. *)
Lemma array_filter_null (p : Segment -> bool) (before after : list entry) :
  (forall e, In e before -> e <> ENull) ->
  array_filter (fun e => s ← fields e; Return (p s)) (before ++ ENull :: after)
  = Throws TypeError.
Proof.
  induction before as [|e before IH]; intros Hobj; [reflexivity|].
  cbn [app array_filter].
  destruct e as [|s]; [exfalso; apply (Hobj ENull); [left; reflexivity|reflexivity]|].
  cbn. rewrite IH; [reflexivity|].
  intros e He. apply Hobj. right. exact He.
Qed.

Lemma valid_segment_present (s : Segment) :
  valid_segment s = all_present s && negb (type_is "" s).
Proof.
  unfold valid_segment, all_present, type_is, truthy.
  destruct (segment_type s) as [t|]; cbn [defined andb negb].
  - destruct (String.eqb t ""); cbn [negb andb];
      destruct (defined (start_index s)), (defined (end_index s)),
        (defined (start_price s)), (defined (end_price s)),
        (defined (pct_change s)); reflexivity.
  - reflexivity.
Qed.

(** The callback of the filter keeps the exact matches. *)
Lemma exact_match_filter (type : string) (segs : list Segment) :
  exact_match type segs (List.filter (type_is type) segs).
Proof.
  induction segs as [|s segs IH]; [constructor|].
  cbn [List.filter]. unfold type_is at 1.
  destruct (segment_type s) as [t|] eqn:Et.
  - destruct (String.eqb_spec t type) as [->|Hne].
    + apply exact_match_keep; [exact Et|exact IH].
    + apply exact_match_drop; [rewrite Et; congruence|exact IH].
  - apply exact_match_drop; [rewrite Et; discriminate|exact IH].
Qed.

Lemma exact_match_functional (type : string) (segs kept kept' : list Segment) :
  exact_match type segs kept -> exact_match type segs kept' -> kept = kept'.
Proof.
  intros H. revert kept'.
  induction H as [|s segs kept Hs _ IH|s segs kept Hs _ IH];
    intros kept' H'; inversion H'; subst; try contradiction;
    try reflexivity.
  - f_equal. apply IH. assumption.
  - apply IH. assumption.
Qed.

(** C9.  [filterSegmentsByType(data, "all")] gives back [data] itself, the
    same elements in the same order; for any other type it gives exactly the
    segments whose [segment_type] is that type, in their original order. *)
Theorem filterSegmentsByType_spec :
  (forall data : list entry, filterSegmentsByType data "all" = Return data)
  /\ (forall (segs : list Segment) (type : string),
        type <> "all" ->
        exists kept : list Segment,
          filterSegmentsByType (map EObject segs) type
          = Return (map EObject kept)
          /\ exact_match type segs kept).
Proof.
  split; [reflexivity|].
  intros segs type Hall. exists (List.filter (type_is type) segs).
  split; [|apply exact_match_filter].
  unfold filterSegmentsByType.
  destruct (String.eqb_spec type "all") as [E|_]; [contradiction|].
  apply array_filter_objects.
Qed.

Lemma filterSegmentsByType_spec_witness :
  "negative" <> "all"
  /\ filterSegmentsByType (map EObject sample) "negative"
     = Return [EObject (segment "negative" 10 12 110 99 (-10));
               EObject (segment "negative" 15 16 104 103 (-1))].
Proof.
  split; [discriminate|].
  destruct (proj2 filterSegmentsByType_spec sample "negative"
              ltac:(discriminate)) as (kept & -> & Hkept).
  rewrite (exact_match_functional "negative" sample kept
             [segment "negative" 10 12 110 99 (-10);
              segment "negative" 15 16 104 103 (-1)] Hkept);
    [reflexivity|].
  apply exact_match_drop; [discriminate|].
  apply exact_match_keep; [reflexivity|].
  apply exact_match_drop; [discriminate|].
  apply exact_match_keep; [reflexivity|].
  constructor.
Defined.

(** The filter is stable and keeps repeated segments: what it returns is the
    input with the other segments struck out. *)
Lemma filter_sublist {A : Type} (p : A -> bool) (l : list A) :
  sublist (List.filter p l) l.
Proof.
  induction l as [|a l IH]; cbn [List.filter]; [constructor|].
  destruct (p a); [apply sublist_skip|apply sublist_cons]; exact IH.
Qed.

(** C7, as stated, fails: an entry that has all six fields but whose
    [segment_type] is the empty string is dropped. *)
Lemma validateData_drops_empty_type :
  all_present (segment "" 0 10 100 110 10) = true
  /\ validateData (JArray (map EObject [segment "" 0 10 100 110 10]))
     <> Return (map EObject
          (List.filter all_present [segment "" 0 10 100 110 10])).
Proof.
  split; [reflexivity|]. cbn. discriminate.
Qed.

(** C7 (amended).  [validateData] returns the empty list when its input is
    not an array; for an array of objects it returns exactly the entries in
    which all six fields are present and [segment_type] is not the empty
    string, in their original order and with repetitions kept. *)
Theorem validateData_spec :
  validateData JNull = Return []
  /\ validateData JOther = Return []
  /\ (forall segs : list Segment,
        validateData (JArray (map EObject segs))
        = Return (map EObject
            (List.filter (fun s => all_present s && negb (type_is "" s)) segs))).
Proof.
  split; [reflexivity|]. split; [reflexivity|].
  intros segs. unfold validateData. rewrite array_filter_objects.
  do 2 f_equal. induction segs as [|s segs IH]; [reflexivity|].
  cbn [List.filter]. rewrite IH, valid_segment_present. reflexivity.
Qed.

(** Ten items of which the third, sixth and ninth lack [pct_change]: the
    other seven come back in their original order. *)
Example validateData_ten_items :
  let item (k : Z) := segment "optimal" k (k + 1)%Z 100 101 1 in
  let bare (k : Z) :=
    mkSegment (Some "negative") (Some k) (Some (k + 1)%Z) None None
              (Some 100%R) (Some 99%R) None in
  validateData
    (JArray (map EObject
       [item 0; item 1; bare 2; item 3; item 4; bare 5; item 6; item 7;
        bare 8; item 9]))%Z
  = Return (map EObject
       [item 0; item 1; item 3; item 4; item 6; item 7; item 9])%Z.
Proof. reflexivity. Qed.

(** An array with a [null] element is not filtered: the call throws. *)
Example validateData_null_element :
  validateData (JArray [EObject (segment "optimal" 0 10 100 110 10); ENull])
  = Throws TypeError.
Proof. reflexivity. Qed.

End Filtering.

(** Running a method: unfold the operations of the monad. *)
Ltac run :=
  unfold DNAVisualizer.lift, DNAVisualizer.throw, DNAVisualizer.get,
    DNAVisualizer.set_dnaGroup, DNAVisualizer.set_scene,
    DNAVisualizer.set_lastLoadedData, DNAVisualizer.set_config,
    DNAVisualizer.set_selectedType, DNAVisualizer.Math_random,
    DNAVisualizer.new_Group;
  unfold mbind, mret, DNAVisualizer.M_bind, DNAVisualizer.M_ret;
  cbn [fields obind fst snd].

(** Both ways of the two tube constructors of [createDNAHelix]. *)
Ltac tubes :=
  repeat match goal with
         | |- context [THREE.new_TubeGeometry ?a ?b ?c ?d ?e] =>
             destruct (THREE.new_TubeGeometry a b c d e); cbn [fst snd]
         end.

(** ** Building the helix *)

Section Helix.

Import THREE DNAVisualizer Spec.
Local Open Scope R_scope.

Lemma advance_0 (st : State) : advance st 0 = st.
Proof. destruct st; reflexivity. Qed.

Lemma advance_advance (st : State) (a b : nat) :
  advance (advance st a) b = advance st (a + b).
Proof.
  unfold advance; cbn. f_equal. lia.
Qed.

Lemma add_segment_object (radius turns height : R) (numSegments i : nat)
    (s : Segment) (type : string) (p : R) (st : State) :
  segment_type s = Some type ->
  pct_change s = Some p ->
  add_segment radius turns height numSegments i (EObject s) st
  = (advance st (draws p),
     Return
       (segment_rung radius turns height numSegments i s type p
        :: effect_meshes (entropy st) (drawn st)
             (position (segment_rung radius turns height numSegments i s type p))
             (rung_color type) p)).
Proof.
  intros Htype Hp. unfold add_segment. run. rewrite Htype, Hp.
  unfold draws, effect_meshes.
  destruct (Rlt_dec 5 (Rabs p)); [destruct (Rlt_dec 8 (Rabs p))|]; run;
    try reflexivity.
  rewrite advance_0. reflexivity.
Qed.

Lemma add_segments_objects (radius turns height : R) (numSegments : nat)
    (segs : list Segment) :
  forallb renderable segs = true ->
  forall (i : nat) (st : State),
    add_segments radius turns height numSegments i (map EObject segs) st
    = (advance st (total_draws segs),
       Return (concat (helix_blocks radius turns height (entropy st)
                         numSegments i (drawn st) segs))).
Proof.
  induction segs as [|s segs IH]; intros Hok i st.
  - cbn. rewrite advance_0. reflexivity.
  - cbn [forallb] in Hok. apply andb_prop in Hok as [Hs Hrest].
    unfold renderable in Hs. apply andb_prop in Hs as [Ht Hp].
    destruct (segment_type s) as [type|] eqn:Etype; [|discriminate].
    destruct (pct_change s) as [p|] eqn:Ep; [|discriminate].
    cbn [map add_segments helix_blocks total_draws]. rewrite Etype, Ep.
    unfold mbind at 1, M_bind at 1.
    rewrite (add_segment_object _ _ _ _ _ s type p st Etype Ep).
    unfold mbind at 1, M_bind at 1. rewrite (IH Hrest).
    unfold mret, M_ret. cbn [concat entropy drawn advance].
    rewrite advance_advance. reflexivity.
Qed.

Lemma effect_meshes_pulses (ent : nat -> R) (d : nat) (at_ : Vector3)
    (color : property Z) (p : R) :
  forallb is_pulse (effect_meshes ent d at_ color p) = true.
Proof.
  unfold effect_meshes.
  destruct (Rlt_dec 5 (Rabs p)); [destruct (Rlt_dec 8 (Rabs p))|]; reflexivity.
Qed.

Lemma filter_none {A : Type} (p q : A -> bool) (l : list A) :
  (forall a, q a = true -> p a = false) ->
  forallb q l = true -> List.filter p l = [].
Proof.
  intros Hqp. induction l as [|a l IH]; [reflexivity|].
  cbn [forallb List.filter]. intros H. apply andb_prop in H as [Ha Hl].
  rewrite (Hqp a Ha). exact (IH Hl).
Qed.

Lemma pulse_not_rung (m : Mesh) : is_pulse m = true -> is_rung m = false.
Proof. unfold is_pulse, is_rung. destruct (geometry m); congruence. Qed.

Lemma pulse_not_backbone (m : Mesh) : is_pulse m = true -> is_backbone m = false.
Proof. unfold is_pulse, is_backbone. destruct (geometry m); congruence. Qed.

(** The rungs of the blocks are the rungs of the segments, one each. *)
Lemma rungs_of_blocks (radius turns height : R) (ent : nat -> R)
    (numSegments : nat) (segs : list Segment) :
  forall i d : nat,
    List.filter is_rung
      (concat (helix_blocks radius turns height ent numSegments i d segs))
    = helix_rungs radius turns height numSegments i segs.
Proof.
  induction segs as [|s segs IH]; intros i d; [reflexivity|].
  cbn [helix_blocks helix_rungs].
  destruct (segment_type s) as [type|]; [|reflexivity].
  destruct (pct_change s) as [p|]; [|reflexivity].
  cbn [concat app]. cbn [List.filter]. change (is_rung (segment_rung _ _ _ _ _ _ _ _)) with true.
  cbv iota. rewrite List.filter_app, IH.
  rewrite (filter_none is_rung is_pulse _ pulse_not_rung
             (effect_meshes_pulses _ _ _ _ _)).
  reflexivity.
Qed.

Lemma helix_rungs_length (radius turns height : R) (numSegments : nat)
    (segs : list Segment) :
  forallb renderable segs = true ->
  forall i : nat,
    length (helix_rungs radius turns height numSegments i segs) = length segs.
Proof.
  induction segs as [|s segs IH]; intros Hok i; [reflexivity|].
  cbn [forallb] in Hok. apply andb_prop in Hok as [Hs Hrest].
  unfold renderable in Hs. cbn [helix_rungs].
  destruct (segment_type s); [|discriminate].
  destruct (pct_change s); [|discriminate].
  cbn [length]. rewrite (IH Hrest). reflexivity.
Qed.

(** The rung at place [j] is the rung of segment [j]. *)
Lemma helix_rungs_lookup (radius turns height : R) (numSegments : nat)
    (segs : list Segment) :
  forallb renderable segs = true ->
  forall (i j : nat) (s : Segment),
    segs !! j = Some s ->
    exists (type : string) (p : R),
      segment_type s = Some type
      /\ pct_change s = Some p
      /\ helix_rungs radius turns height numSegments i segs !! j
         = Some (segment_rung radius turns height numSegments (i + j) s type p).
Proof.
  induction segs as [|s0 segs IH]; intros Hok i j s Hj; [discriminate|].
  cbn [forallb] in Hok. apply andb_prop in Hok as [Hs Hrest].
  unfold renderable in Hs. cbn [helix_rungs].
  destruct (segment_type s0) as [type|] eqn:Etype; [|discriminate].
  destruct (pct_change s0) as [p|] eqn:Ep; [|discriminate].
  destruct j as [|j].
  - injection Hj as <-. exists type, p. rewrite Nat.add_0_r. auto.
  - cbn in Hj. destruct (IH Hrest (S i) j s Hj) as (type' & p' & Ht & Hp & Hl).
    exists type', p'. split; [exact Ht|]. split; [exact Hp|].
    replace (i + S j)%nat with (S i + j)%nat by lia. exact Hl.
Qed.

Lemma createDNAHelix_empty (st : State) :
  createDNAHelix [] st = (empty_state st, Return (empty_group st)).
Proof. reflexivity. Qed.

(** The tubes of the backbones can be built exactly when 32 times the
    turns is a positive whole number. *)
Lemma up_IZR (n : Z) : up (IZR n) = (n + 1)%Z.
Proof. symmetry. apply tech_up; rewrite plus_IZR; lra. Qed.

Lemma whole_positive_IZR (n : Z) : (0 < n)%Z -> whole_positive (IZR n) = true.
Proof.
  intros Hn. unfold whole_positive.
  destruct (Rlt_dec 0 (IZR n)) as [_|Hneg];
    [|exfalso; apply Hneg; apply IZR_lt; exact Hn].
  assert (Int_part (IZR n) = n) as ->
    by (unfold Int_part; rewrite up_IZR; lia).
  destruct (Req_dec_T (IZR n) (IZR n)); [reflexivity|contradiction].
Qed.

Lemma whole_positive_whole (r : R) :
  whole_positive r = true -> exists n : Z, (0 < n)%Z /\ r = IZR n.
Proof.
  unfold whole_positive.
  destruct (Rlt_dec 0 r) as [Hpos|_]; [|discriminate].
  destruct (Req_dec_T (IZR (Int_part r)) r) as [Heq|_]; [|discriminate].
  intros _. exists (Int_part r). split; [|symmetry; exact Heq].
  apply lt_IZR. rewrite Heq. exact Hpos.
Qed.

Lemma backbone_samples_length (radius turns height : R) (n : Z) :
  length (backbone_samples radius turns height (IZR n)) = Z.to_nat (n + 1).
Proof.
  unfold backbone_samples. rewrite length_map, length_seq, up_IZR.
  reflexivity.
Qed.

Lemma new_TubeGeometry_whole (radius turns height thickness : R)
    (pick : Vector3 * Vector3 -> Vector3) (n : Z) :
  (0 < n)%Z ->
  new_TubeGeometry
    (map pick (backbone_samples radius turns height (IZR n)))
    (IZR n) thickness 8 false
  = Return (TubeGeometry
              (map pick (backbone_samples radius turns height (IZR n)))
              (IZR n) thickness 8 false).
Proof.
  intros Hn. unfold new_TubeGeometry.
  rewrite (whole_positive_IZR n Hn), length_map, backbone_samples_length.
  replace (2 <=? Z.to_nat (n + 1))%nat with true; [reflexivity|].
  symmetry. apply Nat.leb_le. lia.
Qed.

Lemma createDNAHelix_objects (segs : list Segment) (st : State) :
  segs <> [] ->
  forallb renderable segs = true ->
  whole_turns st ->
  createDNAHelix (map EObject segs) st
  = (helix_state st segs, Return (helix_group st segs)).
Proof.
  intros Hne Hok (n & Hn & Hturns). destruct segs as [|s segs]; [contradiction|].
  unfold createDNAHelix. run. rewrite length_map.
  cbn [length Nat.eqb config].
  rewrite Hturns, !(new_TubeGeometry_whole _ _ _ _ _ n Hn), <- Hturns.
  rewrite (add_segments_objects _ _ _ _ (s :: segs) Hok).
  reflexivity.
Qed.

(** Otherwise the first tube throws, before any rung is made. *)
Lemma createDNAHelix_throws (data : list entry) (st : State) :
  data <> [] ->
  whole_positive (helixTurns (config st) * 32) = false ->
  createDNAHelix data st = (empty_state st, Throws TypeError).
Proof.
  intros Hne Hturns. destruct data as [|e data]; [contradiction|].
  unfold createDNAHelix. run. cbn [length Nat.eqb config].
  unfold new_TubeGeometry. rewrite Hturns. reflexivity.
Qed.

Lemma whole_turns_fresh : whole_turns fresh.
Proof. exists 480%Z. split; [lia|cbn; lra]. Qed.

End Helix.

(** ** The empty helix and the load *)

Section Loading.

Import THREE DNAVisualizer Spec.
Local Open Scope R_scope.

Lemma clearScene_cleared (st : State) :
  clearScene st = (cleared st, Return tt).
Proof.
  unfold clearScene, cleared. run. destruct (dnaGroup st); reflexivity.
Qed.

Lemma rebuildDNA_empty (st : State) :
  rebuildDNA [] st
  = (shown (empty_state (cleared st)) (empty_group (cleared st)),
     Return (empty_group (cleared st))).
Proof.
  unfold rebuildDNA. unfold mbind at 1, M_bind at 1.
  rewrite clearScene_cleared.
  unfold mbind at 1, M_bind at 1. rewrite createDNAHelix_empty.
  reflexivity.
Qed.

(** The calls around the build leave the configuration alone. *)
Lemma whole_turns_config (st st' : State) :
  config st' = config st -> whole_turns st -> whole_turns st'.
Proof. unfold whole_turns. intros ->. tauto. Qed.

Lemma config_cleared (st : State) : config (cleared st) = config st.
Proof. unfold cleared. destruct (dnaGroup st); reflexivity. Qed.

Lemma whole_turns_cleared (st : State) :
  whole_turns st -> whole_turns (cleared st).
Proof. apply whole_turns_config, config_cleared. Qed.

Lemma rebuildDNA_objects (segs : list Segment) (st : State) :
  segs <> [] ->
  forallb renderable segs = true ->
  whole_turns st ->
  rebuildDNA (map EObject segs) st
  = (shown (helix_state (cleared st) segs) (helix_group (cleared st) segs),
     Return (helix_group (cleared st) segs)).
Proof.
  intros Hne Hok Hwhole. unfold rebuildDNA. unfold mbind at 1, M_bind at 1.
  rewrite clearScene_cleared.
  unfold mbind at 1, M_bind at 1.
  rewrite (createDNAHelix_objects segs _ Hne Hok (whole_turns_cleared _ Hwhole)).
  reflexivity.
Qed.

(** What passes a filter over the fields of the entries is a list of
    objects that satisfy its predicate. *)
Lemma array_filter_returns (p : Segment -> bool) (items data : list entry) :
  array_filter (fun e => s ← fields e; Return (p s)) items = Return data ->
  exists segs : list Segment,
    data = map EObject segs /\ forallb p segs = true.
Proof.
  revert data. induction items as [|e items IH]; intros data Hrun.
  - injection Hrun as <-. exists []. split; reflexivity.
  - cbn [array_filter] in Hrun.
    destruct e as [|s]; [discriminate|]. cbn in Hrun.
    destruct (array_filter _ items) as [rest|] eqn:Erest; [|discriminate].
    destruct (IH rest eq_refl) as (segs & -> & Hall).
    cbn in Hrun. destruct (p s) eqn:Eps; injection Hrun as <-.
    + exists (s :: segs). cbn. rewrite Eps, Hall. split; reflexivity.
    + exists segs. split; [reflexivity|exact Hall].
Qed.

Lemma validateData_returns (raw : json) (data : list entry) :
  validateData raw = Return data ->
  exists segs : list Segment,
    data = map EObject segs /\ forallb valid_segment segs = true.
Proof.
  destruct raw as [|items|]; cbn [validateData].
  - intros [= <-]. exists []. split; reflexivity.
  - apply array_filter_returns.
  - intros [= <-]. exists []. split; reflexivity.
Qed.

Lemma valid_segment_renderable (s : Segment) :
  valid_segment s = true -> renderable s = true.
Proof.
  unfold valid_segment, renderable, truthy.
  destruct (segment_type s), (pct_change s); cbn [defined andb];
    rewrite ?andb_false_r; intros H; try reflexivity; discriminate.
Qed.

Lemma forallb_filter_keeps {A : Type} (p q : A -> bool) (l : list A) :
  forallb p l = true -> forallb p (List.filter q l) = true.
Proof.
  induction l as [|a l IH]; [reflexivity|].
  cbn [forallb List.filter]. intros H. apply andb_prop in H as [Ha Hl].
  destruct (q a); cbn [forallb]; rewrite ?Ha; auto.
Qed.

Lemma forallb_impl {A : Type} (p q : A -> bool) (l : list A) :
  (forall a, p a = true -> q a = true) ->
  forallb p l = true -> forallb q l = true.
Proof.
  intros Hpq. induction l as [|a l IH]; [reflexivity|].
  cbn [forallb]. intros H. apply andb_prop in H as [Ha Hl].
  rewrite (Hpq a Ha), (IH Hl). reflexivity.
Qed.

(** C1, as stated, fails: the group built from no segments has no backbone
    tube, let alone two. *)
Lemma createDNAHelix_empty_no_backbones :
  ~ (exists (st' : State) (g : Group),
       createDNAHelix [] fresh = (st', Return g)
       /\ length (rungs g) = 0%nat
       /\ length (backbones g) = 2%nat).
Proof.
  intros (st' & g & Hrun & _ & Htubes).
  rewrite createDNAHelix_empty in Hrun.
  injection Hrun as _ <-. cbn in Htubes. discriminate.
Qed.

(** C1 (amended).  For the empty segment list [createDNAHelix] returns,
    without throwing, an empty group: it has no child at all, so no rung
    connector and no backbone tube. *)
Theorem createDNAHelix_empty_group (st : State) :
  exists (st' : State) (g : Group),
    createDNAHelix [] st = (st', Return g)
    /\ children g = []
    /\ rungs g = []
    /\ backbones g = [].
Proof.
  exists (empty_state st), (empty_group st).
  rewrite createDNAHelix_empty. repeat split; reflexivity.
Qed.

(** C2, as stated, fails: a load whose validated list is empty renders
    nothing; it answers [null] and leaves the visualiser as it was. *)
Lemma loadFromText_empty_renders_nothing :
  validateData (JArray []) = Return []
  /\ ~ (exists (st' : State) (g : Group),
          loadFromText (Return (JArray [])) fresh = (st', Return (Some g)))
  /\ loadFromText (Return (JArray [])) fresh = (fresh, Return None).
Proof.
  split; [reflexivity|]. split; [|reflexivity].
  intros (st' & g & Hrun). discriminate Hrun.
Qed.

(** C2 (amended).  A load whose validated segment list is empty returns
    [null] and changes nothing: the scene, the current group and the last
    loaded data stay as they were.  An empty group is rendered when the
    validated list is not empty but no segment of it has the selected
    type. *)
Theorem loadFromText_empty :
  (forall (raw : json) (st : State),
      validateData raw = Return [] ->
      loadFromText (Return raw) st = (st, Return None))
  /\ (forall (raw : json) (data : list entry) (st : State),
        validateData raw = Return data ->
        data <> [] ->
        filterSegmentsByType data (selectedType st) = Return [] ->
        exists (st' : State) (g : Group),
          loadFromText (Return raw) st = (st', Return (Some g))
          /\ children g = []
          /\ In g (scene st')
          /\ lastLoadedData st' = Some data).
Proof.
  split.
  - intros raw st Hvalid. destruct raw as [|items|]; try reflexivity.
    unfold loadFromText. run. rewrite Hvalid. reflexivity.
  - intros raw data st Hvalid Hne Hfilter.
    destruct raw as [|items|]; try (injection Hvalid as <-; contradiction).
    exists (shown (empty_state (cleared (loaded st data)))
                  (empty_group (cleared (loaded st data)))),
           (empty_group (cleared (loaded st data))).
    split; [|split; [reflexivity|split]].
    + unfold loadFromText. run. rewrite Hvalid.
      destruct data as [|e data]; [contradiction|].
      cbn [length Nat.eqb selectedType]. rewrite Hfilter.
      fold (loaded st (e :: data)). rewrite rebuildDNA_empty. reflexivity.
    + cbn [shown scene scene_add]. apply in_or_app. right. left. reflexivity.
    + unfold cleared. cbn [loaded dnaGroup].
      destruct (dnaGroup st); reflexivity.
Qed.

Lemma loadFromText_empty_witness :
  (validateData JOther = Return []
   /\ loadFromText (Return JOther) fresh = (fresh, Return None))
  /\ (validateData (JArray [EObject (segment "negative" 3 5 110 99 (-10))])
      = Return [EObject (segment "negative" 3 5 110 99 (-10))]
      /\ [EObject (segment "negative" 3 5 110 99 (-10))] <> []
      /\ filterSegmentsByType [EObject (segment "negative" 3 5 110 99 (-10))]
           (selectedType fresh) = Return []
      /\ exists (st' : State) (g : Group),
           loadFromText
             (Return (JArray [EObject (segment "negative" 3 5 110 99 (-10))]))
             fresh = (st', Return (Some g))
           /\ children g = []
           /\ In g (scene st')
           /\ lastLoadedData st'
              = Some [EObject (segment "negative" 3 5 110 99 (-10))]).
Proof.
  split.
  - split; [reflexivity|].
    apply (proj1 loadFromText_empty JOther fresh). reflexivity.
  - split; [reflexivity|]. split; [discriminate|]. split; [reflexivity|].
    apply (proj2 loadFromText_empty
             (JArray [EObject (segment "negative" 3 5 110 99 (-10))])
             [EObject (segment "negative" 3 5 110 99 (-10))] fresh).
    + reflexivity.
    + discriminate.
    + reflexivity.
Defined.

Lemma rungs_helix_group (st : State) (segs : list Segment) :
  rungs (helix_group st segs)
  = helix_rungs (helixRadius (config st)) (helixTurns (config st)) 200
      (length segs) 0 segs.
Proof.
  unfold rungs, helix_group. cbn [children List.filter].
  change (is_rung (backbone1 _)) with false.
  change (is_rung (backbone2 _)) with false.
  cbv iota. apply rungs_of_blocks.
Qed.

(** Only [setSelectedType] changes the selected type: every other method
    leaves it as it finds it, whatever it is given and whether or not it
    throws. *)
Lemma add_segment_selectedType (radius turns height : R) (n i : nat)
    (e : entry) (st : State) :
  selectedType (fst (add_segment radius turns height n i e st))
  = selectedType st.
Proof.
  unfold add_segment. run. destruct e as [|s]; [reflexivity|]. cbn [fields].
  destruct (segment_type s), (pct_change s) as [p|]; try reflexivity.
  destruct (Rlt_dec 5 (Rabs p)); [destruct (Rlt_dec 8 (Rabs p))|];
    reflexivity.
Qed.

Lemma add_segments_selectedType (radius turns height : R) (n : nat)
    (data : list entry) :
  forall (i : nat) (st : State),
    selectedType (fst (add_segments radius turns height n i data st))
    = selectedType st.
Proof.
  induction data as [|e data IH]; intros i st; [reflexivity|].
  cbn [add_segments]. unfold mbind at 1, M_bind at 1.
  pose proof (add_segment_selectedType radius turns height n i e st) as He.
  destruct (add_segment radius turns height n i e st) as [st1 [added|err]];
    cbn [fst] in He; [|exact He].
  unfold mbind at 1, M_bind at 1.
  pose proof (IH (S i) st1) as Hrest.
  destruct (add_segments radius turns height n (S i) data st1)
    as [st2 [more|err]]; unfold mret, M_ret; cbn [fst] in Hrest |- *;
    congruence.
Qed.

Lemma createDNAHelix_selectedType (data : list entry) (st : State) :
  selectedType (fst (createDNAHelix data st)) = selectedType st.
Proof.
  unfold createDNAHelix. run.
  destruct (Nat.eqb (length data) 0); [reflexivity|].
  tubes; try reflexivity.
  match goal with
  | |- context [add_segments ?r ?t ?h ?n ?i data ?s] =>
      pose proof (add_segments_selectedType r t h n data i s) as Hloop;
      destruct (add_segments r t h n i data s) as [st1 [ms|err]]
  end; cbn [fst selectedType] in Hloop |- *; exact Hloop.
Qed.

Lemma rebuildDNA_selectedType (data : list entry) (st : State) :
  selectedType (fst (rebuildDNA data st)) = selectedType st.
Proof.
  unfold rebuildDNA. unfold mbind at 1, M_bind at 1.
  rewrite clearScene_cleared. unfold mbind at 1, M_bind at 1.
  pose proof (createDNAHelix_selectedType data (cleared st)) as Hbuild.
  assert (Hclear : selectedType (cleared st) = selectedType st)
    by (unfold cleared; destruct (dnaGroup st); reflexivity).
  destruct (createDNAHelix data (cleared st)) as [st1 [g|err]];
    cbn [fst] in Hbuild; run; cbn [fst selectedType]; congruence.
Qed.

Lemma methods_keep_selectedType (st : State) :
  (forall key value, selectedType (fst (setConfig key value st)) = selectedType st)
  /\ (forall key, fst (getConfig key st) = st)
  /\ fst (getSelectedType st) = st
  /\ selectedType (fst (clearScene st)) = selectedType st
  /\ (forall data, selectedType (fst (createDNAHelix data st)) = selectedType st)
  /\ (forall data, selectedType (fst (rebuildDNA data st)) = selectedType st)
  /\ (forall parsed, selectedType (fst (loadFromText parsed st)) = selectedType st)
  /\ selectedType (fst (updateVisualization st)) = selectedType st
  /\ (forall data, fst (calculateStats data st) = st)
  /\ fst (getDNAGroup st) = st
  /\ fst (getLastLoadedData st) = st.
Proof.
  repeat split; try reflexivity.
  - intros key value. unfold setConfig. run.
    repeat match goal with
           | |- context [if ?b then _ else _] => destruct b
           end; reflexivity.
  - rewrite clearScene_cleared. unfold cleared.
    destruct (dnaGroup st); reflexivity.
  - intros data. apply createDNAHelix_selectedType.
  - intros data. apply rebuildDNA_selectedType.
  - intros parsed. unfold loadFromText.
    destruct parsed as [[|items|]|err]; try reflexivity; run;
      (destruct (validateData _) as [data|err]; [|reflexivity]);
      (destruct (Nat.eqb (length data) 0); [reflexivity|]);
      cbn [selectedType];
      (destruct (filterSegmentsByType data (selectedType st))
         as [filtered|err]; [|reflexivity]);
      match goal with
      | |- context [rebuildDNA filtered ?s] =>
          pose proof (rebuildDNA_selectedType filtered s) as Hbuild;
          destruct (rebuildDNA filtered s) as [st1 [g|err]]
      end; exact Hbuild.
  - unfold updateVisualization. run.
    destruct (lastLoadedData st) as [data|]; [|reflexivity].
    destruct (filterSegmentsByType data (selectedType st)) as [filtered|err];
      [|reflexivity].
    pose proof (rebuildDNA_selectedType filtered st) as Hbuild.
    destruct (rebuildDNA filtered st) as [st1 [g|err]]; exact Hbuild.
  - intros data. unfold calculateStats. run.
    destruct (match data with Some d => Some d | None => lastLoadedData st end)
      as [d|]; [|reflexivity].
    destruct (Nat.eqb (length d) 0); [reflexivity|].
    destruct (tally d ∅ (Some 0)); reflexivity.
Qed.

(** C10.  A new visualiser selects the type ["optimal"], not ["all"], and
    only [setSelectedType] changes the selection; its configuration has 15
    turns, with which the backbones can be built.  With that selection,
    [loadFromText] builds the helix from the validated segments whose
    [segment_type] is ["optimal"] and from no other, with one rung for each
    of them in their order, while [getLastLoadedData] answers the whole
    validated list. *)
Theorem loadFromText_default_filter :
  (forall (scene0 : list Group) (ids : nat) (entropy0 : nat -> R) (drawn0 : nat),
      selectedType (constructor scene0 ids entropy0 drawn0) = "optimal"
      /\ whole_turns (constructor scene0 ids entropy0 drawn0))
  /\ (forall (st : State) (raw : json) (data : list entry),
        selectedType st = "optimal" ->
        whole_turns st ->
        validateData raw = Return data ->
        data <> [] ->
        exists (segs optimal : list Segment) (st' : State) (g : Group),
          data = map EObject segs
          /\ exact_match "optimal" segs optimal
          /\ loadFromText (Return raw) st = (st', Return (Some g))
          /\ snd (createDNAHelix (map EObject optimal)
                    (cleared (loaded st data)))
             = Return g
          /\ rungs g
             = helix_rungs (helixRadius (config st)) (helixTurns (config st))
                 200 (length optimal) 0 optimal
          /\ length (rungs g) = length optimal
          /\ getLastLoadedData st' = (st', Return (Some data))).
Proof.
  split.
  { intros. split; [reflexivity|]. exists 480%Z. split; [lia|cbn; lra]. }
  intros st raw data Hsel Hwhole Hvalid Hne.
  destruct (validateData_returns raw data Hvalid) as (segs & -> & Hall).
  exists segs, (List.filter (type_is "optimal") segs).
  assert (Hrender : forallb renderable (List.filter (type_is "optimal") segs)
                    = true).
  { apply forallb_filter_keeps.
    exact (forallb_impl _ _ _ valid_segment_renderable Hall). }
  pose proof (exact_match_filter "optimal" segs) as Hmatch.
  set (optimal := List.filter (type_is "optimal") segs) in *.
  assert (Hload :
    loadFromText (Return raw) st
    = match rebuildDNA (map EObject optimal) (loaded st (map EObject segs)) with
      | (st', Return dna) => (st', Return (Some dna))
      | (st', Throws e) => (st', Throws e)
      end).
  { destruct raw as [|items|];
      try (injection Hvalid as Hnil; destruct segs; [contradiction|discriminate]).
    unfold loadFromText. run. rewrite Hvalid.
    destruct segs as [|s segs]; [contradiction|].
    cbn [map length Nat.eqb].
    change (EObject s :: map EObject segs) with (map EObject (s :: segs)).
    cbn [selectedType]. unfold loaded. rewrite !Hsel.
    unfold filterSegmentsByType. cbn [String.eqb Ascii.eqb Bool.eqb].
    rewrite array_filter_objects. reflexivity. }
  assert (Hkept : lastLoadedData (cleared (loaded st (map EObject segs)))
                  = Some (map EObject segs))
    by (unfold cleared; cbn [loaded dnaGroup]; destruct (dnaGroup st);
        reflexivity).
  assert (Hwhole' : whole_turns (loaded st (map EObject segs))) by exact Hwhole.
  assert (Hconfig : config (cleared (loaded st (map EObject segs))) = config st)
    by (rewrite config_cleared; reflexivity).
  destruct optimal as [|o optimal'] eqn:Eopt.
  - eexists _, _. split; [reflexivity|]. split; [exact Hmatch|].
    rewrite Hload, rebuildDNA_empty. cbn [map].
    rewrite createDNAHelix_empty.
    split; [reflexivity|]. split; [reflexivity|]. split; [reflexivity|].
    split; [reflexivity|].
    unfold getLastLoadedData. run. cbn [shown empty_state lastLoadedData].
    rewrite Hkept. reflexivity.
  - eexists _, _. split; [reflexivity|]. split; [exact Hmatch|].
    rewrite Hload,
      (rebuildDNA_objects (o :: optimal') _ ltac:(discriminate) Hrender Hwhole').
    rewrite (createDNAHelix_objects (o :: optimal') _ ltac:(discriminate)
               Hrender (whole_turns_cleared _ Hwhole')).
    split; [reflexivity|]. split; [reflexivity|].
    rewrite rungs_helix_group, Hconfig. split; [reflexivity|]. split.
    + apply helix_rungs_length. exact Hrender.
    + unfold getLastLoadedData. run. cbn [shown helix_state lastLoadedData].
      rewrite Hkept. reflexivity.
Qed.

Lemma loadFromText_default_filter_witness :
  selectedType fresh = "optimal"
  /\ whole_turns fresh
  /\ validateData (JArray (map EObject sample)) = Return (map EObject sample)
  /\ map EObject sample <> []
  /\ exists (st' : State) (g : Group),
       loadFromText (Return (JArray (map EObject sample))) fresh
       = (st', Return (Some g))
       /\ snd (createDNAHelix
                 (map EObject [segment "optimal" 0 10 100 110 10;
                               segment "optimal" 12 15 99 104 5])
                 (cleared (loaded fresh (map EObject sample))))
          = Return g
       /\ length (rungs g) = 2%nat
       /\ getLastLoadedData st' = (st', Return (Some (map EObject sample))).
Proof.
  split; [reflexivity|]. split; [exact whole_turns_fresh|].
  split; [reflexivity|]. split; [discriminate|].
  destruct (proj2 loadFromText_default_filter fresh
              (JArray (map EObject sample)) (map EObject sample)
              eq_refl whole_turns_fresh eq_refl ltac:(discriminate))
    as (segs & optimal & st' & g & Hsegs & Hmatch & Hload & Hbuild & _
        & Hlen & Hdata).
  assert (segs = sample) as ->.
  { clear -Hsegs. revert Hsegs. generalize sample. intros l.
    revert segs. induction l as [|a l IH]; intros [|b segs]; cbn;
      intros H; try discriminate; [reflexivity|].
    injection H as -> H. f_equal. apply IH. exact H. }
  assert (optimal = [segment "optimal" 0 10 100 110 10;
                     segment "optimal" 12 15 99 104 5]) as ->.
  { apply (exact_match_functional "optimal" sample); [exact Hmatch|].
    apply exact_match_keep; [reflexivity|].
    apply exact_match_drop; [discriminate|].
    apply exact_match_keep; [reflexivity|].
    apply exact_match_drop; [discriminate|].
    constructor. }
  exists st', g. split; [exact Hload|]. split; [exact Hbuild|].
  split; [exact Hlen|exact Hdata].
Defined.

End Loading.

(** ** Rungs and pulse effects *)

Section Rungs.

Import THREE DNAVisualizer Spec.
Local Open Scope R_scope.







(** What the loop adds for one segment with change [p]: its rung, then as
    many pulse spheres as the change calls for. *)
Lemma effect_meshes_count (ent : nat -> R) (d : nat) (at_ : Vector3)
    (color : property Z) (p : R) :
  length (effect_meshes ent d at_ color p) = expected_pulses p
  /\ (5 < Rabs p <= 8 ->
      exists pulse : Mesh,
        effect_meshes ent d at_ color p = [pulse]
        /\ geometry pulse = SphereGeometry (0.8 + Rabs p * 0.05) 16 16).
Proof.
  unfold effect_meshes, expected_pulses.
  destruct (Rlt_dec 5 (Rabs p)) as [H5|H5];
    [destruct (Rlt_dec 8 (Rabs p)) as [H8|H8]|];
    destruct (Rle_dec (Rabs p) 5) as [L5|L5]; try lra;
    try (destruct (Rle_dec (Rabs p) 8) as [L8|L8]; try lra);
    (split; [reflexivity|]); intros [Hlo Hhi]; try lra.
  eexists. split; reflexivity.
Qed.

Lemma helix_blocks_shape (radius turns height : R) (ent : nat -> R)
    (numSegments : nat) (segs : list Segment) :
  forallb renderable segs = true ->
  forall i d : nat,
    Forall2
      (fun (s : Segment) (block : list Mesh) =>
         exists (p : R) (rung : Mesh) (effects : list Mesh),
           pct_change s = Some p
           /\ block = rung :: effects
           /\ is_rung rung = true
           /\ forallb is_pulse effects = true
           /\ length effects = expected_pulses p
           /\ (5 < Rabs p <= 8 ->
               exists pulse : Mesh,
                 effects = [pulse]
                 /\ geometry pulse = SphereGeometry (0.8 + Rabs p * 0.05) 16 16))
      segs (helix_blocks radius turns height ent numSegments i d segs).
Proof.
  induction segs as [|s segs IH]; intros Hok i d; [constructor|].
  cbn [forallb] in Hok. apply andb_prop in Hok as [Hs Hrest].
  unfold renderable in Hs. cbn [helix_blocks].
  destruct (segment_type s) as [type|]; [|discriminate].
  destruct (pct_change s) as [p|] eqn:Ep; [|discriminate].
  constructor; [|apply IH; exact Hrest].
  eexists p, _, _. split; [exact Ep|]. split; [reflexivity|].
  split; [reflexivity|]. split; [apply effect_meshes_pulses|].
  apply effect_meshes_count.
Qed.

(** C6.  The children of the helix built from validated segments are the two
    backbones followed by one block per segment, in order: the rung of the
    segment and then its pulse spheres, none when [|pctChange| <= 5], one of
    radius [0.8 + |pctChange| * 0.05] when [5 < |pctChange| <= 8], two when
    [|pctChange| > 8].  The helix is built when 32 times the turns is a
    positive whole number. *)
Theorem pulse_effects_per_segment (st : State) (segs : list Segment) :
  whole_turns st ->
  forallb valid_segment segs = true ->
  segs <> [] ->
  exists (st' : State) (g : Group) (b1 b2 : Mesh) (blocks : list (list Mesh)),
    createDNAHelix (map EObject segs) st = (st', Return g)
    /\ children g = b1 :: b2 :: concat blocks
    /\ is_backbone b1 = true
    /\ is_backbone b2 = true
    /\ Forall2
         (fun (s : Segment) (block : list Mesh) =>
            exists (p : R) (rung : Mesh) (effects : list Mesh),
              pct_change s = Some p
              /\ block = rung :: effects
              /\ is_rung rung = true
              /\ forallb is_pulse effects = true
              /\ length effects = expected_pulses p
              /\ (5 < Rabs p <= 8 ->
                  exists pulse : Mesh,
                    effects = [pulse]
                    /\ geometry pulse
                       = SphereGeometry (0.8 + Rabs p * 0.05) 16 16))
         segs blocks.
Proof.
  intros Hwhole Hvalid Hne.
  assert (Hrender : forallb renderable segs = true)
    by exact (forallb_impl _ _ _ valid_segment_renderable Hvalid).
  eexists (helix_state st segs), (helix_group st segs), _, _, _.
  split; [exact (createDNAHelix_objects segs st Hne Hrender Hwhole)|].
  split; [reflexivity|]. split; [reflexivity|]. split; [reflexivity|].
  apply helix_blocks_shape. exact Hrender.
Qed.

Lemma pulse_effects_per_segment_witness :
  whole_turns fresh
  /\ forallb valid_segment sample = true
  /\ sample <> []
  /\ exists (st' : State) (g : Group) (b1 b2 : Mesh) (blocks : list (list Mesh)),
       createDNAHelix (map EObject sample) fresh = (st', Return g)
       /\ children g = b1 :: b2 :: concat blocks
       /\ is_backbone b1 = true
       /\ is_backbone b2 = true
       /\ Forall2
            (fun (s : Segment) (block : list Mesh) =>
               exists (p : R) (rung : Mesh) (effects : list Mesh),
                 pct_change s = Some p
                 /\ block = rung :: effects
                 /\ is_rung rung = true
                 /\ forallb is_pulse effects = true
                 /\ length effects = expected_pulses p
                 /\ (5 < Rabs p <= 8 ->
                     exists pulse : Mesh,
                       effects = [pulse]
                       /\ geometry pulse
                          = SphereGeometry (0.8 + Rabs p * 0.05) 16 16))
            sample blocks.
Proof.
  split; [exact whole_turns_fresh|].
  split; [reflexivity|]. split; [discriminate|].
  apply (pulse_effects_per_segment fresh sample);
    [exact whole_turns_fresh|reflexivity|discriminate].
Defined.

(** In all, the helix has as many pulse spheres as the changes of its
    segments call for. *)
Lemma pulses_of_blocks (radius turns height : R) (ent : nat -> R)
    (numSegments : nat) (segs : list Segment) :
  forallb renderable segs = true ->
  forall i d : nat,
    length (List.filter is_pulse
              (concat (helix_blocks radius turns height ent numSegments i d segs)))
    = list_sum (map expected_pulses (changes segs)).
Proof.
  induction segs as [|s segs IH]; intros Hok i d; [reflexivity|].
  cbn [forallb] in Hok. apply andb_prop in Hok as [Hs Hrest].
  unfold renderable in Hs. cbn [helix_blocks]. unfold changes. cbn.
  destruct (segment_type s) as [type|]; [|discriminate].
  destruct (pct_change s) as [p|]; [|discriminate].
  cbn [concat app List.filter map list_sum].
  change (is_pulse (segment_rung _ _ _ _ _ _ _ _)) with false. cbv iota.
  rewrite List.filter_app, length_app, (IH Hrest).
  rewrite (forallb_filter_id is_pulse _ (effect_meshes_pulses _ _ _ _ _)).
  rewrite (proj1 (effect_meshes_count _ _ _ _ _)). reflexivity.
Qed.

Lemma pulses_helix_group (st : State) (segs : list Segment) :
  forallb renderable segs = true ->
  length (pulses (helix_group st segs))
  = list_sum (map expected_pulses (changes segs)).
Proof.
  intros Hok. unfold pulses, helix_group. cbn [children List.filter].
  change (is_pulse (backbone1 _)) with false.
  change (is_pulse (backbone2 _)) with false.
  cbv iota. apply pulses_of_blocks. exact Hok.
Qed.

(** The first segment of the sample, ten units long with a change of 10
    percent: base radius 0.6, scale factor 1.5, rung radius 0.9. *)
Example rung_radius_sample :
  rung_radius 10 (scale_factor (segment_length (Some 0%Z) (Some 10%Z)))
  = Some 0.9.
Proof.
  cbn [segment_length scale_factor rung_radius]. f_equal.
  change (Z.max 1 (10 - 0)) with 10%Z.
  unfold base_width, log_ratio, Math_min.
  assert (Hln : 0 < ln 10) by (rewrite <- ln_1; apply ln_increasing; lra).
  replace (ln 10 / ln 10) with 1 by (field; lra).
  rewrite Rabs_right by lra.
  rewrite (Rmin_right 0.5) by lra. rewrite Rmin_left by lra. lra.
Qed.

(** A change of 10 percent is above 8: the segment gets two pulse spheres. *)
Example expected_pulses_10 : expected_pulses 10 = 2%nat.
Proof.
  unfold expected_pulses. rewrite Rabs_right by lra.
  destruct (Rle_dec 10 5); [lra|]. destruct (Rle_dec 10 8); [lra|]. reflexivity.
Qed.

End Rungs.

(** ** Backbones *)

Section Backbones.

Import THREE DNAVisualizer Spec.
Local Open Scope R_scope.

Lemma up_INR (n : nat) : up (INR n) = (Z.of_nat n + 1)%Z.
Proof.
  symmetry. apply tech_up; rewrite plus_IZR, <- INR_IZR_INZ; lra.
Qed.

(** With a whole number of turns the loop takes [turns * 32 + 1] samples. *)
Lemma backbone_samples_whole (radius height : R) (n : nat) :
  backbone_samples radius (INR n) height (INR n * 32)
  = map (backbone_sample radius (INR n) height (INR n * 32))
        (seq 0 (n * 32 + 1)).
Proof.
  unfold backbone_samples. do 2 f_equal.
  replace (INR n * 32) with (INR (n * 32)).
  - rewrite up_INR. lia.
  - rewrite mult_INR. f_equal. cbn. lra.
Qed.

(** The sampling of the backbones, as the code does it: the turns, the
    radius and the thickness come from the configuration, the height is 200
    and there are 32 points per turn. *)
Lemma backbone_sampling (st : State) (segs : list Segment) (n : nat) :
  helixTurns (config st) = INR n ->
  (0 < n)%nat ->
  segs <> [] ->
  forallb valid_segment segs = true ->
  exists (st' : State) (g : Group) (b1 b2 : Mesh) (rest : list Mesh),
    createDNAHelix (map EObject segs) st = (st', Return g)
    /\ children g = b1 :: b2 :: rest
    /\ geometry b1
       = TubeGeometry
           (map (fun i : nat =>
                   let t := INR i / (INR n * 32) in
                   mkVector3
                     (helixRadius (config st) * cos (2 * PI * INR n * t))
                     (200 * (0.5 - t))
                     (helixRadius (config st) * sin (2 * PI * INR n * t)))
                (seq 0 (n * 32 + 1)))
           (INR n * 32) (backboneThickness (config st)) 8 false
    /\ geometry b2
       = TubeGeometry
           (map (fun i : nat =>
                   let t := INR i / (INR n * 32) in
                   mkVector3
                     (helixRadius (config st) * cos (2 * PI * INR n * t + PI))
                     (200 * (0.5 - t))
                     (helixRadius (config st) * sin (2 * PI * INR n * t + PI)))
                (seq 0 (n * 32 + 1)))
           (INR n * 32) (backboneThickness (config st)) 8 false.
Proof.
  intros Hturns Hn Hne Hvalid.
  assert (Hrender : forallb renderable segs = true)
    by exact (forallb_impl _ _ _ valid_segment_renderable Hvalid).
  assert (Hwhole : whole_turns st).
  { exists (Z.of_nat n * 32)%Z. split; [lia|].
    rewrite Hturns, mult_IZR, <- INR_IZR_INZ. reflexivity. }
  eexists _, _, _, _, _.
  split; [exact (createDNAHelix_objects segs st Hne Hrender Hwhole)|].
  split; [reflexivity|].
  unfold backbone1, backbone2. cbn [geometry].
  rewrite Hturns, backbone_samples_whole, !map_map.
  split; reflexivity.
Qed.

(** [createDNAHelix] does not read [config.height] and
    [config.pointsPerTurn]: setting either leaves the next helix as it
    would have been. *)
Lemma createDNAHelix_height_unread (st : State) (segs : list Segment)
    (value : R) :
  whole_turns st ->
  segs <> [] ->
  forallb valid_segment segs = true ->
  snd (createDNAHelix (map EObject segs) (fst (setConfig "height" value st)))
  = snd (createDNAHelix (map EObject segs) st)
  /\ snd (createDNAHelix (map EObject segs)
            (fst (setConfig "pointsPerTurn" value st)))
     = snd (createDNAHelix (map EObject segs) st).
Proof.
  intros Hwhole Hne Hvalid.
  assert (Hrender : forallb renderable segs = true)
    by exact (forallb_impl _ _ _ valid_segment_renderable Hvalid).
  rewrite (createDNAHelix_objects segs st Hne Hrender Hwhole).
  rewrite !(createDNAHelix_objects segs _ Hne Hrender); [split; reflexivity| |];
    exact Hwhole.
Qed.

Lemma up_480 : up (15 * 32) = 481%Z.
Proof. symmetry. apply tech_up; lra. Qed.

(** C3 fails on the code.  After [setConfig("height", 100)] and
    [setConfig("pointsPerTurn", 8)] the configuration holds the new values,
    yet the helix built next is the one built before: its first backbone has
    [15 * 32 + 1 = 481] samples, not [15 * 8 + 1], and starts at
    [y = 200 * 0.5 = 100], not at [100 * 0.5]. *)
Theorem createDNAHelix_fixed_height_and_resolution :
  height (config retuned) = 100
  /\ pointsPerTurn (config retuned) = 8
  /\ helixTurns (config retuned) = 15
  /\ exists (st' : State) (g : Group) (b1 : Mesh) (rest : list Mesh)
       (first : Vector3),
       createDNAHelix (map EObject sample) retuned = (st', Return g)
       /\ children g = b1 :: rest
       /\ length (tube_path b1) = 481%nat
       /\ tube_path b1 !! 0%nat = Some first
       /\ y first = 100
       /\ snd (createDNAHelix (map EObject sample) fresh) = Return g.
Proof.
  split; [reflexivity|]. split; [reflexivity|]. split; [reflexivity|].
  assert (Hrender : forallb renderable sample = true) by reflexivity.
  assert (Hne : sample <> []) by discriminate.
  assert (Hretuned : whole_turns retuned)
    by (exists 480%Z; split;
        [lia|change (helixTurns (config retuned)) with 15; lra]).
  eexists _, _, _, _, _.
  split; [exact (createDNAHelix_objects sample retuned Hne Hrender Hretuned)|].
  split; [reflexivity|].
  rewrite (createDNAHelix_objects sample fresh Hne Hrender whole_turns_fresh).
  unfold tube_path, backbone1. cbn [geometry].
  change (helixTurns (config retuned)) with 15.
  change (helixRadius (config retuned)) with 10.
  unfold backbone_samples. rewrite up_480.
  change (Z.to_nat 481) with (S 480). rewrite <- cons_seq.
  split; [rewrite !length_map; cbn [length]; rewrite length_seq; reflexivity|].
  split; [reflexivity|].
  split; [|reflexivity].
  cbn. lra.
Qed.

End Backbones.

(** ** Statistics *)

Section Statistics.

Import THREE DNAVisualizer Spec.
Local Open Scope R_scope.

(** *** Rounding to binary64 *)

Lemma ln2_pos : 0 < ln 2.
Proof. rewrite <- ln_1. apply ln_increasing; lra. Qed.

Lemma powerRZ_2_exp (k : Z) : powerRZ 2 k = exp (IZR k * ln 2).
Proof. rewrite powerRZ_Rpower by lra. reflexivity. Qed.

Lemma powerRZ_2_pos (k : Z) : 0 < powerRZ 2 k.
Proof. apply powerRZ_lt. lra. Qed.

Lemma powerRZ_2_lt (a b : Z) : (a < b)%Z -> powerRZ 2 a < powerRZ 2 b.
Proof.
  intros H. rewrite !powerRZ_2_exp. apply exp_increasing.
  apply Rmult_lt_compat_r; [exact ln2_pos|apply IZR_lt; exact H].
Qed.

Lemma powerRZ_2_le (a b : Z) : (a <= b)%Z -> powerRZ 2 a <= powerRZ 2 b.
Proof.
  intros H. destruct (Z.eq_dec a b) as [->|Hne]; [lra|].
  left. apply powerRZ_2_lt. lia.
Qed.

Lemma powerRZ_2_lt_inv (a b : Z) : powerRZ 2 a < powerRZ 2 b -> (a < b)%Z.
Proof.
  intros H. destruct (Z_lt_le_dec a b) as [Hlt|Hle]; [exact Hlt|].
  apply powerRZ_2_le in Hle. lra.
Qed.

Lemma powerRZ_2_IZR (k : Z) : (0 <= k)%Z -> powerRZ 2 k = IZR (2 ^ k).
Proof.
  intros Hk. destruct k as [|p|p]; [reflexivity| |lia].
  cbn [powerRZ]. rewrite pow_IZR. f_equal.
  rewrite positive_nat_Z. reflexivity.
Qed.

(** The binade of a positive number is the power of two at or below it. *)
Lemma binade_bounds (x : R) :
  0 < x -> powerRZ 2 (binade x) <= x < powerRZ 2 (binade x + 1).
Proof.
  intros Hx. unfold binade.
  destruct (base_Int_part (ln x / ln 2)) as [Hlo Hhi].
  set (b := Int_part (ln x / ln 2)) in *.
  pose proof ln2_pos as H2.
  assert (Hlog : ln x = ln x / ln 2 * ln 2) by (field; lra).
  rewrite !powerRZ_2_exp, plus_IZR.
  cut (exp (IZR b * ln 2) <= exp (ln x) < exp ((IZR b + 1) * ln 2));
    [rewrite (exp_ln x Hx); tauto|].
  split.
  - destruct Hlo as [Hlo|Hlo].
    + left. apply exp_increasing. rewrite Hlog at 1.
      apply Rmult_lt_compat_r; assumption.
    + right. f_equal. rewrite Hlog at 1. rewrite Hlo. reflexivity.
  - apply exp_increasing. rewrite Hlog at 1.
    apply Rmult_lt_compat_r; [assumption|lra].
Qed.

Lemma binade_eq (x : R) (k : Z) :
  powerRZ 2 k <= x < powerRZ 2 (k + 1) -> binade x = k.
Proof.
  intros [Hlo Hhi].
  assert (Hx : 0 < x) by (pose proof (powerRZ_2_pos k); lra).
  destruct (binade_bounds x Hx) as [Blo Bhi].
  assert (k < binade x + 1)%Z by (apply powerRZ_2_lt_inv; lra).
  assert (binade x < k + 1)%Z by (apply powerRZ_2_lt_inv; lra).
  lia.
Qed.

Lemma Int_part_IZR (n : Z) : Int_part (IZR n) = n.
Proof. symmetry. apply Int_part_spec. lra. Qed.

Lemma round_half_even_IZR (n : Z) : round_half_even (IZR n) = n.
Proof.
  unfold round_half_even. rewrite Int_part_IZR.
  destruct (Rlt_dec (IZR n - IZR n) (1 / 2)) as [_|H]; [reflexivity|lra].
Qed.

Lemma round_half_even_tie (n : Z) :
  round_half_even (IZR n + 1 / 2) = if Z.even n then n else (n + 1)%Z.
Proof.
  unfold round_half_even.
  assert (Int_part (IZR n + 1 / 2) = n) as ->
    by (symmetry; apply Int_part_spec; lra).
  destruct (Rlt_dec (IZR n + 1 / 2 - IZR n) (1 / 2)); [lra|].
  destruct (Rlt_dec (1 / 2) (IZR n + 1 / 2 - IZR n)); [lra|reflexivity].
Qed.

Lemma round_half_even_nonneg (x : R) : 0 <= x -> (0 <= round_half_even x)%Z.
Proof.
  intros Hx. unfold round_half_even.
  assert (0 <= Int_part x)%Z.
  { destruct (base_Int_part x) as [_ Hhi].
    assert (-1 < IZR (Int_part x)) by lra.
    apply lt_IZR in H. lia. }
  repeat match goal with
         | |- context [if ?b then _ else _] => destruct b
         end; lia.
Qed.

(** A binary64 number is not rounded. *)
Lemma round64_pos_fixed (m e : Z) :
  (0 < m < 2 ^ 53)%Z -> (-1074 <= e)%Z ->
  round64 (IZR m * powerRZ 2 e) = IZR m * powerRZ 2 e.
Proof.
  intros [Hm0 Hm] He.
  pose proof (powerRZ_2_pos e) as Hpe.
  assert (Hm0' : 0 < IZR m) by (apply IZR_lt; exact Hm0).
  set (x := IZR m * powerRZ 2 e).
  assert (Hx : 0 < x) by (unfold x; apply Rmult_lt_0_compat; assumption).
  unfold round64.
  destruct (Req_dec_T x 0) as [H0|_]; [lra|].
  destruct (Rlt_dec x 0) as [Hneg|_]; [lra|].
  unfold quantum. rewrite (Rabs_right x) by lra.
  destruct (binade_bounds x Hx) as [Blo Bhi].
  set (b := binade x) in *.
  assert (Hb : (b <= e + 52)%Z).
  { assert (powerRZ 2 b < powerRZ 2 (e + 53)).
    { eapply Rle_lt_trans; [exact Blo|]. unfold x.
      rewrite powerRZ_add by lra. rewrite Rmult_comm.
      apply Rmult_lt_compat_l; [exact Hpe|].
      rewrite (powerRZ_2_IZR 53) by lia. apply IZR_lt. exact Hm. }
    apply powerRZ_2_lt_inv in H. lia. }
  set (E := Z.max b (-1022)).
  assert (HE : (0 <= e - (E - 52))%Z) by (unfold E; lia).
  assert (Hq : x / powerRZ 2 (E - 52) = IZR (m * 2 ^ (e - (E - 52)))).
  { rewrite mult_IZR, <- (powerRZ_2_IZR _ HE). unfold x.
    replace e with ((e - (E - 52)) + (E - 52))%Z at 1 by lia.
    rewrite powerRZ_add by lra. field.
    pose proof (powerRZ_2_pos (E - 52)). lra. }
  rewrite Hq, round_half_even_IZR, <- Hq. field.
  pose proof (powerRZ_2_pos (E - 52)). lra.
Qed.

Lemma round64_0 : round64 0 = 0.
Proof. unfold round64. destruct (Req_dec_T 0 0); [reflexivity|lra]. Qed.

Lemma round64_IZR (m : Z) : (0 <= m < 2 ^ 53)%Z -> round64 (IZR m) = IZR m.
Proof.
  intros [H0 Hm]. destruct (Z.eq_dec m 0) as [->|Hne]; [apply round64_0|].
  replace (IZR m) with (IZR m * powerRZ 2 0) by (cbn; lra).
  apply round64_pos_fixed; lia.
Qed.

(** Rounding a positive number whose binade is known. *)
Lemma round64_pos (x : R) (b : Z) :
  powerRZ 2 b <= x < powerRZ 2 (b + 1) ->
  round64 x
  = IZR (round_half_even (x / powerRZ 2 (Z.max b (-1022) - 52)))
    * powerRZ 2 (Z.max b (-1022) - 52).
Proof.
  intros Hb. assert (Hx : 0 < x) by (pose proof (powerRZ_2_pos b); lra).
  unfold round64, quantum.
  destruct (Req_dec_T x 0) as [H0|_]; [lra|].
  destruct (Rlt_dec x 0) as [Hneg|_]; [lra|].
  rewrite (Rabs_right x) by lra. rewrite (binade_eq x b Hb). reflexivity.
Qed.

Lemma round64_nonneg (x : R) : 0 <= x -> 0 <= round64 x.
Proof.
  intros Hx. unfold round64.
  destruct (Req_dec_T x 0) as [_|Hne]; [lra|].
  destruct (Rlt_dec x 0) as [Hneg|_]; [lra|].
  assert (Hq : 0 < quantum x) by apply powerRZ_2_pos.
  apply Rmult_le_pos; [|lra].
  apply IZR_le, round_half_even_nonneg.
  unfold Rdiv. apply Rmult_le_pos; [exact Hx|].
  left. apply Rinv_0_lt_compat. exact Hq.
Qed.

Lemma float_sum_from_nonneg (ps : list R) (a : R) :
  0 <= a ->
  0 <= fold_left (fun total p => round64 (total + Rabs p)) ps a.
Proof.
  revert a. induction ps as [|p ps IH]; intros a Ha; [exact Ha|].
  cbn [fold_left]. apply IH, round64_nonneg.
  pose proof (Rabs_pos p). lra.
Qed.

Lemma float_mean_nonneg (ps : list R) : 0 <= float_mean ps.
Proof.
  unfold float_mean. apply round64_nonneg.
  pose proof (float_sum_from_nonneg ps 0 (Rle_refl 0)) as Hsum.
  fold (float_sum ps) in Hsum.
  destruct ps as [|p ps].
  - cbn. unfold Rdiv. rewrite Rmult_0_l. lra.
  - unfold Rdiv. apply Rmult_le_pos; [exact Hsum|].
    left. apply Rinv_0_lt_compat. apply lt_0_INR. cbn. lia.
Qed.

(** *** Two decimals *)

Lemma two_digits_digits (r : Z) :
  (0 <= r < 100)%Z -> two_digits r = digit (r / 10) +:+ digit (r mod 10).
Proof.
  intros Hr.
  assert (exists k : nat, r = Z.of_nat k /\ (k < 100)%nat) as (k & -> & Hk)
    by (exists (Z.to_nat r); lia).
  do 100 (destruct k as [|k]; [vm_compute; reflexivity|]). lia.
Qed.

Lemma toFixed2_hundredths (x : R) :
  0 <= x < 10 ^ 21 -> toFixed2 x = hundredths (Int_part (x * 100 + / 2)).
Proof.
  intros [H0 Hhi]. unfold toFixed2, toFixed2_magnitude, hundredths.
  destruct (Rlt_dec x 0) as [Hneg|_]; [lra|].
  destruct (Rle_dec (10 ^ 21) x) as [Hbig|_]; [lra|].
  set (n := Int_part (x * 100 + / 2)).
  assert (Hn : (0 <= n)%Z).
  { destruct (base_Int_part (x * 100 + / 2)) as [_ Hup]. fold n in Hup.
    assert (-1 < IZR n) by lra. apply lt_IZR in H. lia. }
  rewrite two_digits_digits by (apply Z.mod_pos_bound; lia).
  assert (E1 : ((n mod 100) / 10 = (n / 10) mod 10)%Z)
    by (Z.to_euclidean_division_equations; lia).
  assert (E2 : ((n mod 100) mod 10 = n mod 10)%Z)
    by (Z.to_euclidean_division_equations; lia).
  rewrite E1, E2. reflexivity.
Qed.

(** [toFixed(2)] writes a number below [10^21] with two decimals. *)
Lemma toFixed2_two_decimals (x : R) :
  0 <= x < 10 ^ 21 -> two_decimals x (toFixed2 x).
Proof.
  intros Hx. exists (Int_part (x * 100 + / 2)).
  split; [apply toFixed2_hundredths; exact Hx|].
  destruct (base_Int_part (x * 100 + / 2)) as [Hlo Hup].
  apply Rabs_le. lra.
Qed.

Lemma toFixed2_3 : toFixed2 3 = "3.00".
Proof.
  rewrite toFixed2_hundredths by lra.
  replace (Int_part (3 * 100 + / 2)) with 300%Z; [reflexivity|].
  apply Int_part_spec. lra.
Qed.

(** *** Numbers written with an exponent *)

Lemma round64_scaled (m e : Z) (n : Z) :
  (0 < m < 2 ^ 53)%Z -> (0 <= e)%Z -> n = (m * 2 ^ e)%Z ->
  round64 (IZR n) = IZR n.
Proof.
  intros Hm He ->. rewrite mult_IZR, <- powerRZ_2_IZR by exact He.
  apply round64_pos_fixed; lia.
Qed.

Lemma shortest_unfold (fuel : nat) (k n : Z) :
  shortest (S fuel) k n
  = let p := (decimal_length n - k)%Z in
    let lo := (n / 10 ^ p)%Z in
    let hi := (lo + 1)%Z in
    match rounds_to (lo * 10 ^ p) n, rounds_to (hi * 10 ^ p) n with
    | true, true =>
        if (n - lo * 10 ^ p <? hi * 10 ^ p - n)%Z then (lo, p)
        else if (hi * 10 ^ p - n <? n - lo * 10 ^ p)%Z then (hi, p)
        else if Z.even lo then (lo, p) else (hi, p)
    | true, false => (lo, p)
    | false, true => (hi, p)
    | false, false => shortest fuel (k + 1)%Z n
    end.
Proof. reflexivity. Qed.

Lemma significand_1e21 : significand (10 ^ 21) = (1, 21)%Z.
Proof.
  assert (Hlo : rounds_to (1 * 10 ^ 21) (10 ^ 21) = true).
  { unfold rounds_to.
    rewrite (round64_scaled 476837158203125 21) by (try lia; reflexivity).
    destruct (Req_dec_T _ _) as [_|Hne]; [reflexivity|].
    exfalso. apply Hne. reflexivity. }
  assert (Hhi : rounds_to (2 * 10 ^ 21) (10 ^ 21) = false).
  { unfold rounds_to.
    rewrite (round64_scaled 476837158203125 22) by (try lia; reflexivity).
    destruct (Req_dec_T _ _) as [Heq|_]; [|reflexivity].
    apply eq_IZR in Heq. discriminate Heq. }
  unfold significand. rewrite shortest_unfold. cbv zeta.
  replace (decimal_length (10 ^ 21)) with 22%Z by (vm_compute; reflexivity).
  change (22 - 1)%Z with 21%Z. change (10 ^ 21 / 10 ^ 21)%Z with 1%Z.
  change (1 + 1)%Z with 2%Z.
  rewrite Hlo, Hhi. reflexivity.
Qed.

(** [parseInt(1e21)] is 1, and [(1e21).toFixed(2)] is the text [1e+21]. *)
Lemma parseInt_number_1e21 : parseInt_number (10 ^ 21) = 1%Z.
Proof.
  unfold parseInt_number, leading_digit.
  change (Z.abs (10 ^ 21)) with (10 ^ 21)%Z.
  rewrite significand_1e21. reflexivity.
Qed.

Lemma toFixed2_1e21 : toFixed2 (10 ^ 21) = "1e+21".
Proof.
  unfold toFixed2, toFixed2_magnitude.
  destruct (Rlt_dec (10 ^ 21) 0) as [Hneg|_]; [lra|].
  destruct (Rle_dec (10 ^ 21) (10 ^ 21)) as [_|Hlt]; [|lra].
  replace (Int_part (10 ^ 21)) with (10 ^ 21)%Z.
  - unfold exponential. rewrite significand_1e21. reflexivity.
  - apply Int_part_spec.
    change (IZR (10 ^ 21)) with (IZR 1000000000000000000000). lra.
Qed.

(** *** The tally *)

(** A tag that names an inherited member is not counted: the member's text
    grows by a digit each time, and [__proto__] is never stored. *)
Lemma count_type_inherited :
  count_type (count_type ∅ "toString") "toString"
  = {["toString" := MemberText "toString" 2]}
  /\ count_type ∅ "__proto__" = ∅
  /\ count_type (count_type ∅ "optimal") "optimal" = {["optimal" := Times 2]}.
Proof.
  split; [|split]; apply map_eq; intros k; vm_compute; reflexivity.
Qed.

Lemma counts_step (m : gmap string Count) (c : string -> nat) (k : string) :
  counts m c ->
  counts (count_type m k) (fun t => ((if String.eqb k t then 1 else 0) + c t)%nat).
Proof.
  intros Hm t Ht. specialize (Hm t Ht). unfold count_type.
  destruct (String.eqb_spec k t) as [->|Hkt].
  - assert (Hplain : inherited t = false).
    { unfold inherited. apply Bool.not_true_is_false. intros Hin.
      apply existsb_exists in Hin as (name & Hname & Heq).
      apply String.eqb_eq in Heq. subst name. exact (Ht Hname). }
    rewrite Hm. unfold get_property.
    destruct (Nat.eqb_spec (c t) 0) as [H0|Hn0].
    + rewrite Hplain, H0, lookup_insert_eq. reflexivity.
    + rewrite lookup_insert_eq.
      destruct (Nat.eqb_spec (1 + c t) 0) as [|_]; [lia|].
      do 2 f_equal. lia.
  - cbn [Nat.add].
    destruct (get_property (m !! k) k) as [[n|name ones]|name|];
      [| |destruct (String.eqb k "__proto__")|];
      rewrite ?lookup_insert_ne by exact Hkt; exact Hm.
Qed.

Lemma tag_count_step (type t : string) (s : Segment) (segs : list Segment) :
  segment_type s = Some type ->
  tag_count t (s :: segs)
  = ((if String.eqb type t then 1 else 0) + tag_count t segs)%nat.
Proof.
  intros Htype. cbn [tag_count]. rewrite Htype.
  destruct (String.string_dec type t) as [->|Hne].
  - rewrite String.eqb_refl. reflexivity.
  - apply String.eqb_neq in Hne. rewrite Hne. reflexivity.
Qed.

Lemma tally_objects (segs : list Segment) :
  forallb renderable segs = true ->
  forall (m : gmap string Count) (c : string -> nat) (a : R),
    counts m c ->
    exists m' : gmap string Count,
      tally (map EObject segs) m (Some a)
      = Return (m', Some (fold_left (fun total p => round64 (total + Rabs p))
                            (changes segs) a))
      /\ counts m' (fun t => (c t + tag_count t segs)%nat).
Proof.
  induction segs as [|s segs IH]; intros Hok m c a Hm.
  - exists m. cbn. split; [reflexivity|].
    intros t Ht. rewrite Nat.add_0_r. apply Hm. exact Ht.
  - cbn [forallb] in Hok. apply andb_prop in Hok as [Hs Hrest].
    unfold renderable in Hs.
    destruct (segment_type s) as [type|] eqn:Etype; [|discriminate].
    destruct (pct_change s) as [p|] eqn:Ep; [|discriminate].
    destruct (IH Hrest _ _ (round64 (a + Rabs p)) (counts_step m c type Hm))
      as (m' & Hrun & Hm').
    exists m'. split.
    + cbn [map tally]. cbn. rewrite Etype, Ep. cbn [type_key add_abs].
      rewrite Hrun. unfold changes. cbn. rewrite ?Ep. reflexivity.
    + intros t Ht. rewrite (Hm' t Ht), (tag_count_step type t s segs Etype).
      replace ((if String.eqb type t then 1 else 0) + c t + tag_count t segs)%nat
        with (c t + ((if String.eqb type t then 1 else 0) + tag_count t segs))%nat
        by lia.
      reflexivity.
Qed.

Lemma changes_length (segs : list Segment) :
  forallb renderable segs = true -> length (changes segs) = length segs.
Proof.
  induction segs as [|s segs IH]; [reflexivity|].
  cbn [forallb]. intros H. apply andb_prop in H as [Hs Hrest].
  unfold renderable in Hs. unfold changes in *. cbn.
  destruct (pct_change s); [|rewrite andb_false_r in Hs; discriminate].
  cbn [length]. f_equal. exact (IH Hrest).
Qed.

Lemma counts_empty : counts ∅ (fun _ => 0%nat).
Proof. intros t _. apply lookup_empty. Qed.

(** What [calculateStats] answers on segments that have their tag and
    their change. *)
Lemma calculateStats_objects (st : State) (segs : list Segment) :
  segs <> [] ->
  forallb renderable segs = true ->
  exists m : gmap string Count,
    calculateStats (Some (map EObject segs)) st
    = (st, Return (Some (mkStats (length segs) m
                           (toFixed2 (float_mean (changes segs)) +:+ "%"))))
    /\ counts m (fun t => tag_count t segs).
Proof.
  intros Hne Hok.
  destruct (tally_objects segs Hok ∅ (fun _ => 0%nat) 0 counts_empty)
    as (m' & Hrun & Hm').
  exists m'. split; [|exact Hm'].
  unfold calculateStats. run. rewrite length_map.
  destruct segs as [|s segs]; [contradiction|].
  cbn [length Nat.eqb]. rewrite Hrun. cbn [fst snd].
  unfold format_volatility, float_mean, float_sum.
  rewrite (changes_length _ Hok). reflexivity.
Qed.

Lemma calculateStats_loaded (st : State) (data : list entry) :
  lastLoadedData st = Some data ->
  calculateStats None st = calculateStats (Some data) st.
Proof.
  intros Hsome. unfold calculateStats. run. rewrite Hsome. reflexivity.
Qed.

(** *** The changes 0.01 and 0.02, and the changes [2^53] and 1 *)

Lemma cent_rounds : round64 cent = cent.
Proof.
  replace cent with (IZR 5764607523034235 * powerRZ 2 (-59))
    by (change (powerRZ 2 (-59)) with (/ 2 ^ 59); reflexivity).
  apply round64_pos_fixed; lia.
Qed.

Lemma cents_sum : round64 (cent + two_cents) = 8646911284551352 / 2 ^ 58.
Proof.
  unfold cent, two_cents. rewrite (round64_pos _ (-6)).
  - change (Z.max (-6) (-1022) - 52)%Z with (-58)%Z.
    change (powerRZ 2 (-58)) with (/ 2 ^ 58).
    replace ((5764607523034235 / 2 ^ 59 + 5764607523034235 / 2 ^ 58)
             / / 2 ^ 58)
      with (IZR 8646911284551352 + 1 / 2) by field.
    rewrite round_half_even_tie. cbn [Z.even]. lra.
  - change (powerRZ 2 (-6)) with (/ 2 ^ 6).
    change (powerRZ 2 (-6 + 1)) with (/ 2 ^ 5). lra.
Qed.

Lemma cents_half :
  round64 (8646911284551352 / 2 ^ 58 / 2) = 8646911284551352 / 2 ^ 59.
Proof.
  replace (8646911284551352 / 2 ^ 58 / 2)
    with (IZR 8646911284551352 * powerRZ 2 (-59))
    by (change (powerRZ 2 (-59)) with (/ 2 ^ 59); field).
  rewrite round64_pos_fixed by lia.
  change (powerRZ 2 (-59)) with (/ 2 ^ 59). reflexivity.
Qed.

Lemma cent_pos : 0 <= cent /\ 0 <= two_cents.
Proof. unfold cent, two_cents. lra. Qed.

Lemma float_mean_cents :
  float_mean (changes cents) = 8646911284551352 / 2 ^ 59.
Proof.
  change (changes cents) with [cent; two_cents].
  unfold float_mean, float_sum. cbn [fold_left length].
  destruct cent_pos as [H1 H2].
  rewrite Rplus_0_l, !Rabs_right by (apply Rle_ge; assumption).
  rewrite cent_rounds, cents_sum. change (INR 2) with (1 + 1).
  replace (1 + 1) with 2 by lra. apply cents_half.
Qed.

Lemma absorbed_sum :
  round64 (9007199254740992 + 1) = 9007199254740992.
Proof.
  rewrite (round64_pos _ 53).
  - change (Z.max 53 (-1022) - 52)%Z with 1%Z.
    change (powerRZ 2 1) with (2 * 1).
    replace ((9007199254740992 + 1) / (2 * 1))
      with (IZR 4503599627370496 + 1 / 2) by lra.
    rewrite round_half_even_tie. cbn [Z.even]. lra.
  - rewrite !powerRZ_2_IZR by lia.
    change (2 ^ 53)%Z with 9007199254740992%Z.
    change (2 ^ (53 + 1))%Z with 18014398509481984%Z. lra.
Qed.

Lemma absorbed_rounds : round64 9007199254740992 = 9007199254740992.
Proof.
  replace 9007199254740992 with (IZR 4503599627370496 * powerRZ 2 1)
    by (change (powerRZ 2 1) with (2 * 1); lra).
  apply round64_pos_fixed; lia.
Qed.

Lemma float_mean_absorbed :
  float_mean (changes absorbed) = 4503599627370496.
Proof.
  change (changes absorbed) with [9007199254740992; 1].
  unfold float_mean, float_sum. cbn [fold_left length].
  rewrite Rplus_0_l, !Rabs_right by lra.
  rewrite absorbed_rounds.
  rewrite absorbed_sum. change (INR 2) with (1 + 1).
  replace (9007199254740992 / (1 + 1)) with (IZR 4503599627370496) by lra.
  apply round64_IZR. lia.
Qed.

Lemma two_decimals_only (x : R) (n : Z) (s : string) :
  IZR n - 1 / 2 < x * 100 < IZR n + 1 / 2 ->
  two_decimals x s -> s = hundredths n.
Proof.
  intros [Hlo Hhi] (k & -> & Hk). f_equal.
  pose proof (Rle_abs (IZR k / 100 - x)) as Hup.
  pose proof (Rle_abs (- (IZR k / 100 - x))) as Hdown.
  rewrite Rabs_Ropp in Hdown.
  assert (IZR n - 1 < IZR k < IZR n + 1) as [H1 H2] by lra.
  rewrite <- minus_IZR in H1. rewrite <- plus_IZR in H2.
  apply lt_IZR in H1, H2. lia.
Qed.

Lemma binary64_examples :
  Forall binary64 (changes cents) /\ Forall binary64 (changes absorbed).
Proof.
  split.
  - change (changes cents) with [cent; two_cents].
    repeat constructor.
    + exists 5764607523034235%Z, (-59)%Z. split; [lia|]. split; [lia|].
      change (powerRZ 2 (-59)) with (/ 2 ^ 59). reflexivity.
    + exists 5764607523034235%Z, (-58)%Z. split; [lia|]. split; [lia|].
      change (powerRZ 2 (-58)) with (/ 2 ^ 58). reflexivity.
  - change (changes absorbed) with [9007199254740992; 1].
    repeat constructor.
    + exists 4503599627370496%Z, 1%Z. split; [lia|]. split; [lia|].
      change (powerRZ 2 1) with (2 * 1). lra.
    + exists 1%Z, 0%Z. split; [lia|]. split; [lia|]. cbn. lra.
Qed.

(** C8, as stated, fails: the sum of the absolute changes is rounded as it
    is added up.  For the changes 0.01 and 0.02 (the binary64 numbers
    nearest to them) the mean is a little above 0.015, which is 0.02 with
    two decimals, and [calculateStats] prints ["0.01%"]; for the changes
    [2^53] and 1 the mean ends in [.50] and it prints [.00]. *)
Lemma calculateStats_rounds_the_sum :
  Forall binary64 (changes cents)
  /\ Forall binary64 (changes absorbed)
  /\ (exists stats : Stats,
     calculateStats (Some (map EObject cents)) fresh
     = (fresh, Return (Some stats))
     /\ volatility stats = "0.01%")
  /\ two_decimals (mean_abs (changes cents)) "0.02"
  /\ ~ two_decimals (mean_abs (changes cents)) "0.01"
  /\ (exists stats : Stats,
        calculateStats (Some (map EObject absorbed)) fresh
        = (fresh, Return (Some stats))
        /\ volatility stats = "4503599627370496.00%")
  /\ two_decimals (mean_abs (changes absorbed)) "4503599627370496.50"
  /\ ~ two_decimals (mean_abs (changes absorbed)) "4503599627370496.00".
Proof.
  assert (Hcents : mean_abs (changes cents) = 17293822569102705 / 2 ^ 60).
  { change (changes cents) with [cent; two_cents].
    unfold mean_abs, sum_abs. cbn [fold_right length].
    destruct cent_pos as [H1 H2].
    rewrite !Rabs_right by (apply Rle_ge; assumption).
    change (INR 2) with (1 + 1). unfold cent, two_cents. field. }
  assert (Habsorbed : mean_abs (changes absorbed) = 9007199254740993 / 2).
  { change (changes absorbed) with [9007199254740992; 1].
    unfold mean_abs, sum_abs. cbn [fold_right length].
    rewrite !Rabs_right by lra. change (INR 2) with (1 + 1). lra. }
  split; [apply binary64_examples|]. split; [apply binary64_examples|].
  split; [|split; [|split; [|split; [|split]]]].
  - destruct (calculateStats_objects fresh cents ltac:(discriminate) eq_refl)
      as (m & Hrun & _).
    eexists. split; [exact Hrun|]. cbn [volatility].
    rewrite float_mean_cents, toFixed2_hundredths by lra.
    replace (Int_part (8646911284551352 / 2 ^ 59 * 100 + / 2)) with 1%Z;
      [reflexivity|].
    apply Int_part_spec. lra.
  - exists 2%Z. split; [reflexivity|]. rewrite Hcents. apply Rabs_le. lra.
  - intros H. apply (two_decimals_only _ 2) in H; [discriminate H|].
    rewrite Hcents. lra.
  - destruct (calculateStats_objects fresh absorbed ltac:(discriminate) eq_refl)
      as (m & Hrun & _).
    eexists. split; [exact Hrun|]. cbn [volatility].
    rewrite float_mean_absorbed, toFixed2_hundredths by lra.
    replace (Int_part (4503599627370496 * 100 + / 2))
      with 450359962737049600%Z; [reflexivity|].
    apply Int_part_spec. lra.
  - exists 450359962737049650%Z. split; [reflexivity|].
    rewrite Habsorbed. apply Rabs_le. lra.
  - intros H. apply (two_decimals_only _ 450359962737049650) in H;
      [discriminate H|].
    rewrite Habsorbed. lra.
Qed.

(** C8 (amended).  For a non-empty dataset [calculateStats] returns a
    record whose [totalSegments] is the length of the list, whose
    [typeCounts] maps each type tag that occurs to the number of its
    occurrences and has no other key, as far as tags go whose name no object
    inherits, and whose [volatility] is, with a percent sign, the mean of
    [|pct_change|] as binary64 arithmetic gives it, adding from the left,
    written with two decimals; that is the mean itself with two decimals
    when the sum and the quotient are exact, as for the changes 4 and -2,
    which give ["3.00%"].  For an empty dataset, and when there is neither
    an argument nor loaded data, it returns [null]; without an argument it
    works on the loaded data. *)
Theorem calculateStats_spec :
  (forall (st : State) (segs : list Segment),
      segs <> [] ->
      forallb renderable segs = true ->
      Forall binary64 (changes segs) ->
      float_mean (changes segs) < 10 ^ 21 ->
      exists stats : Stats,
        calculateStats (Some (map EObject segs)) st = (st, Return (Some stats))
        /\ totalSegments stats = length segs
        /\ (forall t : string,
              plain_tag t ->
              typeCounts stats !! t
              = if Nat.eqb (tag_count t segs) 0 then None
                else Some (Times (tag_count t segs)))
        /\ (exists text : string,
              volatility stats = text +:+ "%"
              /\ two_decimals (float_mean (changes segs)) text
              /\ (float_mean (changes segs) = mean_abs (changes segs) ->
                  two_decimals (mean_abs (changes segs)) text)))
  /\ (forall st : State,
        exists stats : Stats,
          calculateStats
            (Some (map EObject
               [mkSegment (Some "optimal") None None None None None None
                  (Some 4);
                mkSegment (Some "negative") None None None None None None
                  (Some (-2))])) st
          = (st, Return (Some stats))
          /\ totalSegments stats = 2%nat
          /\ typeCounts stats !! "optimal" = Some (Times 1)
          /\ typeCounts stats !! "negative" = Some (Times 1)
          /\ volatility stats = "3.00%")
  /\ (forall st : State, calculateStats (Some []) st = (st, Return None))
  /\ (forall st : State,
        lastLoadedData st = None -> calculateStats None st = (st, Return None))
  /\ (forall (st : State) (data : list entry),
        lastLoadedData st = Some data ->
        calculateStats None st = calculateStats (Some data) st).
Proof.
  split; [|split; [|split; [|split]]].
  - intros st segs Hne Hok _ Hbelow.
    destruct (calculateStats_objects st segs Hne Hok) as (m & Hrun & Hm).
    eexists. split; [exact Hrun|]. split; [reflexivity|].
    split; [exact Hm|].
    exists (toFixed2 (float_mean (changes segs))).
    split; [reflexivity|].
    assert (Htwo : two_decimals (float_mean (changes segs))
                     (toFixed2 (float_mean (changes segs)))).
    { apply toFixed2_two_decimals. split; [apply float_mean_nonneg|exact Hbelow]. }
    split; [exact Htwo|]. intros <-. exact Htwo.
  - intros st.
    destruct (calculateStats_objects st
                [mkSegment (Some "optimal") None None None None None None
                   (Some 4);
                 mkSegment (Some "negative") None None None None None None
                   (Some (-2))] ltac:(discriminate) eq_refl)
      as (m & Hrun & Hm).
    eexists. split; [exact Hrun|]. split; [reflexivity|].
    cbn [typeCounts volatility].
    split; [apply (Hm "optimal"); unfold prototype_members; cbn; intuition discriminate|].
    split; [apply (Hm "negative"); unfold prototype_members; cbn; intuition discriminate|].
    assert (float_mean [4; -2] = 3) as Hmean.
    { unfold float_mean, float_sum. cbn.
      rewrite Rplus_0_l, (Rabs_right 4), (Rabs_left (-2)) by lra.
      rewrite (round64_IZR 4) by lia.
      replace (4 + - -2) with (IZR 6) by lra. rewrite (round64_IZR 6) by lia.
      replace (6 / (1 + 1)) with (IZR 3) by lra. apply round64_IZR. lia. }
    change (changes _) with [4; -2]. rewrite Hmean, toFixed2_3. reflexivity.
  - reflexivity.
  - intros st Hnone. unfold calculateStats. run. rewrite Hnone. reflexivity.
  - intros st data Hsome. unfold calculateStats. run. rewrite Hsome.
    reflexivity.
Qed.

Lemma binary64_IZR (m : Z) : (Z.abs m < 2 ^ 53)%Z -> binary64 (IZR m).
Proof.
  intros Hm. exists m, 0%Z. split; [exact Hm|]. split; [lia|]. cbn. lra.
Qed.

Lemma calculateStats_spec_witness :
  ([segment "optimal" 0 10 100 110 4; segment "negative" 10 12 110 99 (-2);
    segment "optimal" 12 15 99 104 6] <> []
   /\ forallb renderable
        [segment "optimal" 0 10 100 110 4; segment "negative" 10 12 110 99 (-2);
         segment "optimal" 12 15 99 104 6] = true
   /\ Forall binary64 [4; -2; 6]
   /\ float_mean [4; -2; 6] < 10 ^ 21
   /\ plain_tag "optimal"
   /\ float_mean [4; -2; 6] = mean_abs [4; -2; 6]
   /\ exists stats : Stats,
        calculateStats
          (Some (map EObject
             [segment "optimal" 0 10 100 110 4;
              segment "negative" 10 12 110 99 (-2);
              segment "optimal" 12 15 99 104 6]))
          fresh
        = (fresh, Return (Some stats))
        /\ totalSegments stats = 3%nat
        /\ typeCounts stats !! "optimal" = Some (Times 2)
        /\ exists text : string,
             volatility stats = text +:+ "%"
             /\ two_decimals (mean_abs [4; -2; 6]) text)
  /\ (lastLoadedData fresh = None
      /\ calculateStats None fresh = (fresh, Return None))
  /\ (lastLoadedData (loaded fresh (map EObject sample))
      = Some (map EObject sample)
      /\ calculateStats None (loaded fresh (map EObject sample))
         = calculateStats (Some (map EObject sample))
             (loaded fresh (map EObject sample))).
Proof.
  destruct calculateStats_spec as (Hstats & _ & _ & Hnone & Hloaded).
  assert (Hmean : float_mean [4; -2; 6] = 4).
  { unfold float_mean, float_sum. cbn.
    rewrite Rplus_0_l, (Rabs_right 4), (Rabs_left (-2)), (Rabs_right 6) by lra.
    rewrite (round64_IZR 4) by lia.
    replace (4 + - -2) with (IZR 6) by lra. rewrite (round64_IZR 6) by lia.
    replace (6 + 6) with (IZR 12) by lra. rewrite (round64_IZR 12) by lia.
    replace (12 / (1 + 1 + 1)) with (IZR 4) by lra. apply round64_IZR. lia. }
  assert (Hexact : float_mean [4; -2; 6] = mean_abs [4; -2; 6]).
  { rewrite Hmean. unfold mean_abs, sum_abs. cbn.
    rewrite (Rabs_right 4), (Rabs_left (-2)), (Rabs_right 6) by lra. lra. }
  assert (Hplain : plain_tag "optimal")
    by (unfold plain_tag, prototype_members; cbn; intuition discriminate).
  assert (Hdoubles : Forall binary64 [4; -2; 6])
    by (repeat constructor; apply binary64_IZR; lia).
  assert (Hbelow : float_mean [4; -2; 6] < 10 ^ 21) by (rewrite Hmean; lra).
  split; [|split].
  - split; [discriminate|]. split; [reflexivity|].
    split; [exact Hdoubles|]. split; [exact Hbelow|].
    split; [exact Hplain|]. split; [exact Hexact|].
    destruct (Hstats fresh
                [segment "optimal" 0 10 100 110 4;
                 segment "negative" 10 12 110 99 (-2);
                 segment "optimal" 12 15 99 104 6]
                ltac:(discriminate) eq_refl Hdoubles Hbelow)
      as (stats & Hrun & Htotal & Hcounts & text & Hvol & _ & Htext).
    exists stats. split; [exact Hrun|]. split; [exact Htotal|].
    split; [exact (Hcounts "optimal" Hplain)|].
    exists text. split; [exact Hvol|]. exact (Htext Hexact).
  - split; [reflexivity|]. apply Hnone. reflexivity.
  - split; [reflexivity|]. apply Hloaded. reflexivity.
Defined.

End Statistics.


(** ** The orbit controls *)

Section Orbit.

Import THREE OrbitControls Spec.
Local Open Scope R_scope.

Lemma hypot_scaled (a b : R) :
  b <> 0 -> sqrt (a * a + b * b) = Rabs b * sqrt (1 + (a / b)²).
Proof.
  intros Hb.
  assert (Hpos : 0 <= 1 + (a / b)²) by (pose proof (Rle_0_sqr (a / b)); lra).
  apply sqrt_lem_1.
  - nra.
  - apply Rmult_le_pos; [apply Rabs_pos|apply sqrt_pos].
  - replace (Rabs b * sqrt (1 + (a / b)²) * (Rabs b * sqrt (1 + (a / b)²)))
      with ((Rabs b * Rabs b) * (sqrt (1 + (a / b)²) * sqrt (1 + (a / b)²)))
      by ring.
    rewrite sqrt_sqrt by exact Hpos.
    replace (Rabs b * Rabs b) with (b * b)
      by (unfold Rabs; destruct (Rcase_abs b); ring).
    unfold Rsqr. field. exact Hb.
Qed.

Lemma sqrt_1_sqr_pos (t : R) : 0 < sqrt (1 + t²).
Proof. apply sqrt_lt_R0. pose proof (Rle_0_sqr t). lra. Qed.

(** [Math.atan2(a, b)] is the angle of the point [(b, a)]. *)
Lemma atan2_polar (a b : R) :
  sin (Math_atan2 a b) * sqrt (a * a + b * b) = a
  /\ cos (Math_atan2 a b) * sqrt (a * a + b * b) = b.
Proof.
  unfold Math_atan2.
  destruct (Rlt_dec 0 b) as [Hb|Hb].
  - rewrite (hypot_scaled a b) by lra. rewrite Rabs_right by lra.
    rewrite sin_atan, cos_atan. pose proof (sqrt_1_sqr_pos (a / b)).
    split; field; lra.
  - destruct (Rlt_dec b 0) as [Hb'|Hb'].
    + rewrite (hypot_scaled a b) by lra. rewrite Rabs_left by lra.
      pose proof (sqrt_1_sqr_pos (a / b)).
      destruct (Rle_dec 0 a) as [Ha|Ha].
      * rewrite neg_sin, neg_cos, sin_atan, cos_atan. split; field; lra.
      * unfold Rminus.
        rewrite sin_plus, cos_plus, sin_neg, cos_neg, sin_PI, cos_PI,
          sin_atan, cos_atan.
        split; field; lra.
    + assert (b = 0) as -> by lra.
      replace (a * a + 0 * 0) with (a * a) by ring.
      destruct (Rlt_dec 0 a) as [Ha|Ha].
      * rewrite sin_PI2, cos_PI2, sqrt_square by lra. lra.
      * destruct (Rlt_dec a 0) as [Ha'|Ha'].
        -- rewrite sin_neg, cos_neg, sin_PI2, cos_PI2.
           replace (a * a) with ((- a) * (- a)) by ring.
           rewrite sqrt_square by lra. lra.
        -- assert (a = 0) as -> by lra.
           rewrite sin_0, Rmult_0_l. rewrite Rmult_0_l, sqrt_0. lra.
Qed.

Lemma clamp_inside (v lo hi : R) : lo <= v <= hi -> clamp v lo hi = v.
Proof.
  intros [Hlo Hhi]. unfold clamp, Math_max, Math_min.
  rewrite Rmin_right by exact Hhi. apply Rmax_right. exact Hlo.
Qed.

(** Cartesian to spherical and back is the identity. *)
Lemma setFromSpherical_setFromVector3 (v : Vector3) :
  setFromSpherical (setFromVector3 v) = v.
Proof.
  destruct v as [a b c]. unfold setFromVector3, setFromSpherical. cbn [x y z].
  set (r := sqrt (a * a + b * b + c * c)).
  assert (Hsum : 0 <= a * a + b * b + c * c) by nra.
  assert (Hrr : r * r = a * a + b * b + c * c) by (apply sqrt_sqrt; exact Hsum).
  assert (Hr0 : 0 <= r) by apply sqrt_pos.
  destruct (Req_dec_T r 0) as [Hz|Hnz]; cbn [radius phi theta].
  - assert (a = 0 /\ b = 0 /\ c = 0) as (-> & -> & ->) by nra.
    rewrite Hz. f_equal; ring.
  - assert (Hr : 0 < r) by lra.
    assert (Hu : -1 <= b / r <= 1).
    { assert (Habs : b * b <= r * r) by nra.
      split.
      - apply (Rmult_le_reg_r r); [exact Hr|].
        replace (b / r * r) with b by (field; lra). nra.
      - apply (Rmult_le_reg_r r); [exact Hr|].
        replace (b / r * r) with b by (field; lra). nra. }
    rewrite (clamp_inside _ _ _ Hu), (cos_acos _ Hu), (sin_acos _ Hu).
    assert (Hplane : sqrt (1 - (b / r)²) * r = sqrt (a * a + c * c)).
    { symmetry. apply sqrt_lem_1.
      - nra.
      - apply Rmult_le_pos; [apply sqrt_pos|exact Hr0].
      - replace (sqrt (1 - (b / r)²) * r * (sqrt (1 - (b / r)²) * r))
          with ((sqrt (1 - (b / r)²) * sqrt (1 - (b / r)²)) * (r * r)) by ring.
        rewrite sqrt_sqrt.
        + unfold Rsqr. rewrite Hrr.
          replace ((1 - b / r * (b / r)) * (a * a + b * b + c * c))
            with ((a * a + b * b + c * c) - b * b * ((a * a + b * b + c * c) / (r * r)))
            by (field; lra).
          rewrite <- Hrr. replace (r * r / (r * r)) with 1 by (field; lra).
          rewrite Hrr. ring.
        + unfold Rsqr. destruct Hu as [Hu1 Hu2]. nra. }
    rewrite Hplane.
    destruct (atan2_polar a c) as [Hsin Hcos].
    f_equal.
    + rewrite Rmult_comm. exact Hsin.
    + field. lra.
    + rewrite Rmult_comm. exact Hcos.
Qed.

Lemma PI_gt_3 : 3 < PI.
Proof. pose proof PI2_3_2. lra. Qed.

Lemma polar_clamp_range (v : R) :
  0.01 <= Math_max 0.01 (Math_min (PI - 0.01) v) <= PI - 0.01.
Proof.
  pose proof PI_gt_3. unfold Math_max, Math_min.
  split; [apply Rmax_l|].
  apply Rmax_lub; [lra|apply Rmin_l].
Qed.

Lemma makeSafe_inside (s : Spherical) :
  0.01 <= phi s <= PI - 0.01 -> makeSafe s = s.
Proof.
  intros [Hlo Hhi]. destruct s as [r p t]. unfold makeSafe, EPS.
  cbn [radius phi theta] in *. f_equal.
  unfold Math_max, Math_min.
  rewrite Rmin_right by lra. apply Rmax_right. lra.
Qed.

Lemma setFromVector3_ahead :
  setFromVector3 (mkVector3 0 0 1) = mkSpherical 1 (PI / 2) 0.
Proof.
  unfold setFromVector3. cbn [x y z].
  replace (0 * 0 + 0 * 0 + 1 * 1) with 1 by ring. rewrite sqrt_1.
  destruct (Req_dec_T 1 0) as [H|_]; [lra|].
  f_equal.
  - rewrite clamp_inside by lra.
    replace (0 / 1) with 0 by field. apply acos_0.
  - unfold Math_atan2. destruct (Rlt_dec 0 1) as [_|H]; [|lra].
    replace (0 / 1) with 0 by field. apply atan_0.
Qed.

(** C4, as stated, fails: with nothing pending and the polar angle of the
    offset inside the clamp, a tick still moves the camera when the
    automatic rotation is on. *)
Lemma update_auto_rotate_moves :
  nothing_pending spinning
  /\ 0.01 <= polar_angle spinning <= PI - 0.01
  /\ camera_position (fst (update spinning)) <> camera_position spinning.
Proof.
  pose proof PI_gt_3 as Hpi.
  split; [repeat split; reflexivity|].
  assert (Hoff : sub (camera_position spinning) (target spinning)
                 = mkVector3 0 0 1)
    by (unfold sub, spinning; cbn [x y z camera_position target]; f_equal; lra).
  split.
  - unfold polar_angle. rewrite Hoff, setFromVector3_ahead. cbn [phi]. lra.
  - unfold update. rewrite Hoff, setFromVector3_ahead.
    cbn [autoRotate _state is_none andb radius phi theta _sphericalDelta
         spinning autoRotateSpeed _scale target _panOffset camera_position fst].
    rewrite makeSafe_inside by (cbn [phi]; apply polar_clamp_range).
    cbn [radius phi theta setFromSpherical add x y z].
    unfold Math_max, Math_min.
    rewrite Rmin_right by lra. rewrite Rmax_right by lra.
    intros Heq. apply (f_equal x) in Heq.
    unfold add, setFromSpherical in Heq. cbn [x y z radius phi theta] in Heq.
    replace (PI / 2 + 0) with (PI / 2) in Heq by ring.
    rewrite sin_PI2 in Heq.
    replace (0 + (0 - 2 * PI / 60 / 60 * 2)) with (- (PI / 900)) in Heq
      by field.
    rewrite sin_neg in Heq.
    assert (Hsin : 0 < sin (PI / 900)) by (apply sin_gt_0; lra).
    lra.
Qed.

(** C4 (amended).  Every tick turns the camera offset into spherical
    coordinates, adds the pending deltas, clamps the polar angle into
    [0.01, PI - 0.01] and only then turns it back into the offset from the
    target.  Hence, when nothing is pending, the automatic rotation does not
    apply (it is off, or the controls are not idle) and the polar angle of the
    offset already lies in [0.01, PI - 0.01], the tick leaves the camera
    where it was (exactly so over the reals). *)
Theorem update_round_trip :
  (forall c : State,
      let s0 := setFromVector3 (sub (camera_position c) (target c)) in
      let auto :=
        if autoRotate c && is_none (_state c)
        then 2 * PI / 60 / 60 * autoRotateSpeed c else 0 in
      _spherical (fst (update c))
      = mkSpherical
          (radius s0 * _scale c)
          (Rmax 0.01 (Rmin (PI - 0.01) (phi s0 + phi (_sphericalDelta c))))
          (theta s0 + (theta (_sphericalDelta c) - auto))
      /\ 0.01 <= phi (_spherical (fst (update c))) <= PI - 0.01
      /\ camera_position (fst (update c))
         = add (add (target c) (_panOffset c))
               (setFromSpherical (_spherical (fst (update c)))))
  /\ (forall c : State,
        nothing_pending c ->
        autoRotate c = false \/ _state c <> none ->
        0.01 <= polar_angle c <= PI - 0.01 ->
        camera_position (fst (update c)) = camera_position c).
Proof.
  split.
  - intros c s0 auto.
    assert (Hs : _spherical (fst (update c))
                 = mkSpherical
                     (radius s0 * _scale c)
                     (Rmax 0.01 (Rmin (PI - 0.01) (phi s0 + phi (_sphericalDelta c))))
                     (theta s0 + (theta (_sphericalDelta c) - auto))).
    { unfold update. cbn [fst _spherical]. fold s0.
      rewrite makeSafe_inside by (cbn [phi]; apply polar_clamp_range).
      cbn [radius phi theta]. unfold Math_max, Math_min, auto.
      destruct (autoRotate c && is_none (_state c)); cbn [radius phi theta];
        f_equal; ring. }
    split; [exact Hs|]. split.
    + rewrite Hs. cbn [phi]. apply polar_clamp_range.
    + reflexivity.
  - intros c (Htheta & Hphi & Hscale & Hpan) Hidle Hrange.
    unfold polar_angle in Hrange. unfold update.
    assert (Hdelta :
      (if autoRotate c && is_none (_state c)
       then mkSpherical (radius (_sphericalDelta c)) (phi (_sphericalDelta c))
              (theta (_sphericalDelta c) - 2 * PI / 60 / 60 * autoRotateSpeed c)
       else _sphericalDelta c) = _sphericalDelta c).
    { destruct Hidle as [-> | Hbusy]; [reflexivity|].
      destruct (_state c); [contradiction| |]; rewrite andb_false_r;
        reflexivity. }
    rewrite Hdelta, Htheta, Hphi, Hscale, Hpan.
    cbn [fst camera_position radius phi theta].
    set (s0 := setFromVector3 (sub (camera_position c) (target c))) in *.
    assert (Hclamp : Math_max 0.01 (Math_min (PI - 0.01) (phi s0 + 0)) = phi s0).
    { rewrite Rplus_0_r. unfold Math_max, Math_min.
      rewrite Rmin_right by lra. apply Rmax_right. lra. }
    rewrite Hclamp, makeSafe_inside by (cbn [phi]; exact Hrange).
    cbn [radius phi theta].
    replace (mkSpherical (radius s0 * 1) (phi s0) (theta s0 + 0)) with s0
      by (destruct s0; cbn [radius phi theta]; f_equal; ring).
    unfold s0. rewrite setFromSpherical_setFromVector3.
    destruct (camera_position c), (target c). unfold add, sub. cbn [x y z].
    f_equal; ring.
Qed.

Lemma update_round_trip_witness :
  nothing_pending resting
  /\ (autoRotate resting = false \/ _state resting <> none)
  /\ 0.01 <= polar_angle resting <= PI - 0.01
  /\ 0.01 <= phi (_spherical (fst (update resting))) <= PI - 0.01
  /\ camera_position (fst (update resting)) = camera_position resting.
Proof.
  assert (Hrest : nothing_pending resting) by (repeat split; reflexivity).
  assert (Hidle : autoRotate resting = false \/ _state resting <> none)
    by (left; reflexivity).
  assert (Hrange : 0.01 <= polar_angle resting <= PI - 0.01).
  { pose proof PI_gt_3. unfold polar_angle.
    replace (sub (camera_position resting) (target resting))
      with (mkVector3 0 0 1)
      by (unfold sub, resting; cbn [x y z camera_position target]; f_equal; lra).
    rewrite setFromVector3_ahead. cbn [phi]. lra. }
  split; [exact Hrest|]. split; [exact Hidle|]. split; [exact Hrange|].
  split.
  - exact (proj1 (proj2 (proj1 update_round_trip resting))).
  - exact (proj2 update_round_trip resting Hrest Hidle Hrange).
Defined.

End Orbit.

(** ** Pointer and wheel input *)

Section Pointer.

Import THREE OrbitControls OrbitInput Props.
Local Open Scope R_scope.

Lemma drag_snoc (events : list MouseEvent) (last : MouseEvent) (c : Controls) :
  drag (events ++ [last]) c = fst (_onMouseMove last (drag events c)).
Proof. unfold drag. rewrite fold_left_app. reflexivity. Qed.

(** What a rotating drag keeps, and where it leaves the anchor. *)
Lemma rotate_drag_keeps (events : list MouseEvent) :
  forall c : Controls,
    enabled c = true ->
    _state (core c) = rotate ->
    enabled (drag events c) = true
    /\ _state (core (drag events c)) = rotate
    /\ clientHeight (drag events c) = clientHeight c
    /\ rotateSpeed (drag events c) = rotateSpeed c
    /\ _scale (core (drag events c)) = _scale (core c)
    /\ _panOffset (core (drag events c)) = _panOffset (core c).
Proof.
  induction events as [|e events IH] using rev_ind; intros c Hen Hst.
  - repeat split; assumption || reflexivity.
  - destruct (IH c Hen Hst) as (Hen' & Hst' & Hh & Hs & Hk & Hp).
    rewrite drag_snoc. unfold _onMouseMove.
    rewrite Hen', Hst'. cbn. repeat split; assumption.
Qed.

Lemma rotate_drag_anchor (events : list MouseEvent) (final : MouseEvent)
    (c : Controls) :
  enabled c = true ->
  _state (core c) = rotate ->
  _rotateStart (drag (events ++ [final]) c)
  = mkVector2 (clientX final) (clientY final).
Proof.
  intros Hen Hst.
  destruct (rotate_drag_keeps events c Hen Hst) as (Hen' & Hst' & _).
  rewrite drag_snoc. unfold _onMouseMove. rewrite Hen', Hst'. reflexivity.
Qed.

(** X1.  A rotating drag adds up: after any run of pointer moves the pending
    azimuth and polar deltas have changed by the displacement from the
    anchor of the drag to the last pointer position, times
    [2 PI / clientHeight * rotateSpeed], whatever path the pointer took; the
    pending zoom and pan are untouched. *)
Theorem rotate_drag_telescopes (c : Controls) (events : list MouseEvent)
    (final : MouseEvent) :
  enabled c = true ->
  _state (core c) = rotate ->
  clientHeight c <> 0 ->
  theta (_sphericalDelta (core (drag (events ++ [final]) c)))
  = theta (_sphericalDelta (core c))
    - 2 * PI * (clientX final - px (_rotateStart c)) / clientHeight c
      * rotateSpeed c
  /\ phi (_sphericalDelta (core (drag (events ++ [final]) c)))
     = phi (_sphericalDelta (core c))
       - 2 * PI * (clientY final - py (_rotateStart c)) / clientHeight c
         * rotateSpeed c
  /\ _scale (core (drag (events ++ [final]) c)) = _scale (core c)
  /\ _panOffset (core (drag (events ++ [final]) c)) = _panOffset (core c).
Proof.
  intros Hen Hst Hh. revert final.
  induction events as [|e events IH] using rev_ind; intros final.
  - cbn [app drag fold_left]. unfold _onMouseMove. rewrite Hen, Hst. cbn.
    repeat split; reflexivity.
  - destruct (IH e) as (Ht & Hp & _ & _).
    destruct (rotate_drag_keeps (events ++ [e]) c Hen Hst)
      as (Hen' & Hst' & Hh' & Hs' & Hk' & Hpan').
    pose proof (rotate_drag_anchor events e c Hen Hst) as Hstart'.
    rewrite drag_snoc. unfold _onMouseMove at 1 2 3 4.
    rewrite Hen', Hst'. cbn [negb fst core with_rotate with_core
      set_sphericalDelta _sphericalDelta _scale _panOffset theta phi].
    rewrite Hstart', Hh', Hs', Ht, Hp. cbn [px py subVectors].
    split; [unfold Rdiv; ring|]. split; [unfold Rdiv; ring|].
    split; assumption.
Qed.

Lemma rotate_drag_telescopes_witness :
  enabled turning = true
  /\ _state (core turning) = rotate
  /\ clientHeight turning <> 0
  /\ theta (_sphericalDelta (core (drag ([mkMouseEvent 0 130 90;
                                          mkMouseEvent 0 90 140]
                                         ++ [mkMouseEvent 0 160 100]) turning)))
     = theta (_sphericalDelta (core turning))
       - 2 * PI * (clientX (mkMouseEvent 0 160 100) - px (_rotateStart turning))
         / clientHeight turning * rotateSpeed turning
  /\ phi (_sphericalDelta (core (drag ([mkMouseEvent 0 130 90;
                                        mkMouseEvent 0 90 140]
                                       ++ [mkMouseEvent 0 160 100]) turning)))
     = phi (_sphericalDelta (core turning))
       - 2 * PI * (clientY (mkMouseEvent 0 160 100) - py (_rotateStart turning))
         / clientHeight turning * rotateSpeed turning
  /\ _scale (core (drag ([mkMouseEvent 0 130 90; mkMouseEvent 0 90 140]
                         ++ [mkMouseEvent 0 160 100]) turning))
     = _scale (core turning)
  /\ _panOffset (core (drag ([mkMouseEvent 0 130 90; mkMouseEvent 0 90 140]
                             ++ [mkMouseEvent 0 160 100]) turning))
     = _panOffset (core turning).
Proof.
  assert (Hen : enabled turning = true) by reflexivity.
  assert (Hst : _state (core turning) = rotate) by reflexivity.
  assert (Hh : clientHeight turning <> 0)
    by (change (clientHeight turning) with 600; lra).
  split; [exact Hen|]. split; [exact Hst|]. split; [exact Hh|].
  exact (rotate_drag_telescopes turning
           [mkMouseEvent 0 130 90; mkMouseEvent 0 90 140]
           (mkMouseEvent 0 160 100) Hen Hst Hh).
Defined.

Lemma pan_drag_keeps (events : list MouseEvent) :
  forall c : Controls,
    enabled c = true ->
    _state (core c) = pan ->
    enabled (drag events c) = true
    /\ _state (core (drag events c)) = pan
    /\ camera_position (core (drag events c)) = camera_position (core c)
    /\ target (core (drag events c)) = target (core c)
    /\ _scale (core (drag events c)) = _scale (core c)
    /\ _sphericalDelta (core (drag events c)) = _sphericalDelta (core c).
Proof.
  induction events as [|e events IH] using rev_ind; intros c Hen Hst.
  - repeat split; assumption || reflexivity.
  - destruct (IH c Hen Hst) as (Hen' & Hst' & Hc & Ht & Hk & Hd).
    rewrite drag_snoc. unfold _onMouseMove.
    rewrite Hen', Hst'. cbn. repeat split; assumption.
Qed.

Lemma pan_drag_anchor (events : list MouseEvent) (final : MouseEvent)
    (c : Controls) :
  enabled c = true ->
  _state (core c) = pan ->
  _panStart (drag (events ++ [final]) c)
  = mkVector2 (clientX final) (clientY final).
Proof.
  intros Hen Hst.
  destruct (pan_drag_keeps events c Hen Hst) as (Hen' & Hst' & _).
  rewrite drag_snoc. unfold _onMouseMove. rewrite Hen', Hst'. reflexivity.
Qed.

(** X2.  A panning drag adds up: after any run of pointer moves the pending
    pan has moved, against the pointer in x and with it in y, by the
    displacement from the anchor to the last pointer position times
    [0.002] times the distance from the camera to the target; its z and the
    pending rotation and zoom are untouched. *)
Theorem pan_drag_telescopes (c : Controls) (events : list MouseEvent)
    (final : MouseEvent) :
  enabled c = true ->
  _state (core c) = pan ->
  _panOffset (core (drag (events ++ [final]) c))
  = mkVector3
      (x (_panOffset (core c))
       - (clientX final - px (_panStart c))
         * (0.002 * distanceTo (camera_position (core c)) (target (core c))))
      (y (_panOffset (core c))
       + (clientY final - py (_panStart c))
         * (0.002 * distanceTo (camera_position (core c)) (target (core c))))
      (z (_panOffset (core c)))
  /\ _sphericalDelta (core (drag (events ++ [final]) c))
     = _sphericalDelta (core c)
  /\ _scale (core (drag (events ++ [final]) c)) = _scale (core c).
Proof.
  intros Hen Hst. revert final.
  induction events as [|e events IH] using rev_ind; intros final.
  - cbn [app drag fold_left]. unfold _onMouseMove. rewrite Hen, Hst. cbn.
    repeat split; reflexivity.
  - destruct (IH e) as (Ho & _ & _).
    destruct (pan_drag_keeps (events ++ [e]) c Hen Hst)
      as (Hen' & Hst' & Hc' & Ht' & Hk' & Hd').
    pose proof (pan_drag_anchor events e c Hen Hst) as Hstart'.
    rewrite drag_snoc. unfold _onMouseMove at 1 2 3.
    rewrite Hen', Hst'. cbn [negb fst core with_pan with_core
      set_panOffset _sphericalDelta _scale _panOffset].
    rewrite Hstart', Hc', Ht', Ho. cbn [px py subVectors x y z].
    split; [f_equal; ring|]. split; assumption.
Qed.

Lemma pan_drag_telescopes_witness :
  enabled panning = true
  /\ _state (core panning) = pan
  /\ _panOffset (core (drag ([mkMouseEvent 2 130 90] ++ [mkMouseEvent 2 160 100])
                         panning))
     = mkVector3
         (x (_panOffset (core panning))
          - (clientX (mkMouseEvent 2 160 100) - px (_panStart panning))
            * (0.002 * distanceTo (camera_position (core panning))
                         (target (core panning))))
         (y (_panOffset (core panning))
          + (clientY (mkMouseEvent 2 160 100) - py (_panStart panning))
            * (0.002 * distanceTo (camera_position (core panning))
                         (target (core panning))))
         (z (_panOffset (core panning)))
  /\ _sphericalDelta
       (core (drag ([mkMouseEvent 2 130 90] ++ [mkMouseEvent 2 160 100]) panning))
     = _sphericalDelta (core panning)
  /\ _scale (core (drag ([mkMouseEvent 2 130 90] ++ [mkMouseEvent 2 160 100])
                      panning))
     = _scale (core panning).
Proof.
  assert (Hen : enabled panning = true) by reflexivity.
  assert (Hst : _state (core panning) = pan) by reflexivity.
  split; [exact Hen|]. split; [exact Hst|].
  exact (pan_drag_telescopes panning [mkMouseEvent 2 130 90]
           (mkMouseEvent 2 160 100) Hen Hst).
Defined.

Lemma zoom_step_pos (c : Controls) : 0 < zoom_step c.
Proof. unfold zoom_step, Rpower. apply exp_pos. Qed.

Lemma scroll_snoc (events : list WheelEvent) (e : WheelEvent) (c : Controls) :
  scroll (events ++ [e]) c = fst (_onMouseWheel e (scroll events c)).
Proof. unfold scroll. rewrite fold_left_app. reflexivity. Qed.

Lemma notches_snoc (events : list WheelEvent) (e : WheelEvent) :
  notches_in (events ++ [e])
  = (notches_in events + if Rlt_dec (deltaY e) 0 then 1 else 0)%nat
  /\ notches_out (events ++ [e])
     = (notches_out events + if Rlt_dec 0 (deltaY e) then 1 else 0)%nat.
Proof.
  unfold notches_in, notches_out. rewrite !List.filter_app, !length_app.
  cbn [List.filter].
  destruct (Rlt_dec (deltaY e) 0), (Rlt_dec 0 (deltaY e)); split; reflexivity.
Qed.

(** What a run of wheel events keeps, and the scale it leaves. *)
Lemma scroll_run (c : Controls) (events : list WheelEvent) :
  enabled c = true ->
  enableZoom c = true ->
  enabled (scroll events c) = true
  /\ enableZoom (scroll events c) = true
  /\ zoomSpeed (scroll events c) = zoomSpeed c
  /\ camera_position (core (scroll events c)) = camera_position (core c)
  /\ target (core (scroll events c)) = target (core c)
  /\ _sphericalDelta (core (scroll events c)) = _sphericalDelta (core c)
  /\ _panOffset (core (scroll events c)) = _panOffset (core c)
  /\ _scale (core (scroll events c))
     = _scale (core c) * zoom_step c ^ notches_in events
       / zoom_step c ^ notches_out events.
Proof.
  intros Hen Hzoom.
  pose proof (zoom_step_pos c) as Hk.
  induction events as [|e events IH] using rev_ind.
  - cbn. repeat split; try assumption. field.
  - destruct IH as (Hen' & Hzoom' & Hspeed' & Hcam' & Htar' & Hd' & Hp' & Hscale').
    destruct (notches_snoc events e) as [-> ->].
    rewrite scroll_snoc. unfold _onMouseWheel.
    rewrite Hen', Hzoom'. cbn [negb orb].
    assert (Hstep : zoom_step (scroll events c) = zoom_step c)
      by (unfold zoom_step; rewrite Hspeed'; reflexivity).
    assert (Hpin : zoom_step c ^ notches_in events <> 0)
      by (apply pow_nonzero; lra).
    assert (Hpout : zoom_step c ^ notches_out events <> 0)
      by (apply pow_nonzero; lra).
    destruct (Rlt_dec 0 (deltaY e)) as [Hout|Hout];
      [|destruct (Rlt_dec (deltaY e) 0) as [Hin|Hin]];
      cbn [fst core with_core set_scale _scale enabled enableZoom zoomSpeed
           camera_position target _sphericalDelta _panOffset];
      rewrite ?Hstep, ?Hscale';
      (destruct (Rlt_dec (deltaY e) 0); try lra);
      rewrite ?Nat.add_0_r, ?Nat.add_1_r; cbn [pow];
      repeat split; try assumption; field; lra.
Qed.

(** X3.  The wheel adds up multiplicatively: after any run of wheel events
    the pending zoom scale is the one before times [0.95^zoomSpeed] for each
    notch with [deltaY < 0] and divided by it for each notch with
    [deltaY > 0]; as many notches one way as the other leave it as it
    was. *)
Theorem scroll_accumulates (c : Controls) (events : list WheelEvent) :
  enabled c = true ->
  enableZoom c = true ->
  _scale (core (scroll events c))
  = _scale (core c) * zoom_step c ^ notches_in events
    / zoom_step c ^ notches_out events
  /\ (notches_in events = notches_out events ->
      _scale (core (scroll events c)) = _scale (core c)).
Proof.
  intros Hen Hzoom.
  pose proof (zoom_step_pos c) as Hk.
  destruct (scroll_run c events Hen Hzoom) as (_ & _ & _ & _ & _ & _ & _ & Hscale).
  split; [exact Hscale|].
  intros Heq. rewrite Hscale, Heq. field. apply pow_nonzero. lra.
Qed.

Lemma scroll_accumulates_witness :
  enabled idle = true
  /\ enableZoom idle = true
  /\ notches_in [mkWheelEvent 100; mkWheelEvent (-100); mkWheelEvent (-53);
                 mkWheelEvent 100]
     = notches_out [mkWheelEvent 100; mkWheelEvent (-100); mkWheelEvent (-53);
                    mkWheelEvent 100]
  /\ _scale (core (scroll [mkWheelEvent 100; mkWheelEvent (-100);
                           mkWheelEvent (-53); mkWheelEvent 100] idle))
     = _scale (core idle).
Proof.
  assert (Hen : enabled idle = true) by reflexivity.
  assert (Hzoom : enableZoom idle = true) by reflexivity.
  assert (Hbalance :
    notches_in [mkWheelEvent 100; mkWheelEvent (-100); mkWheelEvent (-53);
                mkWheelEvent 100]
    = notches_out [mkWheelEvent 100; mkWheelEvent (-100); mkWheelEvent (-53);
                   mkWheelEvent 100]).
  { unfold notches_in, notches_out. cbn [List.filter deltaY].
    repeat match goal with
           | |- context [Rlt_dec ?a ?b] => destruct (Rlt_dec a b); try lra
           end.
    reflexivity. }
  split; [exact Hen|]. split; [exact Hzoom|]. split; [exact Hbalance|].
  exact (proj2 (scroll_accumulates idle
                  [mkWheelEvent 100; mkWheelEvent (-100); mkWheelEvent (-53);
                   mkWheelEvent 100] Hen Hzoom) Hbalance).
Defined.

End Pointer.

(** ** Ticks *)

Section Ticks.

Import THREE OrbitControls OrbitInput Props Spec.
Local Open Scope R_scope.

(** The length of the vector of spherical coordinates is their radius. *)
Lemma norm_setFromSpherical (s : Spherical) :
  sqrt (x (setFromSpherical s) * x (setFromSpherical s)
        + y (setFromSpherical s) * y (setFromSpherical s)
        + z (setFromSpherical s) * z (setFromSpherical s))
  = Rabs (radius s).
Proof.
  unfold setFromSpherical. cbn [x y z].
  rewrite <- sqrt_Rsqr_abs. f_equal. unfold Rsqr.
  pose proof (sin2_cos2 (phi s)) as Hp. pose proof (sin2_cos2 (theta s)) as Ht.
  unfold Rsqr in Hp, Ht.
  replace (sin (phi s) * radius s * sin (theta s)
           * (sin (phi s) * radius s * sin (theta s))
           + cos (phi s) * radius s * (cos (phi s) * radius s)
           + sin (phi s) * radius s * cos (theta s)
             * (sin (phi s) * radius s * cos (theta s)))
    with (radius s * radius s
          * (sin (phi s) * sin (phi s)
             * (sin (theta s) * sin (theta s) + cos (theta s) * cos (theta s))
             + cos (phi s) * cos (phi s)))
    by ring.
  rewrite Ht, Rmult_1_r, Hp. ring.
Qed.

Lemma radius_setFromVector3 (v : Vector3) :
  radius (setFromVector3 v) = sqrt (x v * x v + y v * y v + z v * z v).
Proof.
  unfold setFromVector3.
  destruct (Req_dec_T (sqrt (x v * x v + y v * y v + z v * z v)) 0);
    reflexivity.
Qed.

(** Back from the vector, the polar angle is the one it was made from. *)
Lemma phi_setFromVector3_setFromSpherical (s : Spherical) :
  0 < radius s ->
  0 <= phi s <= PI ->
  phi (setFromVector3 (setFromSpherical s)) = phi s.
Proof.
  intros Hr Hphi. unfold setFromVector3.
  rewrite norm_setFromSpherical, Rabs_right by lra.
  destruct (Req_dec_T (radius s) 0) as [H0|_]; [lra|]. cbn [phi].
  unfold setFromSpherical at 1. cbn [y].
  replace (cos (phi s) * radius s / radius s) with (cos (phi s))
    by (field; lra).
  rewrite clamp_inside by (pose proof (COS_bound (phi s)); lra).
  apply acos_cos. exact Hphi.
Qed.

Lemma add_sub_cancel (t o : Vector3) : sub (add t o) t = o.
Proof. destruct t, o. unfold add, sub. cbn [x y z]. f_equal; ring. Qed.

Lemma distanceTo_norm (a b : Vector3) :
  distanceTo a b
  = sqrt (x (sub a b) * x (sub a b) + y (sub a b) * y (sub a b)
          + z (sub a b) * z (sub a b)).
Proof. reflexivity. Qed.

(** With no rotation and no zoom pending, a tick moves the camera by the
    pending pan and nothing else. *)
Lemma update_translates (c : State) :
  theta (_sphericalDelta c) = 0 ->
  phi (_sphericalDelta c) = 0 ->
  _scale c = 1 ->
  no_auto_rotation c ->
  0.01 <= polar_angle c <= PI - 0.01 ->
  camera_position (fst (update c)) = add (camera_position c) (_panOffset c).
Proof.
  intros Htheta Hphi Hscale Hidle Hrange.
  unfold polar_angle in Hrange. unfold update.
  assert (Hdelta :
    (if autoRotate c && is_none (_state c)
     then mkSpherical (radius (_sphericalDelta c)) (phi (_sphericalDelta c))
            (theta (_sphericalDelta c) - 2 * PI / 60 / 60 * autoRotateSpeed c)
     else _sphericalDelta c) = _sphericalDelta c).
  { destruct Hidle as [-> | Hbusy]; [reflexivity|].
    destruct (_state c); [contradiction| |]; rewrite andb_false_r;
      reflexivity. }
  rewrite Hdelta, Htheta, Hphi, Hscale.
  cbn [fst camera_position radius phi theta].
  set (s0 := setFromVector3 (sub (camera_position c) (target c))) in *.
  assert (Hclamp : Math_max 0.01 (Math_min (PI - 0.01) (phi s0 + 0)) = phi s0).
  { rewrite Rplus_0_r. unfold Math_max, Math_min.
    rewrite Rmin_right by lra. apply Rmax_right. lra. }
  rewrite Hclamp, makeSafe_inside by (cbn [phi]; exact Hrange).
  cbn [radius phi theta].
  replace (mkSpherical (radius s0 * 1) (phi s0) (theta s0 + 0)) with s0
    by (destruct s0; cbn [radius phi theta]; f_equal; ring).
  unfold s0. rewrite setFromSpherical_setFromVector3.
  destruct (camera_position c), (target c), (_panOffset c).
  unfold add, sub. cbn [x y z]. f_equal; ring.
Qed.

(** X4.  A tick with only a pan pending carries the camera and the target
    along by the pending pan: the view is shifted, not turned. *)
Theorem update_pans (c : State) :
  theta (_sphericalDelta c) = 0 ->
  phi (_sphericalDelta c) = 0 ->
  _scale c = 1 ->
  no_auto_rotation c ->
  0.01 <= polar_angle c <= PI - 0.01 ->
  camera_position (fst (update c)) = add (camera_position c) (_panOffset c)
  /\ target (fst (update c)) = add (target c) (_panOffset c)
  /\ sub (camera_position (fst (update c))) (target (fst (update c)))
     = sub (camera_position c) (target c).
Proof.
  intros Htheta Hphi Hscale Hidle Hrange.
  pose proof (update_translates c Htheta Hphi Hscale Hidle Hrange) as Hcam.
  split; [exact Hcam|]. split; [reflexivity|].
  rewrite Hcam. cbn [update fst target].
  destruct (camera_position c), (target c), (_panOffset c).
  unfold add, sub. cbn [x y z]. f_equal; ring.
Qed.

Lemma polar_angle_ahead (c : State) :
  camera_position c = mkVector3 0 0 1 ->
  target c = mkVector3 0 0 0 ->
  polar_angle c = PI / 2.
Proof.
  intros Hc Ht. unfold polar_angle. rewrite Hc, Ht.
  replace (sub (mkVector3 0 0 1) (mkVector3 0 0 0)) with (mkVector3 0 0 1)
    by (unfold sub; cbn [x y z]; f_equal; lra).
  rewrite setFromVector3_ahead. reflexivity.
Qed.

Lemma update_pans_witness :
  theta (_sphericalDelta shifting) = 0
  /\ phi (_sphericalDelta shifting) = 0
  /\ _scale shifting = 1
  /\ no_auto_rotation shifting
  /\ 0.01 <= polar_angle shifting <= PI - 0.01
  /\ camera_position (fst (update shifting))
     = add (camera_position shifting) (_panOffset shifting)
  /\ target (fst (update shifting))
     = add (target shifting) (_panOffset shifting)
  /\ sub (camera_position (fst (update shifting))) (target (fst (update shifting)))
     = sub (camera_position shifting) (target shifting).
Proof.
  assert (Hidle : no_auto_rotation shifting) by (left; reflexivity).
  assert (Hrange : 0.01 <= polar_angle shifting <= PI - 0.01).
  { rewrite (polar_angle_ahead shifting eq_refl eq_refl).
    pose proof PI_gt_3. lra. }
  split; [reflexivity|]. split; [reflexivity|]. split; [reflexivity|].
  split; [exact Hidle|]. split; [exact Hrange|].
  exact (update_pans shifting eq_refl eq_refl eq_refl Hidle Hrange).
Defined.

(** X5.  A tick changes the distance from the camera to the target by the
    pending zoom scale and by nothing else, whatever rotation and pan are
    pending. *)
Theorem update_scales_distance (c : State) :
  0 <= _scale c ->
  distanceTo (camera_position (fst (update c))) (target (fst (update c)))
  = distanceTo (camera_position c) (target c) * _scale c.
Proof.
  intros Hscale. rewrite !distanceTo_norm.
  cbn [update fst camera_position target]. rewrite add_sub_cancel.
  rewrite norm_setFromSpherical. cbn [radius makeSafe].
  rewrite radius_setFromVector3.
  apply Rabs_right. apply Rle_ge. apply Rmult_le_pos; [apply sqrt_pos|exact Hscale].
Qed.

Lemma update_scales_distance_witness :
  0 <= _scale zooming
  /\ distanceTo (camera_position (fst (update zooming)))
       (target (fst (update zooming)))
     = distanceTo (camera_position zooming) (target zooming) * _scale zooming.
Proof.
  assert (Hscale : 0 <= _scale zooming)
    by (change (_scale zooming) with 0.9; lra).
  split; [exact Hscale|]. exact (update_scales_distance zooming Hscale).
Defined.

(** X6.  Ticks consume what is pending: after a tick a second tick leaves
    the camera and the target where the first one put them, as long as the
    automatic rotation does not apply and the camera is not at the target. *)
Theorem update_twice (c : State) :
  no_auto_rotation c ->
  0 < _scale c ->
  camera_position c <> target c ->
  camera_position (fst (update (fst (update c))))
  = camera_position (fst (update c))
  /\ target (fst (update (fst (update c)))) = target (fst (update c)).
Proof.
  intros Hidle Hscale Hapart.
  set (c1 := fst (update c)).
  assert (Hr0 : 0 < radius (setFromVector3 (sub (camera_position c) (target c)))).
  { rewrite radius_setFromVector3.
    apply sqrt_lt_R0.
    destruct (camera_position c) as [a1 a2 a3], (target c) as [b1 b2 b3].
    unfold sub. cbn [x y z].
    assert (Hne : a1 - b1 <> 0 \/ a2 - b2 <> 0 \/ a3 - b3 <> 0).
    { destruct (Req_dec a1 b1) as [-> |]; [|left; lra].
      destruct (Req_dec a2 b2) as [-> |]; [|right; left; lra].
      destruct (Req_dec a3 b3) as [-> |]; [|right; right; lra].
      contradiction Hapart. reflexivity. }
    pose proof (Rle_0_sqr (a1 - b1)) as H1.
    pose proof (Rle_0_sqr (a2 - b2)) as H2.
    pose proof (Rle_0_sqr (a3 - b3)) as H3.
    destruct Hne as [H|[H|H]]; apply Rsqr_pos_lt in H; unfold Rsqr in *; lra. }
  assert (Hidle1 : no_auto_rotation c1)
    by (destruct Hidle as [Hoff|Hbusy]; [left|right]; assumption).
  assert (Hrange1 : 0.01 <= polar_angle c1 <= PI - 0.01).
  { unfold polar_angle, c1. cbn [update fst camera_position target].
    rewrite add_sub_cancel.
    rewrite makeSafe_inside by (cbn [phi]; apply polar_clamp_range).
    rewrite phi_setFromVector3_setFromSpherical.
    - cbn [phi]. apply polar_clamp_range.
    - cbn [radius]. apply Rmult_lt_0_compat; assumption.
    - cbn [phi].
      match goal with
      | |- _ <= Math_max _ (Math_min _ ?v) <= _ =>
          pose proof (polar_clamp_range v)
      end.
      pose proof PI_gt_3. lra. }
  split.
  - rewrite (update_translates c1 eq_refl eq_refl eq_refl Hidle1 Hrange1).
    destruct (camera_position c1). unfold add. cbn. f_equal; ring.
  - cbn [update fst target c1 _panOffset].
    destruct (add (target c) (_panOffset c)).
    unfold add. cbn [x y z]. f_equal; ring.
Qed.

Lemma update_twice_witness :
  no_auto_rotation shifting
  /\ 0 < _scale shifting
  /\ camera_position shifting <> target shifting
  /\ camera_position (fst (update (fst (update shifting))))
     = camera_position (fst (update shifting))
  /\ target (fst (update (fst (update shifting))))
     = target (fst (update shifting)).
Proof.
  assert (Hidle : no_auto_rotation shifting) by (left; reflexivity).
  assert (Hscale : 0 < _scale shifting)
    by (change (_scale shifting) with 1; lra).
  assert (Hapart : camera_position shifting <> target shifting)
    by (intros H; apply (f_equal z) in H; cbn in H; lra).
  split; [exact Hidle|]. split; [exact Hscale|]. split; [exact Hapart|].
  exact (update_twice shifting Hidle Hscale Hapart).
Defined.

End Ticks.

(** ** What the controls keep through any run of events *)

Section Gates.

Import THREE OrbitControls OrbitInput Props.
Local Open Scope R_scope.

Lemma acts_snoc (l : list action) (a : action) (c : Controls) :
  acts (l ++ [a]) c = act a (acts l c).
Proof. unfold acts. rewrite fold_left_app. reflexivity. Qed.

(** No handler and no method changes a setting. *)
Lemma act_settings (a : action) (c : Controls) :
  enabled (act a c) = enabled c
  /\ enableZoom (act a c) = enableZoom c
  /\ enableRotate (act a c) = enableRotate c
  /\ enablePan (act a c) = enablePan c.
Proof.
  destruct c.
  destruct a as [e|e| |e| | | | | ]; cbn [act];
    unfold _onMouseDown, _onMouseMove, _onMouseUp, _onMouseWheel,
      _onContextMenu, tick, reset, setAutoRotateSpeed, toggleAutoRotate;
    cbn [enabled enableZoom enableRotate enablePan core];
    repeat match goal with
           | |- context [if ?b then _ else _] => destruct b
           | |- context [match _state ?s with _ => _ end] => destruct (_state s)
           end;
    cbn [fst with_core with_rotate with_pan with_listeners
         enabled enableZoom enableRotate enablePan];
    repeat split; reflexivity.
Qed.

Lemma acts_settings (l : list action) (c : Controls) :
  enabled (acts l c) = enabled c
  /\ enableZoom (acts l c) = enableZoom c
  /\ enableRotate (acts l c) = enableRotate c
  /\ enablePan (acts l c) = enablePan c.
Proof.
  induction l as [|a l IH] using rev_ind; [repeat split; reflexivity|].
  rewrite acts_snoc.
  destruct (act_settings a (acts l c)) as (-> & -> & -> & ->). exact IH.
Qed.

Lemma act_listening (a : action) (c : Controls) :
  listening c -> listening (act a c).
Proof.
  unfold listening. intros Hc.
  destruct a as [e|e| |e| | | | | ]; cbn [act].
  - unfold _onMouseDown. destruct (enabled c); cbn [negb fst]; [|exact Hc].
    match goal with
    | |- context [is_none (_state (core ?c1))] =>
        destruct (is_none (_state (core c1))) eqn:Enone
    end.
    + intros Hbusy. exfalso. apply Hbusy.
      match type of Enone with
      | is_none ?m = true => destruct m; [reflexivity|discriminate..]
      end.
    + intros _. split; reflexivity.
  - unfold _onMouseMove. destruct (enabled c); cbn [negb fst]; [|exact Hc].
    destruct (_state (core c)) eqn:Est; cbn [fst];
      [intros Hbusy; rewrite Est in Hbusy; contradiction| |];
      intros _; cbn [listeners with_rotate with_pan with_core];
      apply Hc; discriminate.
  - intros Hbusy. exfalso. apply Hbusy. reflexivity.
  - unfold _onMouseWheel.
    destruct (negb (enabled c) || negb (enableZoom c)); cbn [fst]; [exact Hc|].
    destruct (Rlt_dec 0 (deltaY e)); [|destruct (Rlt_dec (deltaY e) 0)];
      exact Hc.
  - unfold _onContextMenu. destruct (negb (enabled c)); exact Hc.
  - exact Hc.
  - intros Hbusy. exfalso. apply Hbusy. reflexivity.
  - exact Hc.
  - exact Hc.
Qed.

(** X7.  From their construction on, through any run of events, ticks and
    calls, the controls have their two listeners on the document whenever a
    drag is in progress, so that the drag can be followed and ended. *)
Theorem listening_always (position lookedAt : Vector3) (height : R)
    (l : list action) :
  listening (acts l (constructor position lookedAt height)).
Proof.
  induction l as [|a l IH] using rev_ind.
  - intros Hbusy. exfalso. apply Hbusy. reflexivity.
  - rewrite acts_snoc. apply act_listening. exact IH.
Qed.

(** One event on controls that are switched off. *)
Lemma act_disabled (a : action) (c : Controls) :
  enabled c = false ->
  is_input a = true ->
  act a c = c \/ act a c = _onMouseUp c.
Proof.
  intros Hoff Hin.
  destruct a as [e|e| |e| | | | | ]; try discriminate; cbn [act].
  - left. unfold _onMouseDown. rewrite Hoff. reflexivity.
  - left. unfold _onMouseMove. rewrite Hoff. reflexivity.
  - right. reflexivity.
  - left. unfold _onMouseWheel. rewrite Hoff. reflexivity.
  - left. unfold _onContextMenu. rewrite Hoff. reflexivity.
Qed.

(** X8.  Controls that are switched off ignore the pointer and the wheel:
    through any run of events nothing becomes pending, the camera and the
    target stay, no drag starts and no listener is added to the document.
    Only a release of the button is still heard; it ends a drag that was in
    progress. *)
Theorem disabled_controls_ignore_input (c : Controls) (l : list action) :
  enabled c = false ->
  forallb is_input l = true ->
  _sphericalDelta (core (acts l c)) = _sphericalDelta (core c)
  /\ _scale (core (acts l c)) = _scale (core c)
  /\ _panOffset (core (acts l c)) = _panOffset (core c)
  /\ camera_position (core (acts l c)) = camera_position (core c)
  /\ target (core (acts l c)) = target (core c)
  /\ (_state (core (acts l c)) = _state (core c)
      \/ _state (core (acts l c)) = none)
  /\ (doc_mousemove (listeners (acts l c)) = true ->
      doc_mousemove (listeners c) = true)
  /\ (doc_mouseup (listeners (acts l c)) = true ->
      doc_mouseup (listeners c) = true).
Proof.
  intros Hoff. induction l as [|a l IH] using rev_ind; intros Hin.
  - repeat split; auto.
  - rewrite forallb_app in Hin. apply andb_prop in Hin as [Hl Ha].
    cbn [forallb] in Ha. rewrite andb_true_r in Ha.
    destruct (IH Hl) as (Hd & Hk & Hp & Hc & Ht & Hs & Hm & Hu).
    rewrite acts_snoc.
    assert (Hoff' : enabled (acts l c) = false)
      by (rewrite (proj1 (acts_settings l c)); exact Hoff).
    destruct (act_disabled a (acts l c) Hoff' Ha) as [-> | ->].
    + repeat split; assumption.
    + unfold _onMouseUp.
      cbn [core with_core with_listeners set_state _sphericalDelta _scale
           _panOffset camera_position target _state listeners doc_mousemove
           doc_mouseup].
      repeat split; try assumption; try (right; reflexivity); discriminate.
Qed.

Lemma disabled_controls_ignore_input_witness :
  enabled disabled = false
  /\ forallb is_input gesture = true
  /\ _sphericalDelta (core (acts gesture disabled))
     = _sphericalDelta (core disabled)
  /\ _scale (core (acts gesture disabled)) = _scale (core disabled)
  /\ _panOffset (core (acts gesture disabled)) = _panOffset (core disabled)
  /\ camera_position (core (acts gesture disabled))
     = camera_position (core disabled)
  /\ target (core (acts gesture disabled)) = target (core disabled)
  /\ (_state (core (acts gesture disabled)) = _state (core disabled)
      \/ _state (core (acts gesture disabled)) = none)
  /\ (doc_mousemove (listeners (acts gesture disabled)) = true ->
      doc_mousemove (listeners disabled) = true)
  /\ (doc_mouseup (listeners (acts gesture disabled)) = true ->
      doc_mouseup (listeners disabled) = true).
Proof.
  split; [reflexivity|]. split; [reflexivity|].
  exact (disabled_controls_ignore_input disabled gesture eq_refl eq_refl).
Defined.

(** The state after one event, by cases. *)
Lemma act_state (a : action) (c : Controls) :
  _state (core (act a c)) = _state (core c)
  \/ _state (core (act a c)) = none
  \/ (_state (core (act a c)) = rotate /\ enableRotate c = true)
  \/ (_state (core (act a c)) = pan /\ enablePan c = true).
Proof.
  destruct a as [e|e| |e| | | | | ]; cbn [act].
  - unfold _onMouseDown. destruct (enabled c); cbn [negb]; [|left; reflexivity].
    destruct (Z.eqb (button e) 0).
    + destruct (enableRotate c) eqn:Er.
      * right. right. left. split; [|reflexivity]. cbn. reflexivity.
      * left. destruct (is_none (_state (core c))); reflexivity.
    + destruct (Z.eqb (button e) 1 || Z.eqb (button e) 2).
      * destruct (enablePan c) eqn:Ep.
        -- right. right. right. split; [|reflexivity]. cbn. reflexivity.
        -- left. destruct (is_none (_state (core c))); reflexivity.
      * left. destruct (is_none (_state (core c))); reflexivity.
  - left. unfold _onMouseMove. destruct (enabled c); cbn [negb]; [|reflexivity].
    destruct (_state (core c)) eqn:Est; cbn; congruence.
  - right. left. reflexivity.
  - left. unfold _onMouseWheel.
    destruct (negb (enabled c) || negb (enableZoom c)); [reflexivity|].
    destruct (Rlt_dec 0 (deltaY e)); [|destruct (Rlt_dec (deltaY e) 0)];
      reflexivity.
  - left. unfold _onContextMenu. destruct (negb (enabled c)); reflexivity.
  - left. reflexivity.
  - right. left. reflexivity.
  - left. reflexivity.
  - left. reflexivity.
Qed.

(** The pending zoom after one event of the browser on controls whose zoom
    is switched off. *)
Lemma act_zoom_off (a : action) (c : Controls) :
  enableZoom c = false ->
  is_input a = true ->
  _scale (core (act a c)) = _scale (core c).
Proof.
  intros Hoff Hin.
  destruct a as [e|e| |e| | | | | ]; try discriminate; cbn [act].
  - unfold _onMouseDown. destruct c. cbn [enabled enableRotate enablePan core].
    repeat match goal with
           | |- context [if ?b then _ else _] => destruct b
           end; reflexivity.
  - unfold _onMouseMove. destruct (negb (enabled c)); [reflexivity|].
    destruct (_state (core c)); reflexivity.
  - reflexivity.
  - unfold _onMouseWheel. rewrite Hoff, orb_true_r. reflexivity.
  - unfold _onContextMenu. destruct (negb (enabled c)); reflexivity.
Qed.

(** X9.  The three gestures have their switches: with [enableRotate] off no
    run of events, ticks and calls puts the controls into the rotating
    state, with [enablePan] off none puts them into the panning state, and
    with [enableZoom] off no run of events changes the pending zoom. *)
Theorem gesture_switches (c : Controls) (l : list action) :
  (enableRotate c = false ->
   _state (core c) <> rotate ->
   _state (core (acts l c)) <> rotate)
  /\ (enablePan c = false ->
      _state (core c) <> pan ->
      _state (core (acts l c)) <> pan)
  /\ (enableZoom c = false ->
      forallb is_input l = true ->
      _scale (core (acts l c)) = _scale (core c)).
Proof.
  split; [|split].
  - intros Hoff Hstart. induction l as [|a l IH] using rev_ind; [exact Hstart|].
    rewrite acts_snoc.
    destruct (act_state a (acts l c)) as [H|[H|[[_ H]|[H _]]]].
    + rewrite H. exact IH.
    + rewrite H. discriminate.
    + rewrite (proj1 (proj2 (proj2 (acts_settings l c)))), Hoff in H.
      discriminate.
    + rewrite H. discriminate.
  - intros Hoff Hstart. induction l as [|a l IH] using rev_ind; [exact Hstart|].
    rewrite acts_snoc.
    destruct (act_state a (acts l c)) as [H|[H|[[H _]|[_ H]]]].
    + rewrite H. exact IH.
    + rewrite H. discriminate.
    + rewrite H. discriminate.
    + rewrite (proj2 (proj2 (proj2 (acts_settings l c)))), Hoff in H.
      discriminate.
  - intros Hoff. induction l as [|a l IH] using rev_ind; intros Hin;
      [reflexivity|].
    rewrite forallb_app in Hin. apply andb_prop in Hin as [Hl Ha].
    cbn [forallb] in Ha. rewrite andb_true_r in Ha.
    rewrite acts_snoc, act_zoom_off; [exact (IH Hl)| |exact Ha].
    rewrite (proj1 (proj2 (acts_settings l c))). exact Hoff.
Qed.

Lemma gesture_switches_witness :
  (enableRotate locked = false
   /\ _state (core locked) <> rotate
   /\ _state (core (acts (gesture ++ [Tick; Reset]) locked)) <> rotate)
  /\ (enablePan locked = false
      /\ _state (core locked) <> pan
      /\ _state (core (acts (gesture ++ [Tick; Reset]) locked)) <> pan)
  /\ (enableZoom locked = false
      /\ forallb is_input gesture = true
      /\ _scale (core (acts gesture locked)) = _scale (core locked)).
Proof.
  assert (Hidle : _state (core locked) = none) by reflexivity.
  split; [|split].
  - split; [reflexivity|]. split; [rewrite Hidle; discriminate|].
    apply (proj1 (gesture_switches locked (gesture ++ [Tick; Reset])));
      [reflexivity|rewrite Hidle; discriminate].
  - split; [reflexivity|]. split; [rewrite Hidle; discriminate|].
    apply (proj1 (proj2 (gesture_switches locked (gesture ++ [Tick; Reset]))));
      [reflexivity|rewrite Hidle; discriminate].
  - split; [reflexivity|]. split; [reflexivity|].
    apply (proj2 (proj2 (gesture_switches locked gesture))); reflexivity.
Defined.

End Gates.

(** ** The configuration *)

Section Configuration.

Import THREE DNAVisualizer Spec Props.
Local Open Scope R_scope.

Lemma setConfig_config_own (st : State) (key other : string) (value : R) :
  other <> key ->
  config_own (config (fst (setConfig key value st))) other
  = config_own (config st) other.
Proof.
  intros Hother. unfold setConfig, config_own. run.
  destruct (String.eqb_spec key "helixTurns") as [->|_];
    [|destruct (String.eqb_spec key "helixRadius") as [->|_];
      [|destruct (String.eqb_spec key "backboneThickness") as [->|_];
        [|destruct (String.eqb_spec key "height") as [->|_];
          [|destruct (String.eqb_spec key "pointsPerTurn") as [->|_]]]]];
    cbn [fst config helixTurns helixRadius backboneThickness height
         pointsPerTurn];
    try reflexivity;
    destruct (String.eqb_spec other "helixTurns") as [->|_];
    try contradiction; try reflexivity;
    destruct (String.eqb_spec other "helixRadius") as [->|_];
    try contradiction; try reflexivity;
    destruct (String.eqb_spec other "backboneThickness") as [->|_];
    try contradiction; try reflexivity;
    destruct (String.eqb_spec other "height") as [->|_];
    try contradiction; try reflexivity;
    destruct (String.eqb_spec other "pointsPerTurn") as [->|_];
    try contradiction; reflexivity.
Qed.

(** X10.  The configuration is an object with five keys of its own.
    Setting one of them and reading it gives the value back; setting a key
    leaves what is read under every other key as it was; setting any other
    key changes nothing, and reading one answers with the member that every
    object inherits under that name, such as [toString] or [constructor],
    when there is one, and with [undefined] otherwise.  Setting never
    touches the scene, the current group or the loaded data: the helix on
    display stays as it is until it is rebuilt. *)
Theorem setConfig_getConfig (st : State) (key : string) (value : R) :
  (known_key key = true ->
   snd (getConfig key (fst (setConfig key value st))) = Return (Own value))
  /\ (known_key key = false ->
      setConfig key value st = (st, Return tt)
      /\ snd (getConfig key st)
         = Return (if inherited key then Inherited key else Undefined))
  /\ (forall other : string,
        other <> key ->
        snd (getConfig other (fst (setConfig key value st)))
        = snd (getConfig other st))
  /\ scene (fst (setConfig key value st)) = scene st
  /\ dnaGroup (fst (setConfig key value st)) = dnaGroup st
  /\ lastLoadedData (fst (setConfig key value st)) = lastLoadedData st
  /\ selectedType (fst (setConfig key value st)) = selectedType st.
Proof.
  split; [|split; [|split]].
  - unfold known_key, setConfig, getConfig, config_own. run. intros Hknown.
    destruct (String.eqb key "helixTurns") eqn:E1; [reflexivity|].
    destruct (String.eqb key "helixRadius") eqn:E2; [reflexivity|].
    destruct (String.eqb key "backboneThickness") eqn:E3; [reflexivity|].
    destruct (String.eqb key "height") eqn:E4; [reflexivity|].
    destruct (String.eqb key "pointsPerTurn") eqn:E5; [reflexivity|].
    discriminate.
  - unfold known_key, setConfig, getConfig, config_own. run. intros Hunknown.
    destruct (String.eqb key "helixTurns"); [discriminate|].
    destruct (String.eqb key "helixRadius"); [discriminate|].
    destruct (String.eqb key "backboneThickness"); [discriminate|].
    destruct (String.eqb key "height"); [discriminate|].
    destruct (String.eqb key "pointsPerTurn"); [discriminate|].
    split; reflexivity.
  - intros other Hother.
    pose proof (setConfig_config_own st key other value Hother) as Hown.
    unfold getConfig. run. cbn [snd]. rewrite Hown. reflexivity.
  - unfold setConfig. run.
    repeat match goal with
           | |- context [if ?b then _ else _] => destruct b
           end; repeat split; reflexivity.
Qed.

Lemma setConfig_getConfig_witness :
  (known_key "helixRadius" = true
   /\ snd (getConfig "helixRadius" (fst (setConfig "helixRadius" 14 fresh)))
      = Return (Own 14))
  /\ (known_key "colour" = false
      /\ setConfig "colour" 14 fresh = (fresh, Return tt)
      /\ snd (getConfig "colour" fresh) = Return Undefined)
  /\ (known_key "toString" = false
      /\ setConfig "toString" 14 fresh = (fresh, Return tt)
      /\ snd (getConfig "toString" fresh) = Return (Inherited "toString"))
  /\ ("helixTurns" <> "helixRadius"
      /\ snd (getConfig "helixTurns" (fst (setConfig "helixRadius" 14 fresh)))
         = snd (getConfig "helixTurns" fresh)).
Proof.
  split; [|split; [|split]].
  - split; [reflexivity|].
    apply (proj1 (setConfig_getConfig fresh "helixRadius" 14)). reflexivity.
  - split; [reflexivity|].
    apply (proj1 (proj2 (setConfig_getConfig fresh "colour" 14))). reflexivity.
  - split; [reflexivity|].
    apply (proj1 (proj2 (setConfig_getConfig fresh "toString" 14))).
    reflexivity.
  - split; [discriminate|].
    apply (proj1 (proj2 (proj2 (setConfig_getConfig fresh "helixRadius" 14)))).
    discriminate.
Defined.

End Configuration.

(** ** The scene and the current group *)

Section Facade.

Import THREE DNAVisualizer Spec Props.
Local Open Scope R_scope.

Lemma scene_remove_In (l : list Group) (g o : Group) :
  In o (scene_remove l g) <-> In o l /\ id o <> id g.
Proof.
  unfold scene_remove. rewrite List.filter_In.
  split; intros [Hin Hid]; split; try exact Hin.
  - apply Bool.negb_true_iff in Hid. apply Nat.eqb_neq in Hid. exact Hid.
  - apply Bool.negb_true_iff. apply Nat.eqb_neq. exact Hid.
Qed.

Lemma scene_remove_absent (l : list Group) (g : Group) :
  (forall o, In o l -> id o <> id g) -> scene_remove l g = l.
Proof.
  induction l as [|a l IH]; intros Habs; [reflexivity|].
  unfold scene_remove in *. cbn [List.filter].
  destruct (Nat.eqb_spec (id a) (id g)) as [Heq|_].
  - exfalso. apply (Habs a); [left; reflexivity|exact Heq].
  - cbn [negb]. f_equal. apply IH. intros o Ho. apply Habs. right. exact Ho.
Qed.

Lemma scene_remove_NoDup (l : list Group) (g : Group) :
  List.NoDup (map id l) -> List.NoDup (map id (scene_remove l g)).
Proof.
  induction l as [|a l IH]; intros Hnd; [constructor|].
  cbn [map] in Hnd. apply List.NoDup_cons_iff in Hnd as [Hfresh Hnd].
  change (scene_remove (a :: l) g)
    with (if negb (Nat.eqb (id a) (id g)) then a :: scene_remove l g
          else scene_remove l g).
  destruct (negb (Nat.eqb (id a) (id g))); [|exact (IH Hnd)].
  cbn [map]. apply List.NoDup_cons; [|exact (IH Hnd)].
  intros Hin. apply List.in_map_iff in Hin as (o & Hid & Ho).
  apply scene_remove_In in Ho as [Ho _].
  apply Hfresh. apply List.in_map_iff. exists o. split; assumption.
Qed.

Lemma scene_remove_length (l : list Group) (g : Group) :
  List.NoDup (map id l) -> In g l ->
  S (length (scene_remove l g)) = length l.
Proof.
  induction l as [|a l IH]; intros Hnd Hin; [contradiction|].
  cbn [map] in Hnd. apply List.NoDup_cons_iff in Hnd as [Hfresh Hnd].
  change (scene_remove (a :: l) g)
    with (if negb (Nat.eqb (id a) (id g)) then a :: scene_remove l g
          else scene_remove l g).
  destruct (Nat.eqb_spec (id a) (id g)) as [Heq|Hneq]; cbn [negb].
  - rewrite scene_remove_absent; [reflexivity|].
    intros o Ho Hid. apply Hfresh. rewrite Heq, <- Hid.
    apply List.in_map. exact Ho.
  - destruct Hin as [->|Hin]; [contradiction|].
    cbn [length]. rewrite (IH Hnd Hin). reflexivity.
Qed.

Lemma same_id_same_group (l : list Group) (a b : Group) :
  List.NoDup (map id l) -> In a l -> In b l -> id a = id b -> a = b.
Proof.
  induction l as [|c l IH]; intros Hnd Ha Hb Hid; [contradiction|].
  cbn [map] in Hnd. apply List.NoDup_cons_iff in Hnd as [Hfresh Hnd].
  destruct Ha as [->|Ha], Hb as [->|Hb].
  - reflexivity.
  - exfalso. apply Hfresh. rewrite Hid. apply List.in_map. exact Hb.
  - exfalso. apply Hfresh. rewrite <- Hid. apply List.in_map. exact Ha.
  - exact (IH Hnd Ha Hb Hid).
Qed.

Lemma NoDup_snoc_fresh (l : list Group) (g : Group) :
  List.NoDup (map id l) ->
  (forall o, In o l -> (id o < id g)%nat) ->
  List.NoDup (map id (l ++ [g])).
Proof.
  induction l as [|a l IH]; intros Hnd Hlt.
  - cbn. apply List.NoDup_cons; [intros []|constructor].
  - cbn [map app] in *. apply List.NoDup_cons_iff in Hnd as [Hfresh Hnd].
    apply List.NoDup_cons.
    + rewrite List.map_app. intros Hin. apply List.in_app_or in Hin as [Hin|Hin].
      * exact (Hfresh Hin).
      * cbn in Hin. destruct Hin as [Hin|[]].
        specialize (Hlt a (or_introl eq_refl)). lia.
    + apply IH; [exact Hnd|]. intros o Ho. apply Hlt. right. exact Ho.
Qed.

(** The loop over the segments only draws random numbers, also when it
    throws. *)
Lemma add_segment_advances (radius turns height : R) (n i : nat)
    (e : entry) (st : State) :
  exists k : nat,
    fst (add_segment radius turns height n i e st) = advance st k.
Proof.
  unfold add_segment. run. destruct e as [|s].
  - exists 0%nat. cbn. rewrite advance_0. reflexivity.
  - cbn [fields].
    destruct (segment_type s), (pct_change s) as [p|];
      try (exists 0%nat; cbn; rewrite advance_0; reflexivity).
    destruct (Rlt_dec 5 (Rabs p)); [destruct (Rlt_dec 8 (Rabs p))|].
    + exists 4%nat. reflexivity.
    + exists 2%nat. reflexivity.
    + exists 0%nat. cbn. rewrite advance_0. reflexivity.
Qed.

Lemma add_segments_advances (radius turns height : R) (n : nat)
    (data : list entry) :
  forall (i : nat) (st : State),
    exists k : nat,
      fst (add_segments radius turns height n i data st) = advance st k.
Proof.
  induction data as [|e data IH]; intros i st.
  - exists 0%nat. cbn. rewrite advance_0. reflexivity.
  - cbn [add_segments]. unfold mbind at 1, M_bind at 1.
    destruct (add_segment_advances radius turns height n i e st) as [k1 Hk1].
    destruct (add_segment radius turns height n i e st) as [st1 [added|err]];
      cbn [fst] in Hk1; subst st1; [|exists k1; reflexivity].
    unfold mbind at 1, M_bind at 1.
    destruct (IH (S i) (advance st k1)) as [k2 Hk2].
    destruct (add_segments radius turns height n (S i) data (advance st k1))
      as [st2 [more|err]]; cbn [fst] in Hk2; subst st2;
      exists (k1 + k2)%nat; unfold mret, M_ret; cbn [fst];
      apply advance_advance.
Qed.

(** What [createDNAHelix] does to the visualiser, whatever it is given. *)
Lemma createDNAHelix_frame (data : list entry) (st : State) :
  exists k : nat,
    match snd (createDNAHelix data st) with
    | Return g =>
        id g = next_id st
        /\ (length data = 0%nat -> children g = [])
        /\ fst (createDNAHelix data st)
           = mkState (scene st)
               (if Nat.eqb (length data) 0 then dnaGroup st else Some g)
               (lastLoadedData st) (selectedType st) (config st)
               (S (next_id st)) (entropy st) (k + drawn st)
    | Throws _ =>
        fst (createDNAHelix data st)
        = mkState (scene st) (dnaGroup st) (lastLoadedData st)
            (selectedType st) (config st) (S (next_id st)) (entropy st)
            (k + drawn st)
    end.
Proof.
  unfold createDNAHelix. run.
  destruct (Nat.eqb_spec (length data) 0) as [Hlen|Hlen].
  - exists 0%nat. cbn. auto.
  - unfold lift. tubes; try (exists 0%nat; reflexivity).
    match goal with
    | |- context [add_segments ?r ?t ?h ?n ?i data ?s] =>
        destruct (add_segments_advances r t h n data i s) as [k Hk];
        destruct (add_segments r t h n i data s) as [st1 [ms|err]]
    end; cbn [fst] in Hk; subst st1; exists k; cbn.
    + split; [reflexivity|]. split; [intros H; contradiction|reflexivity].
    + reflexivity.
Qed.

Lemma cleared_fields (st : State) :
  dnaGroup (cleared st) = None
  /\ lastLoadedData (cleared st) = lastLoadedData st
  /\ selectedType (cleared st) = selectedType st
  /\ config (cleared st) = config st
  /\ next_id (cleared st) = next_id st
  /\ entropy (cleared st) = entropy st
  /\ drawn (cleared st) = drawn st.
Proof.
  unfold cleared. destruct (dnaGroup st) eqn:E; cbn; rewrite ?E; auto 10.
Qed.

Lemma rebuildDNA_unfold (data : list entry) (st : State) :
  rebuildDNA data st
  = match createDNAHelix data (cleared st) with
    | (st1, Return g) => (shown st1 g, Return g)
    | (st1, Throws e) => (st1, Throws e)
    end.
Proof.
  unfold rebuildDNA. unfold mbind at 1, M_bind at 1.
  rewrite clearScene_cleared. unfold mbind at 1, M_bind at 1.
  destruct (createDNAHelix data (cleared st)) as [st1 [g|err]]; reflexivity.
Qed.

(** What [rebuildDNA] does to the visualiser, whatever it is given. *)
Lemma rebuildDNA_frame (data : list entry) (st : State) :
  exists k : nat,
    match snd (rebuildDNA data st) with
    | Return g =>
        id g = next_id st
        /\ (length data = 0%nat -> children g = [])
        /\ fst (rebuildDNA data st)
           = mkState (scene (cleared st) ++ [g])
               (if Nat.eqb (length data) 0 then None else Some g)
               (lastLoadedData st) (selectedType st) (config st)
               (S (next_id st)) (entropy st) (k + drawn st)
    | Throws _ =>
        fst (rebuildDNA data st)
        = mkState (scene (cleared st)) None (lastLoadedData st)
            (selectedType st) (config st) (S (next_id st)) (entropy st)
            (k + drawn st)
    end.
Proof.
  rewrite rebuildDNA_unfold.
  destruct (createDNAHelix_frame data (cleared st)) as [k Hk].
  destruct (cleared_fields st) as (Hg & Hd & Ht & Hc & Hn & He & Hr).
  rewrite Hg, Hd, Ht, Hc, Hn, He, Hr in Hk.
  destruct (createDNAHelix data (cleared st)) as [st1 [g|err]];
    cbn [fst snd] in Hk |- *; exists k.
  - destruct Hk as (Hid & Hkids & ->).
    split; [exact Hid|]. split; [exact Hkids|].
    unfold shown, scene_add. cbn.
    destruct (Nat.eqb (length data) 0); reflexivity.
  - exact Hk.
Qed.

Lemma config_rebuildDNA (data : list entry) (st : State) :
  config (fst (rebuildDNA data st)) = config st.
Proof.
  destruct (rebuildDNA_frame data st) as [k Hk].
  destruct (snd (rebuildDNA data st)) as [g|e].
  - destruct Hk as (_ & _ & ->). reflexivity.
  - rewrite Hk. reflexivity.
Qed.

Lemma whole_turns_showing : whole_turns showing.
Proof.
  apply (whole_turns_config fresh); [apply config_rebuildDNA|].
  exact whole_turns_fresh.
Qed.

Lemma consistent_cleared (st : State) : consistent st -> consistent (cleared st).
Proof.
  intros (Hnd & Hlt & Hcur). unfold consistent, cleared.
  destruct (dnaGroup st) as [g|] eqn:Eg; cbn [scene dnaGroup next_id].
  - split; [apply scene_remove_NoDup; exact Hnd|]. split.
    + apply List.Forall_forall. intros o Ho.
      apply scene_remove_In in Ho as [Ho _].
      rewrite List.Forall_forall in Hlt. exact (Hlt o Ho).
    + intros h [=].
  - split; [exact Hnd|]. split; [exact Hlt|].
    intros h Hh. rewrite Eg in Hh. discriminate.
Qed.

Lemma consistent_rebuildDNA (data : list entry) (st : State) :
  consistent st -> consistent (fst (rebuildDNA data st)).
Proof.
  intros Hst. destruct (consistent_cleared st Hst) as (Hnd & Hlt & _).
  destruct (cleared_fields st) as (_ & _ & _ & _ & Hn & _ & _).
  rewrite Hn in Hlt. rewrite List.Forall_forall in Hlt.
  destruct (rebuildDNA_frame data st) as [k Hk].
  destruct (snd (rebuildDNA data st)) as [g|e].
  - destruct Hk as (Hid & _ & ->). unfold consistent.
    cbn [scene dnaGroup next_id]. split; [|split].
    + apply NoDup_snoc_fresh; [exact Hnd|].
      intros o Ho. rewrite Hid. exact (Hlt o Ho).
    + apply List.Forall_forall. intros o Ho.
      apply List.in_app_or in Ho as [Ho|[<-|[]]].
      * specialize (Hlt o Ho). lia.
      * lia.
    + intros h Hh. destruct (Nat.eqb (length data) 0); [discriminate|].
      injection Hh as <-. apply List.in_or_app. right. left. reflexivity.
  - rewrite Hk. unfold consistent. cbn [scene dnaGroup next_id].
    split; [exact Hnd|]. split; [|intros h [=]].
    apply List.Forall_forall. intros o Ho. specialize (Hlt o Ho). lia.
Qed.

(** The three ways in which [loadFromText] leaves the visualiser: as it
    was, with the data stored, or with the data stored and a helix
    rebuilt; and the two of [updateVisualization]. *)
Lemma loadFromText_cases (parsed : outcome json) (st : State) :
  fst (loadFromText parsed st) = st
  \/ (exists data, fst (loadFromText parsed st) = loaded st data)
  \/ (exists data filtered,
        fst (loadFromText parsed st)
        = fst (rebuildDNA filtered (loaded st data))).
Proof.
  destruct parsed as [[|items|]|e]; try (left; reflexivity).
  unfold loadFromText. run.
  destruct (validateData (JArray items)) as [data|e]; [|left; reflexivity].
  destruct (Nat.eqb (length data) 0); [left; reflexivity|].
  cbn [selectedType].
  destruct (filterSegmentsByType data (selectedType st)) as [filtered|e];
    [|right; left; exists data; reflexivity].
  right. right. exists data, filtered. unfold loaded.
  destruct (rebuildDNA filtered _) as [st1 [g|e]]; reflexivity.
Qed.

Lemma updateVisualization_cases (st : State) :
  fst (updateVisualization st) = st
  \/ (exists filtered,
        fst (updateVisualization st) = fst (rebuildDNA filtered st)).
Proof.
  unfold updateVisualization. run.
  destruct (lastLoadedData st) as [data|]; [|left; reflexivity].
  destruct (filterSegmentsByType data (selectedType st)) as [filtered|e];
    [|left; reflexivity].
  right. exists filtered.
  destruct (rebuildDNA filtered st) as [st1 [g|e]]; reflexivity.
Qed.

Lemma setConfig_state (key : string) (value : R) (st : State) :
  exists c : Config,
    fst (setConfig key value st)
    = mkState (scene st) (dnaGroup st) (lastLoadedData st) (selectedType st)
        c (next_id st) (entropy st) (drawn st).
Proof.
  unfold setConfig. run.
  repeat match goal with
         | |- context [if ?b then _ else _] =>
             destruct b; [eexists; reflexivity|]
         end.
  exists (config st). destruct st; reflexivity.
Qed.

(** A property that the pieces of the calls keep is kept by every call. *)
Section Kept.

Variable P : State -> Prop.
Hypothesis P_loaded : forall st data, P st -> P (loaded st data).
Hypothesis P_rebuildDNA : forall st data, P st -> P (fst (rebuildDNA data st)).
Hypothesis P_cleared : forall st, P st -> P (cleared st).
Hypothesis P_config : forall st c,
  P st ->
  P (mkState (scene st) (dnaGroup st) (lastLoadedData st) (selectedType st)
       c (next_id st) (entropy st) (drawn st)).
Hypothesis P_selectedType : forall st t,
  P st ->
  P (mkState (scene st) (dnaGroup st) (lastLoadedData st) t (config st)
       (next_id st) (entropy st) (drawn st)).

Lemma perform_keeps (c : call) (st : State) : P st -> P (perform c st).
Proof.
  intros Hst. destruct c as [parsed|data| | |key value|type]; cbn [perform].
  - destruct (loadFromText_cases parsed st)
      as [->|[(data & ->)|(data & filtered & ->)]]; auto.
  - auto.
  - destruct (updateVisualization_cases st) as [->|(filtered & ->)]; auto.
  - rewrite clearScene_cleared. cbn [fst]. auto.
  - destruct (setConfig_state key value st) as [c ->]. auto.
  - apply P_selectedType. exact Hst.
Qed.

Lemma performs_keep (calls : list call) :
  forall st : State, P st -> P (performs calls st).
Proof.
  induction calls as [|c calls IH]; intros st Hst; [exact Hst|].
  cbn [performs fold_left]. apply IH. apply perform_keeps. exact Hst.
Qed.

End Kept.

Lemma consistent_fresh : consistent fresh.
Proof.
  split; [constructor|]. split; [constructor|discriminate].
Qed.

(** X11.  Whatever calls are made on a visualiser and whatever they are
    given, also when some of them throw, the scene and the visualiser stay
    in step: the current group is one of the groups of the scene, and no
    two groups of the scene are the same object. *)
Theorem calls_keep_consistent (calls : list call) (st : State) :
  consistent st -> consistent (performs calls st).
Proof.
  apply performs_keep.
  - intros s data Hs. exact Hs.
  - intros s data. apply consistent_rebuildDNA.
  - apply consistent_cleared.
  - intros s c Hs. exact Hs.
  - intros s t Hs. exact Hs.
Qed.

Lemma calls_keep_consistent_witness :
  consistent fresh
  /\ consistent
       (performs [Load (Return (JArray (map EObject sample)));
                  SetType "all"; Update; Rebuild [ENull]; Clear] fresh).
Proof.
  split; [exact consistent_fresh|].
  apply (calls_keep_consistent _ fresh). exact consistent_fresh.
Defined.

(** X12.  When the number of turns gives the tubes of the backbones a whole
    positive number of sections, rebuilding from a non-empty list of
    segments that have their tag and change replaces the helix: the new
    group is the current one and the last of the scene, with one rung per
    segment; the group that was current is no longer in the scene, so that
    the scene has as many groups as before (one more when there was no
    current group); every other group of the scene is still there. *)
Theorem rebuildDNA_replaces (st : State) (segs : list Segment) :
  consistent st ->
  whole_turns st ->
  segs <> [] ->
  forallb renderable segs = true ->
  exists g : Group,
    snd (rebuildDNA (map EObject segs) st) = Return g
    /\ dnaGroup (fst (rebuildDNA (map EObject segs) st)) = Some g
    /\ length (rungs g) = length segs
    /\ List.last (scene (fst (rebuildDNA (map EObject segs) st))) g = g
    /\ In g (scene (fst (rebuildDNA (map EObject segs) st)))
    /\ (forall old : Group,
          dnaGroup st = Some old ->
          ~ In old (scene (fst (rebuildDNA (map EObject segs) st)))
          /\ length (scene (fst (rebuildDNA (map EObject segs) st)))
             = length (scene st))
    /\ (dnaGroup st = None ->
        scene (fst (rebuildDNA (map EObject segs) st)) = scene st ++ [g])
    /\ (forall o : Group,
          In o (scene st) -> dnaGroup st <> Some o ->
          In o (scene (fst (rebuildDNA (map EObject segs) st)))).
Proof.
  intros (Hnd & Hlt & Hcur) Hwhole Hne Hok.
  rewrite (rebuildDNA_objects segs st Hne Hok Hwhole).
  exists (helix_group (cleared st) segs). cbn [fst snd].
  unfold shown, helix_state. cbn [scene dnaGroup]. unfold scene_add.
  split; [reflexivity|]. split; [reflexivity|]. split.
  { rewrite rungs_helix_group. apply helix_rungs_length. exact Hok. }
  split; [apply List.last_last|].
  split; [apply List.in_or_app; right; left; reflexivity|].
  rewrite List.Forall_forall in Hlt.
  split; [|split].
  - intros old Hold. specialize (Hcur old Hold).
    unfold cleared. rewrite Hold. cbn [scene next_id helix_group]. split.
    + intros Hin. apply List.in_app_or in Hin as [Hin|[Hin|[]]].
      * apply scene_remove_In in Hin as [_ Hid]. apply Hid. reflexivity.
      * specialize (Hlt old Hcur). rewrite <- Hin in Hlt.
        unfold helix_group in Hlt. cbn [id next_id] in Hlt. lia.
    + rewrite List.length_app. cbn [length].
      rewrite <- (scene_remove_length (scene st) old Hnd Hcur). lia.
  - intros Hnone. unfold cleared. rewrite Hnone. reflexivity.
  - intros o Ho Hother. apply List.in_or_app. left.
    unfold cleared. destruct (dnaGroup st) as [old|] eqn:Eold; [|exact Ho].
    cbn [scene]. apply scene_remove_In. split; [exact Ho|].
    intros Hid. apply Hother. f_equal. symmetry.
    exact (same_id_same_group (scene st) o old Hnd Ho (Hcur old eq_refl) Hid).
Qed.

Lemma rebuildDNA_replaces_witness :
  consistent showing
  /\ whole_turns showing
  /\ [segment "negative" 3 5 110 99 (-10)] <> []
  /\ forallb renderable [segment "negative" 3 5 110 99 (-10)] = true
  /\ exists g : Group,
       snd (rebuildDNA (map EObject [segment "negative" 3 5 110 99 (-10)])
              showing) = Return g
       /\ dnaGroup (fst (rebuildDNA
                           (map EObject [segment "negative" 3 5 110 99 (-10)])
                           showing)) = Some g
       /\ length (rungs g) = 1%nat.
Proof.
  assert (Hshowing : consistent showing)
    by (apply consistent_rebuildDNA; exact consistent_fresh).
  split; [exact Hshowing|]. split; [exact whole_turns_showing|].
  split; [discriminate|]. split; [reflexivity|].
  destruct (rebuildDNA_replaces showing [segment "negative" 3 5 110 99 (-10)]
              Hshowing whole_turns_showing ltac:(discriminate) eq_refl)
    as (g & Hret & Hcur & Hrungs & _).
  exists g. split; [exact Hret|]. split; [exact Hcur|exact Hrungs].
Defined.

(** The group [g] is in the scene and is not the current group. *)
Lemma stays_cleared (g : Group) (st : State) :
  consistent st /\ In g (scene st) /\ dnaGroup st <> Some g ->
  In g (scene (cleared st)).
Proof.
  intros ((Hnd & _ & Hcur) & Hin & Hnot). unfold cleared.
  destruct (dnaGroup st) as [old|] eqn:Eold; [|exact Hin].
  cbn [scene]. apply scene_remove_In. split; [exact Hin|].
  intros Hid. apply Hnot. f_equal. symmetry.
  exact (same_id_same_group (scene st) g old Hnd Hin (Hcur old eq_refl) Hid).
Qed.

Lemma stays_rebuildDNA (g : Group) (st : State) (data : list entry) :
  consistent st /\ In g (scene st) /\ dnaGroup st <> Some g ->
  consistent (fst (rebuildDNA data st))
  /\ In g (scene (fst (rebuildDNA data st)))
  /\ dnaGroup (fst (rebuildDNA data st)) <> Some g.
Proof.
  intros Hst. split; [apply consistent_rebuildDNA; apply Hst|].
  pose proof (stays_cleared g st Hst) as Hin.
  destruct Hst as ((_ & Hlt & _) & Hg & _).
  rewrite List.Forall_forall in Hlt. specialize (Hlt g Hg).
  destruct (rebuildDNA_frame data st) as [k Hk].
  destruct (snd (rebuildDNA data st)) as [h|e].
  - destruct Hk as (Hid & _ & ->). cbn [scene dnaGroup]. split.
    + apply List.in_or_app. left. exact Hin.
    + destruct (Nat.eqb (length data) 0); [discriminate|].
      intros [= ->]. lia.
  - rewrite Hk. cbn [scene dnaGroup]. split; [exact Hin|discriminate].
Qed.

(** X13.  Rebuilding from no segments puts a group without children into
    the scene and leaves the visualiser without a current group, so that no
    later call ever takes that group out of the scene again. *)
Theorem empty_rebuild_stays (st : State) (calls : list call) :
  consistent st ->
  exists g : Group,
    snd (rebuildDNA [] st) = Return g
    /\ children g = []
    /\ dnaGroup (fst (rebuildDNA [] st)) = None
    /\ In g (scene (fst (rebuildDNA [] st)))
    /\ In g (scene (performs calls (fst (rebuildDNA [] st)))).
Proof.
  intros Hst. pose proof (consistent_rebuildDNA [] st Hst) as Hafter.
  rewrite rebuildDNA_empty in Hafter |- *. cbn [fst snd] in Hafter |- *.
  exists (empty_group (cleared st)).
  assert (Hnone : dnaGroup (shown (empty_state (cleared st))
                              (empty_group (cleared st))) = None).
  { cbn. apply cleared_fields. }
  assert (Hin : In (empty_group (cleared st))
                  (scene (shown (empty_state (cleared st))
                            (empty_group (cleared st))))).
  { cbn. unfold scene_add. apply List.in_or_app. right. left. reflexivity. }
  split; [reflexivity|]. split; [reflexivity|]. split; [exact Hnone|].
  split; [exact Hin|].
  apply (performs_keep
           (fun s => consistent s /\ In (empty_group (cleared st)) (scene s)
                     /\ dnaGroup s <> Some (empty_group (cleared st)))).
  - intros s data Hs. exact Hs.
  - intros s data. apply stays_rebuildDNA.
  - intros s Hs. split; [apply consistent_cleared; apply Hs|].
    split; [apply stays_cleared; exact Hs|].
    rewrite (proj1 (cleared_fields s)). discriminate.
  - intros s c Hs. exact Hs.
  - intros s t Hs. exact Hs.
  - split; [exact Hafter|]. split; [exact Hin|].
    rewrite Hnone. discriminate.
Qed.

Lemma empty_rebuild_stays_witness :
  consistent showing
  /\ exists g : Group,
       snd (rebuildDNA [] showing) = Return g
       /\ children g = []
       /\ In g (scene (performs
                         [Load (Return (JArray (map EObject sample)));
                          Clear; SetType "negative"; Update]
                         (fst (rebuildDNA [] showing)))).
Proof.
  assert (Hshowing : consistent showing)
    by (apply consistent_rebuildDNA; exact consistent_fresh).
  split; [exact Hshowing|].
  destruct (empty_rebuild_stays showing
              [Load (Return (JArray (map EObject sample)));
               Clear; SetType "negative"; Update] Hshowing)
    as (g & Hret & Hkids & _ & _ & Hin).
  exists g. split; [exact Hret|]. split; [exact Hkids|exact Hin].
Defined.

End Facade.

(** ** Input that cannot be shown *)

Section Rejection.

Import THREE DNAVisualizer Spec Props.
Local Open Scope R_scope.

Lemma array_filter_In_null (p : Segment -> bool) (items : list entry) :
  In ENull items ->
  array_filter (fun e => s ← fields e; Return (p s)) items = Throws TypeError.
Proof.
  induction items as [|e items IH]; intros Hin; [contradiction|].
  cbn [array_filter]. destruct e as [|s]; [reflexivity|].
  destruct Hin as [Hin|Hin]; [discriminate|].
  cbn. rewrite (IH Hin). reflexivity.
Qed.

Lemma objects_of_entries (items : list entry) :
  ~ In ENull items -> exists segs : list Segment, items = map EObject segs.
Proof.
  induction items as [|e items IH]; intros Hno; [exists []; reflexivity|].
  destruct e as [|s]; [exfalso; apply Hno; left; reflexivity|].
  destruct IH as [segs ->]; [intros Hin; apply Hno; right; exact Hin|].
  exists (s :: segs). reflexivity.
Qed.

(** X14.  A text that yields no valid segment is rejected without a trace:
    when parsing fails, or gives [null], or something that is not an array,
    or an array none of whose elements passes the validation, the visualiser
    stays exactly as it was, with the helix and the data it had, and the
    answer is never a group.  The answer is [null], except that an array
    with a [null] element makes the call throw a [TypeError]. *)
Theorem loadFromText_rejects (st : State) (parsed : outcome json) :
  (forall raw data,
     parsed = Return raw -> validateData raw = Return data -> data = []) ->
  fst (loadFromText parsed st) = st
  /\ (forall g : Group, snd (loadFromText parsed st) <> Return (Some g))
  /\ (forall items : list entry,
        parsed = Return (JArray items) -> In ENull items ->
        snd (loadFromText parsed st) = Throws TypeError)
  /\ ((forall items : list entry,
         parsed = Return (JArray items) -> ~ In ENull items) ->
      snd (loadFromText parsed st) = Return None).
Proof.
  intros Hnone.
  destruct parsed as [[|items|]|e];
    try (split; [reflexivity|]; split; [discriminate|];
         split; [discriminate|reflexivity]).
  unfold loadFromText. run.
  destruct (validateData (JArray items)) as [data|e] eqn:Evalid.
  - rewrite (Hnone (JArray items) data eq_refl Evalid). cbn.
    split; [reflexivity|]. split; [discriminate|]. split; [|reflexivity].
    intros items' [= <-] Hin. cbn [validateData] in Evalid.
    rewrite (array_filter_In_null _ _ Hin) in Evalid. discriminate.
  - cbn. split; [reflexivity|]. split; [discriminate|]. split.
    + intros items' [= <-] Hin. cbn [validateData] in Evalid.
      rewrite (array_filter_In_null _ _ Hin) in Evalid.
      injection Evalid as <-. reflexivity.
    + intros Hobjects.
      destruct (objects_of_entries items (Hobjects items eq_refl)) as [segs ->].
      cbn [validateData] in Evalid. rewrite array_filter_objects in Evalid.
      discriminate.
Qed.

Lemma loadFromText_rejects_witness :
  (forall raw data,
     Return (JArray [EObject (segment "" 0 10 100 110 10); ENull]) = Return raw ->
     validateData raw = Return data -> data = [])
  /\ fst (loadFromText
            (Return (JArray [EObject (segment "" 0 10 100 110 10); ENull]))
            showing) = showing
  /\ snd (loadFromText
            (Return (JArray [EObject (segment "" 0 10 100 110 10); ENull]))
            showing) = Throws TypeError.
Proof.
  assert (Hnone : forall raw data,
            Return (JArray [EObject (segment "" 0 10 100 110 10); ENull])
            = Return raw ->
            validateData raw = Return data -> data = [])
    by (intros raw data [= <-]; cbn; discriminate).
  split; [exact Hnone|].
  destruct (loadFromText_rejects showing _ Hnone) as (Hst & _ & Hnull & _).
  split; [exact Hst|].
  apply (Hnull _ eq_refl). right. left. reflexivity.
Defined.

(** The loop over the segments throws at the first entry that it cannot
    build. *)
Lemma add_segments_unbuildable (radius turns height : R) (n : nat)
    (before after : list entry) (bad : entry) :
  forallb buildable before = true ->
  buildable bad = false ->
  forall (i : nat) (st : State),
    snd (add_segments radius turns height n i (before ++ bad :: after) st)
    = Throws TypeError.
Proof.
  intros Hbefore Hbad. induction before as [|e before IH]; intros i st.
  - cbn [app add_segments]. unfold mbind at 1, M_bind at 1.
    unfold add_segment. run. destruct bad as [|s]; [reflexivity|].
    cbn [fields buildable] in *. unfold renderable in Hbad.
    destruct (segment_type s), (pct_change s); try reflexivity.
    discriminate.
  - cbn [forallb] in Hbefore. apply andb_prop in Hbefore as [He Hbefore].
    destruct e as [|s]; [discriminate|]. cbn [buildable] in He.
    unfold renderable in He. apply andb_prop in He as [Ht Hp].
    destruct (segment_type s) as [type|] eqn:Etype; [|discriminate].
    destruct (pct_change s) as [p|] eqn:Ep; [|discriminate].
    cbn [app add_segments]. unfold mbind at 1, M_bind at 1.
    rewrite (add_segment_object _ _ _ _ _ s type p st Etype Ep).
    unfold mbind at 1, M_bind at 1.
    specialize (IH Hbefore (S i) (advance st (draws p))).
    destruct (add_segments radius turns height n (S i)
                (before ++ bad :: after) (advance st (draws p)))
      as [st1 [more|err]]; cbn [snd] in IH |- *; [discriminate|exact IH].
Qed.

(** X15.  A list with an entry that cannot be built, which is [null] or has
    no type tag or no change, makes [rebuildDNA] throw a [TypeError]; by
    then the helix that was shown has been taken out of the scene, nothing
    has been put in its place and there is no current group.  The loaded
    data stay as they were. *)
Theorem rebuildDNA_unbuildable (st : State) (before after : list entry)
    (bad : entry) :
  forallb buildable before = true ->
  buildable bad = false ->
  snd (rebuildDNA (before ++ bad :: after) st) = Throws TypeError
  /\ dnaGroup (fst (rebuildDNA (before ++ bad :: after) st)) = None
  /\ scene (fst (rebuildDNA (before ++ bad :: after) st))
     = match dnaGroup st with
       | Some old => scene_remove (scene st) old
       | None => scene st
       end
  /\ lastLoadedData (fst (rebuildDNA (before ++ bad :: after) st))
     = lastLoadedData st.
Proof.
  intros Hbefore Hbad.
  assert (Hthrows : snd (rebuildDNA (before ++ bad :: after) st)
                    = Throws TypeError).
  { rewrite rebuildDNA_unfold. unfold createDNAHelix. run.
    rewrite List.length_app. cbn [length].
    replace (length before + S (length after))%nat
      with (S (length before + length after)) by lia.
    cbn [Nat.eqb]. unfold lift, new_TubeGeometry.
    destruct (whole_positive _ && _); cbn [fst snd]; [|reflexivity].
    destruct (whole_positive _ && _); cbn [fst snd]; [|reflexivity].
    match goal with
    | |- context [add_segments ?r ?t ?h ?n ?i ?d ?s] =>
        pose proof (add_segments_unbuildable r t h n before after bad
                      Hbefore Hbad i s) as Hloop;
        destruct (add_segments r t h n i d s) as [st1 [ms|err]]
    end; cbn [snd] in Hloop |- *; [discriminate|congruence]. }
  split; [exact Hthrows|].
  destruct (rebuildDNA_frame (before ++ bad :: after) st) as [k Hk].
  rewrite Hthrows in Hk. rewrite Hk. cbn [dnaGroup scene lastLoadedData].
  split; [reflexivity|]. split; [|reflexivity].
  unfold cleared. destruct (dnaGroup st); reflexivity.
Qed.

Lemma rebuildDNA_unbuildable_witness :
  forallb buildable [EObject (segment "optimal" 0 10 100 110 10)] = true
  /\ buildable (EObject (mkSegment (Some "optimal") (Some 10%Z) (Some 12%Z)
                           None None (Some 110) (Some 99) None)) = false
  /\ snd (rebuildDNA
            ([EObject (segment "optimal" 0 10 100 110 10)]
             ++ EObject (mkSegment (Some "optimal") (Some 10%Z) (Some 12%Z)
                           None None (Some 110) (Some 99) None) :: [])
            showing) = Throws TypeError
  /\ dnaGroup (fst (rebuildDNA
            ([EObject (segment "optimal" 0 10 100 110 10)]
             ++ EObject (mkSegment (Some "optimal") (Some 10%Z) (Some 12%Z)
                           None None (Some 110) (Some 99) None) :: [])
            showing)) = None.
Proof.
  split; [reflexivity|]. split; [reflexivity|].
  destruct (rebuildDNA_unbuildable showing
              [EObject (segment "optimal" 0 10 100 110 10)] []
              (EObject (mkSegment (Some "optimal") (Some 10%Z) (Some 12%Z)
                          None None (Some 110) (Some 99) None))
              eq_refl eq_refl) as (Hthrows & Hnone & _).
  split; [exact Hthrows|exact Hnone].
Defined.

End Rejection.

(** ** The application on loaded data *)

Section Application.

Import THREE DNAVisualizer MarketDNAApp Spec Props.
Local Open Scope R_scope.

Lemma filterSegmentsByType_selection (segs : list Segment) (type : string) :
  filterSegmentsByType (map EObject segs) type
  = Return (map EObject (selection type segs)).
Proof.
  unfold filterSegmentsByType, selection.
  destruct (String.eqb type "all"); [reflexivity|].
  apply array_filter_objects.
Qed.

Lemma selection_renderable (type : string) (segs : list Segment) :
  forallb valid_segment segs = true ->
  forallb renderable (selection type segs) = true.
Proof.
  intros Hvalid.
  assert (Hok : forallb renderable segs = true)
    by exact (forallb_impl _ _ _ valid_segment_renderable Hvalid).
  unfold selection. destruct (String.eqb type "all"); [exact Hok|].
  apply forallb_filter_keeps. exact Hok.
Qed.


(** A rebuild from segments that can be built answers with its group and
    keeps the data, the type and the configuration. *)
Lemma rebuildDNA_renderable (segs : list Segment) (st : State) :
  whole_turns st ->
  forallb renderable segs = true ->
  exists g : Group,
    snd (rebuildDNA (map EObject segs) st) = Return g
    /\ lastLoadedData (fst (rebuildDNA (map EObject segs) st))
       = lastLoadedData st
    /\ selectedType (fst (rebuildDNA (map EObject segs) st)) = selectedType st
    /\ config (fst (rebuildDNA (map EObject segs) st)) = config st
    /\ (segs <> [] ->
        g = helix_group (cleared st) segs
        /\ dnaGroup (fst (rebuildDNA (map EObject segs) st)) = Some g)
    /\ (segs = [] -> dnaGroup (fst (rebuildDNA (map EObject segs) st)) = None).
Proof.
  intros Hwhole Hok.
  destruct (cleared_fields st) as (Hg & Hd & Ht & Hc & _).
  destruct segs as [|s segs].
  - cbn [map]. rewrite rebuildDNA_empty. exists (empty_group (cleared st)).
    cbn. split; [reflexivity|]. split; [exact Hd|]. split; [exact Ht|].
    split; [exact Hc|]. split; [intros H; contradiction|intros _; exact Hg].
  - rewrite (rebuildDNA_objects (s :: segs) st ltac:(discriminate) Hok Hwhole).
    exists (helix_group (cleared st) (s :: segs)). cbn.
    split; [reflexivity|]. split; [exact Hd|]. split; [exact Ht|].
    split; [exact Hc|]. split; [auto|discriminate].
Qed.

Lemma updateVisualization_loaded (st : State) (segs : list Segment) :
  whole_turns st ->
  lastLoadedData st = Some (map EObject segs) ->
  forallb valid_segment segs = true ->
  updateVisualization st
  = (fst (rebuildDNA (map EObject (selection (selectedType st) segs)) st),
     Return tt).
Proof.
  intros Hwhole Hdata Hvalid. unfold updateVisualization. run. rewrite Hdata.
  rewrite filterSegmentsByType_selection.
  destruct (rebuildDNA_renderable (selection (selectedType st) segs) st Hwhole
              (selection_renderable _ _ Hvalid)) as (g & Hret & _).
  destruct (rebuildDNA _ st) as [st1 [h|e]]; [reflexivity|discriminate].
Qed.

Lemma or_zero_counts (m : gmap string Count) (c : string -> nat) (t : string) :
  counts m c -> plain_tag t -> or_zero (m !! t) = Times (c t).
Proof.
  intros Hm Ht. rewrite (Hm t Ht).
  destruct (Nat.eqb_spec (c t) 0) as [->|_]; reflexivity.
Qed.

Lemma plain_optimal_negative : plain_tag "optimal" /\ plain_tag "negative".
Proof.
  split; intros Hin; cbn in Hin; intuition discriminate.
Qed.

Lemma updateSequenceStats_loaded (st : State) (segs : list Segment) :
  lastLoadedData st = Some (map EObject segs) ->
  segs <> [] ->
  forallb renderable segs = true ->
  updateSequenceStats st
  = (st, Return (Some (mkElements (length segs)
                         (Times (tag_count "optimal" segs))
                         (Times (tag_count "negative" segs))
                         (toFixed2 (float_mean (changes segs)) +:+ "%")))).
Proof.
  intros Hdata Hne Hok.
  destruct (calculateStats_objects st segs Hne Hok) as (m & Hrun & Hm).
  destruct plain_optimal_negative as [Hoptimal Hnegative].
  unfold updateSequenceStats, getLastLoadedData.
  unfold mbind at 1, M_bind at 1. run. rewrite Hdata, length_map.
  destruct segs as [|s segs]; [contradiction|].
  cbn [length Nat.eqb].
  rewrite (calculateStats_loaded st _ Hdata), Hrun.
  cbn [totalSegments typeCounts volatility length].
  rewrite (or_zero_counts m _ "optimal" Hm Hoptimal).
  rewrite (or_zero_counts m _ "negative" Hm Hnegative).
  reflexivity.
Qed.

Lemma setConfig_returns (key : string) (value : R) (st : State) :
  snd (setConfig key value st) = Return tt.
Proof.
  unfold setConfig. run.
  repeat match goal with
         | |- context [if ?b then _ else _] => destruct b; [reflexivity|]
         end.
  reflexivity.
Qed.

Lemma tag_count_apart (a b : string) (segs : list Segment) :
  a <> b ->
  (tag_count a segs + tag_count b segs <= length segs)%nat
  /\ (Forall (fun s => segment_type s = Some a \/ segment_type s = Some b) segs ->
      (tag_count a segs + tag_count b segs)%nat = length segs).
Proof.
  intros Hab.
  induction segs as [|s segs [IHle IHeq]]; [split; reflexivity|].
  cbn [tag_count length].
  destruct (segment_type s) as [t|] eqn:Et.
  - destruct (String.string_dec t a) as [Hta|Hta],
             (String.string_dec t b) as [Htb|Htb].
    + congruence.
    + split; [lia|]. intros Hall. apply List.Forall_cons_iff in Hall as [_ Hall].
      specialize (IHeq Hall). lia.
    + split; [lia|]. intros Hall. apply List.Forall_cons_iff in Hall as [_ Hall].
      specialize (IHeq Hall). lia.
    + split; [lia|]. intros Hall. apply List.Forall_cons_iff in Hall as [[Hs|Hs] _];
        cbn beta in Hs; congruence.
  - split; [lia|]. intros Hall. apply List.Forall_cons_iff in Hall as [[Hs|Hs] _];
      cbn beta in Hs; congruence.
Qed.


Lemma loadFromText_loaded (st : State) (items : list entry)
    (segs : list Segment) :
  whole_turns st ->
  validateData (JArray items) = Return (map EObject segs) ->
  segs <> [] ->
  exists g : Group,
    loadFromText (Return (JArray items)) st
    = (fst (rebuildDNA (map EObject (selection (selectedType st) segs))
              (loaded st (map EObject segs))),
       Return (Some g))
    /\ snd (rebuildDNA (map EObject (selection (selectedType st) segs))
              (loaded st (map EObject segs))) = Return g.
Proof.
  intros Hwhole Hvalid Hne.
  destruct (validateData_returns _ _ Hvalid) as (segs' & Heq & Hall).
  assert (segs' = segs) as ->.
  { revert Heq. clear. revert segs'.
    induction segs as [|s segs IH]; intros [|s' segs']; cbn;
      intros H; try discriminate; [reflexivity|].
    injection H as -> H. f_equal. apply IH. exact H. }
  unfold loadFromText. run. rewrite Hvalid. rewrite length_map.
  destruct segs as [|s segs]; [contradiction|]. cbn [length Nat.eqb].
  cbn [selectedType]. rewrite filterSegmentsByType_selection.
  fold (loaded st (map EObject (s :: segs))).
  destruct (rebuildDNA_renderable (selection (selectedType st) (s :: segs))
              (loaded st (map EObject (s :: segs)))
              (whole_turns_config st _ eq_refl Hwhole)
              (selection_renderable _ _ Hall)) as (g & Hret & _).
  exists g. destruct (rebuildDNA _ _) as [st1 [h|e]]; cbn [snd] in Hret;
    [|discriminate].
  injection Hret as ->. split; reflexivity.
Qed.

Lemma sampled_data : lastLoadedData sampled = Some (map EObject sample).
Proof.
  unfold sampled.
  destruct (loadFromText_loaded fresh (map EObject sample) sample
              whole_turns_fresh eq_refl ltac:(discriminate)) as (g & -> & _).
  cbn [fst].
  destruct (rebuildDNA_renderable (selection (selectedType fresh) sample)
              (loaded fresh (map EObject sample))
              (whole_turns_config fresh _ eq_refl whole_turns_fresh) eq_refl)
    as (h & _ & -> & _).
  reflexivity.
Qed.

Lemma sampled_config : config sampled = config fresh.
Proof.
  unfold sampled.
  destruct (loadFromText_loaded fresh (map EObject sample) sample
              whole_turns_fresh eq_refl ltac:(discriminate)) as (g & -> & _).
  cbn [fst]. rewrite config_rebuildDNA. reflexivity.
Qed.

Lemma whole_turns_sampled : whole_turns sampled.
Proof.
  exact (whole_turns_config fresh sampled sampled_config whole_turns_fresh).
Qed.


(** X17.  When the number of turns gives the tubes of the backbones a whole
    positive number of sections, loading a file with valid segments stores
    the valid segments and fills the statistics panel from them: the total
    is their number and the two counts are the numbers of optimal and of
    negative segments, which together are at most the total and make up the
    total when there is no other type.  The volatility is, with a percent
    sign, the mean of the absolute changes as binary64 arithmetic gives it,
    adding from the left, written with two decimals, as long as that mean is
    below [10^21].  The selected type is not changed. *)
Theorem onFileLoaded_fills (st : State) (items : list entry)
    (segs : list Segment) :
  whole_turns st ->
  validateData (JArray items) = Return (map EObject segs) ->
  segs <> [] ->
  exists (st' : State) (elements : Elements),
    onFileLoaded (Return (JArray items)) st = (st', Return (Some elements))
    /\ lastLoadedData st' = Some (map EObject segs)
    /\ selectedType st' = selectedType st
    /\ shown_totalSegments elements = length segs
    /\ optimalCount elements = Times (tag_count "optimal" segs)
    /\ negativeCount elements = Times (tag_count "negative" segs)
    /\ (tag_count "optimal" segs + tag_count "negative" segs
        <= shown_totalSegments elements)%nat
    /\ (Forall (fun s => segment_type s = Some "optimal"
                         \/ segment_type s = Some "negative") segs ->
        (tag_count "optimal" segs + tag_count "negative" segs)%nat
        = shown_totalSegments elements)
    /\ (float_mean (changes segs) < 10 ^ 21 ->
        exists text : string,
          shown_volatility elements = text +:+ "%"
          /\ two_decimals (float_mean (changes segs)) text).
Proof.
  intros Hwhole Hvalid Hne.
  destruct (validateData_returns _ _ Hvalid) as (segs' & Heq & Hall).
  assert (segs' = segs) as ->.
  { revert Heq. clear. revert segs'.
    induction segs as [|s segs IH]; intros [|s' segs']; cbn;
      intros H; try discriminate; [reflexivity|].
    injection H as -> H. f_equal. apply IH. exact H. }
  assert (Hok : forallb renderable segs = true)
    by exact (forallb_impl _ _ _ valid_segment_renderable Hall).
  destruct (loadFromText_loaded st items segs Hwhole Hvalid Hne)
    as (g & Hload & _).
  destruct (rebuildDNA_renderable (selection (selectedType st) segs)
              (loaded st (map EObject segs))
              (whole_turns_config st _ eq_refl Hwhole)
              (selection_renderable _ _ Hall))
    as (h & _ & Hkeep & Htype & _).
  unfold onFileLoaded. unfold mbind at 1, M_bind at 1. rewrite Hload.
  cbn [lastLoadedData loaded selectedType] in Hkeep, Htype.
  rewrite (updateSequenceStats_loaded _ segs Hkeep Hne Hok).
  eexists _, _. split; [reflexivity|].
  split; [exact Hkeep|]. split; [exact Htype|].
  cbn [shown_totalSegments optimalCount negativeCount shown_volatility].
  destruct (tag_count_apart "optimal" "negative" segs ltac:(discriminate))
    as [Hle Htotal].
  split; [reflexivity|]. split; [reflexivity|]. split; [reflexivity|].
  split; [exact Hle|]. split; [exact Htotal|].
  intros Hbelow. exists (toFixed2 (float_mean (changes segs))).
  split; [reflexivity|]. apply toFixed2_two_decimals.
  split; [apply float_mean_nonneg|exact Hbelow].
Qed.

Lemma onFileLoaded_fills_witness :
  whole_turns fresh
  /\ validateData (JArray (map EObject sample)) = Return (map EObject sample)
  /\ sample <> []
  /\ exists (st' : State) (elements : Elements),
       onFileLoaded (Return (JArray (map EObject sample))) fresh
       = (st', Return (Some elements))
       /\ shown_totalSegments elements = 4%nat
       /\ optimalCount elements = Times 2
       /\ negativeCount elements = Times 2
       /\ (Forall (fun s => segment_type s = Some "optimal"
                            \/ segment_type s = Some "negative") sample
           /\ (2 + 2)%nat = shown_totalSegments elements).
Proof.
  split; [exact whole_turns_fresh|].
  split; [reflexivity|]. split; [discriminate|].
  destruct (onFileLoaded_fills fresh (map EObject sample) sample
              whole_turns_fresh eq_refl ltac:(discriminate))
    as (st' & elements & Hrun & _ & _ & Htotal & Hoptimal & Hnegative & _
        & Hall & _).
  assert (Hsample : Forall (fun s => segment_type s = Some "optimal"
                                     \/ segment_type s = Some "negative")
                      sample)
    by (repeat constructor).
  exists st', elements. split; [exact Hrun|]. split; [exact Htotal|].
  split; [exact Hoptimal|]. split; [exact Hnegative|].
  split; [exact Hsample|]. exact (Hall Hsample).
Defined.

End Application.

(** ** The shape of the helix *)

Section Shape.

Import THREE DNAVisualizer MarketDNAApp Spec Props.
Local Open Scope R_scope.

Lemma on_circle (radius angle : R) :
  radius * cos angle * (radius * cos angle)
  + radius * sin angle * (radius * sin angle) = radius * radius.
Proof.
  pose proof (sin2_cos2 angle) as H. unfold Rsqr in H.
  replace (radius * cos angle * (radius * cos angle)
           + radius * sin angle * (radius * sin angle))
    with (radius * radius * (sin angle * sin angle + cos angle * cos angle))
    by ring.
  rewrite H. ring.
Qed.

(** The two strands are sampled at opposite points of a circle around the
    axis. *)
Lemma backbone_samples_opposite (radius turns height totalPoints : R) :
  Forall2
    (fun p1 p2 : Vector3 =>
       x p2 = - x p1 /\ y p2 = y p1 /\ z p2 = - z p1
       /\ x p1 * x p1 + z p1 * z p1 = radius * radius)
    (map fst (backbone_samples radius turns height totalPoints))
    (map snd (backbone_samples radius turns height totalPoints)).
Proof.
  unfold backbone_samples.
  induction (seq 0 (Z.to_nat (up totalPoints))) as [|i l IH];
    cbn [map]; constructor; [|exact IH].
  unfold backbone_sample, strand_point. cbn [fst snd x y z].
  rewrite neg_cos, neg_sin.
  split; [ring|]. split; [reflexivity|]. split; [ring|]. apply on_circle.
Qed.

Lemma backbone_samples_on_circle (radius turns height totalPoints : R) :
  Forall (fun p : Vector3 => x p * x p + z p * z p = radius * radius)
    (map fst (backbone_samples radius turns height totalPoints))
  /\ Forall (fun p : Vector3 => x p * x p + z p * z p = radius * radius)
       (map snd (backbone_samples radius turns height totalPoints)).
Proof.
  unfold backbone_samples.
  induction (seq 0 (Z.to_nat (up totalPoints))) as [|i l [IH1 IH2]];
    cbn [map]; split; constructor; try assumption;
    unfold backbone_sample, strand_point; cbn [fst snd x y z];
    apply on_circle.
Qed.

Lemma helix_rungs_Forall (P : Mesh -> Prop) (radius turns height : R)
    (numSegments : nat) (segs : list Segment) :
  (forall (i : nat) (s : Segment) (type : string) (p : R),
     In s segs -> segment_type s = Some type -> pct_change s = Some p ->
     P (segment_rung radius turns height numSegments i s type p)) ->
  forall i : nat, Forall P (helix_rungs radius turns height numSegments i segs).
Proof.
  induction segs as [|s segs IH]; intros HP i; [constructor|].
  cbn [helix_rungs].
  destruct (segment_type s) as [type|] eqn:Etype; [|constructor].
  destruct (pct_change s) as [p|] eqn:Ep; [|constructor].
  constructor.
  - apply HP; [left; reflexivity|exact Etype|exact Ep].
  - apply IH. intros j s' type' p' Hin. apply HP. right. exact Hin.
Qed.

(** What holds of every rung, of every pulse and of every outer pulse holds
    of every mesh that the loop over the segments adds. *)
Lemma helix_blocks_Forall (P : Mesh -> Prop) (radius turns height : R)
    (ent : nat -> R) (numSegments : nat) (segs : list Segment) :
  (forall (i : nat) (s : Segment) (type : string) (p : R),
     P (segment_rung radius turns height numSegments i s type p)) ->
  (forall (at_ : Vector3) (color : property Z) (p r1 r2 : R),
     5 < Rabs p -> P (pulse_mesh at_ color p r1 r2)) ->
  (forall (at_ : Vector3) (color : property Z) (p r1 r2 : R),
     8 < Rabs p -> P (outer_pulse_mesh at_ color p r1 r2)) ->
  forall i d : nat,
    Forall P
      (concat (helix_blocks radius turns height ent numSegments i d segs)).
Proof.
  intros Hrung Hpulse Houter.
  induction segs as [|s segs IH]; intros i d; [constructor|].
  cbn [helix_blocks].
  destruct (segment_type s) as [type|]; [|constructor].
  destruct (pct_change s) as [p|]; [|constructor].
  cbn [concat app]. constructor; [apply Hrung|].
  apply List.Forall_app. split; [|apply IH].
  unfold effect_meshes.
  destruct (Rlt_dec 5 (Rabs p)) as [H5|_]; [|constructor].
  constructor; [apply Hpulse; exact H5|].
  destruct (Rlt_dec 8 (Rabs p)) as [H8|_]; [|constructor].
  constructor; [apply Houter; exact H8|constructor].
Qed.

Lemma slider_unfold (key : string) (value : R) (st : State) :
  (_ ← setConfig key value; updateVisualization) st
  = updateVisualization (fst (setConfig key value st)).
Proof.
  unfold mbind at 1, M_bind at 1.
  pose proof (setConfig_returns key value st) as Hret.
  destruct (setConfig key value st) as [st1 [[]|e]]; cbn [snd] in Hret;
    [reflexivity|discriminate].
Qed.

Lemma updateVisualization_shows (st : State) (segs : list Segment) :
  whole_turns st ->
  lastLoadedData st = Some (map EObject segs) ->
  forallb valid_segment segs = true ->
  selection (selectedType st) segs <> [] ->
  dnaGroup (fst (updateVisualization st))
  = Some (helix_group (cleared st) (selection (selectedType st) segs)).
Proof.
  intros Hwhole Hdata Hvalid Hsel.
  rewrite (updateVisualization_loaded st segs Hwhole Hdata Hvalid). cbn [fst].
  destruct (rebuildDNA_renderable (selection (selectedType st) segs) st Hwhole
              (selection_renderable _ _ Hvalid))
    as (g & _ & _ & _ & _ & Hsome & _).
  destruct (Hsome Hsel) as [-> Hcur]. exact Hcur.
Qed.

(** X18.  The three sliders rebuild the helix of the loaded data with the
    new value.  When the number of turns gives the tubes of the backbones a
    whole positive number of sections, after [updateHelixRadius] every rung
    is as long as twice the radius and every point of the two backbones is
    at that distance from the axis, and after [updateBackboneThickness] both
    tubes have that radius; after [updateHelixTurns] with a positive whole
    number of turns both backbones have 32 samples per turn and one more.
    The number of rungs stays the number of segments of the selected
    type. *)
Theorem sliders_rebuild (st : State) (segs : list Segment) :
  lastLoadedData st = Some (map EObject segs) ->
  forallb valid_segment segs = true ->
  selection (selectedType st) segs <> [] ->
  (whole_turns st ->
   forall radius : R,
     exists (g : Group) (b1 b2 : Mesh) (rest : list Mesh),
       dnaGroup (fst (updateHelixRadius radius st)) = Some g
       /\ children g = b1 :: b2 :: rest
       /\ length (rungs g) = length (selection (selectedType st) segs)
       /\ Forall (fun m => rung_height m = Some (radius * 2)) (rungs g)
       /\ Forall (fun p => x p * x p + z p * z p = radius * radius)
            (tube_path b1)
       /\ Forall (fun p => x p * x p + z p * z p = radius * radius)
            (tube_path b2))
  /\ (whole_turns st ->
      forall thickness : R,
        exists (g : Group) (b1 b2 : Mesh) (rest : list Mesh),
          dnaGroup (fst (updateBackboneThickness thickness st)) = Some g
          /\ children g = b1 :: b2 :: rest
          /\ length (rungs g) = length (selection (selectedType st) segs)
          /\ tube_radius b1 = Some thickness
          /\ tube_radius b2 = Some thickness)
  /\ (forall turns : nat,
        (0 < turns)%nat ->
        exists (g : Group) (b1 b2 : Mesh) (rest : list Mesh),
          dnaGroup (fst (updateHelixTurns (INR turns) st)) = Some g
          /\ children g = b1 :: b2 :: rest
          /\ length (rungs g) = length (selection (selectedType st) segs)
          /\ length (tube_path b1) = (turns * 32 + 1)%nat
          /\ length (tube_path b2) = (turns * 32 + 1)%nat).
Proof.
  intros Hdata Hvalid Hsel.
  assert (Hok : forallb renderable (selection (selectedType st) segs) = true)
    by (apply selection_renderable; exact Hvalid).
  assert (Hset : forall key value,
            lastLoadedData (fst (setConfig key value st))
            = Some (map EObject segs)
            /\ selectedType (fst (setConfig key value st)) = selectedType st).
  { intros key value. destruct (setConfig_state key value st) as [c ->].
    cbn. auto. }
  assert (Hshow : forall key value,
            whole_turns (fst (setConfig key value st)) ->
            dnaGroup (fst ((_ ← setConfig key value; updateVisualization) st))
            = Some (helix_group (cleared (fst (setConfig key value st)))
                      (selection (selectedType st) segs))).
  { intros key value Hwhole. destruct (Hset key value) as [Hd Ht].
    rewrite slider_unfold.
    rewrite (updateVisualization_shows _ segs Hwhole Hd Hvalid); rewrite Ht;
      [reflexivity|exact Hsel]. }
  split; [|split].
  - intros Hwhole radius. eexists _, _, _, _.
    split; [exact (Hshow "helixRadius" radius Hwhole)|].
    split; [reflexivity|].
    rewrite rungs_helix_group.
    rewrite (proj1 (proj2 (proj2 (proj2 (cleared_fields _))))).
    change (helixRadius (config (fst (setConfig "helixRadius" radius st))))
      with radius.
    split; [apply helix_rungs_length; exact Hok|].
    split; [apply helix_rungs_Forall; intros; reflexivity|].
    unfold tube_path, backbone1, backbone2. cbn [geometry].
    apply backbone_samples_on_circle.
  - intros Hwhole thickness. eexists _, _, _, _.
    split; [exact (Hshow "backboneThickness" thickness Hwhole)|].
    split; [reflexivity|].
    rewrite rungs_helix_group.
    rewrite (proj1 (proj2 (proj2 (proj2 (cleared_fields _))))).
    split; [apply helix_rungs_length; exact Hok|].
    split; reflexivity.
  - intros turns Hturns.
    assert (Hwhole : whole_turns (fst (setConfig "helixTurns" (INR turns) st))).
    { exists (Z.of_nat turns * 32)%Z. split; [lia|].
      change (helixTurns (config (fst (setConfig "helixTurns" (INR turns) st))))
        with (INR turns).
      rewrite mult_IZR, <- INR_IZR_INZ. reflexivity. }
    eexists _, _, _, _.
    split; [exact (Hshow "helixTurns" (INR turns) Hwhole)|].
    split; [reflexivity|].
    rewrite rungs_helix_group.
    rewrite (proj1 (proj2 (proj2 (proj2 (cleared_fields _))))).
    split; [apply helix_rungs_length; exact Hok|].
    unfold tube_path, backbone1, backbone2. cbn [geometry].
    change (helixTurns (config (fst (setConfig "helixTurns" (INR turns) st))))
      with (INR turns).
    rewrite backbone_samples_whole, !length_map, length_seq.
    split; reflexivity.
Qed.

Lemma sampled_selectedType : selectedType sampled = "optimal".
Proof.
  unfold sampled.
  destruct (loadFromText_loaded fresh (map EObject sample) sample
              whole_turns_fresh eq_refl ltac:(discriminate)) as (g & -> & _).
  cbn [fst].
  destruct (rebuildDNA_renderable (selection (selectedType fresh) sample)
              (loaded fresh (map EObject sample))
              (whole_turns_config fresh _ eq_refl whole_turns_fresh) eq_refl)
    as (h & _ & _ & -> & _).
  reflexivity.
Qed.

Lemma sliders_rebuild_witness :
  lastLoadedData sampled = Some (map EObject sample)
  /\ forallb valid_segment sample = true
  /\ selection (selectedType sampled) sample <> []
  /\ (whole_turns sampled
      /\ exists (g : Group) (b1 b2 : Mesh) (rest : list Mesh),
        dnaGroup (fst (updateHelixRadius 14 sampled)) = Some g
        /\ children g = b1 :: b2 :: rest
        /\ length (rungs g) = 2%nat)
  /\ (whole_turns sampled
      /\ exists (g : Group) (b1 b2 : Mesh) (rest : list Mesh),
        dnaGroup (fst (updateBackboneThickness 2 sampled)) = Some g
        /\ children g = b1 :: b2 :: rest
        /\ tube_radius b1 = Some 2)
  /\ ((0 < 3)%nat
      /\ exists (g : Group) (b1 b2 : Mesh) (rest : list Mesh),
           dnaGroup (fst (updateHelixTurns (INR 3) sampled)) = Some g
           /\ children g = b1 :: b2 :: rest
           /\ length (tube_path b1) = 97%nat).
Proof.
  pose proof sampled_selectedType as Htype.
  assert (Hsel : selection (selectedType sampled) sample <> [])
    by (rewrite Htype; discriminate).
  split; [exact sampled_data|]. split; [reflexivity|]. split; [exact Hsel|].
  destruct (sliders_rebuild sampled sample sampled_data eq_refl Hsel)
    as (Hradius & Hthickness & Hturns).
  split; [|split].
  - split; [exact whole_turns_sampled|].
    destruct (Hradius whole_turns_sampled 14)
      as (g & b1 & b2 & rest & Hcur & Hkids & Hlen & _).
    exists g, b1, b2, rest. split; [exact Hcur|]. split; [exact Hkids|].
    rewrite Hlen, Htype. reflexivity.
  - split; [exact whole_turns_sampled|].
    destruct (Hthickness whole_turns_sampled 2)
      as (g & b1 & b2 & rest & Hcur & Hkids & _ & Hb1 & _).
    exists g, b1, b2, rest. split; [exact Hcur|]. split; [exact Hkids|].
    exact Hb1.
  - split; [lia|].
    destruct (Hturns 3%nat ltac:(lia))
      as (g & b1 & b2 & rest & Hcur & Hkids & _ & Hlen & _).
    exists g, b1, b2, rest. split; [exact Hcur|]. split; [exact Hkids|].
    exact Hlen.
Defined.

(** X19.  When the number of turns gives the tubes a whole positive number
    of sections, the two backbones of a helix are mirror images in the axis:
    they have the same number of samples, and sample for sample the second
    strand is at the same height as the first, on the opposite side of the
    axis and at the distance of the configured radius from it. *)
Theorem strands_opposite (st : State) (segs : list Segment) :
  whole_turns st ->
  segs <> [] ->
  forallb renderable segs = true ->
  exists (g : Group) (b1 b2 : Mesh) (rest : list Mesh),
    snd (createDNAHelix (map EObject segs) st) = Return g
    /\ children g = b1 :: b2 :: rest
    /\ is_backbone b1 = true
    /\ is_backbone b2 = true
    /\ Forall2
         (fun p1 p2 : Vector3 =>
            x p2 = - x p1 /\ y p2 = y p1 /\ z p2 = - z p1
            /\ x p1 * x p1 + z p1 * z p1
               = helixRadius (config st) * helixRadius (config st))
         (tube_path b1) (tube_path b2).
Proof.
  intros Hwhole Hne Hok.
  rewrite (createDNAHelix_objects segs st Hne Hok Hwhole).
  eexists _, _, _, _. split; [reflexivity|]. split; [reflexivity|].
  split; [reflexivity|]. split; [reflexivity|].
  unfold tube_path, backbone1, backbone2. cbn [geometry].
  apply backbone_samples_opposite.
Qed.

Lemma strands_opposite_witness :
  whole_turns fresh
  /\ sample <> []
  /\ forallb renderable sample = true
  /\ exists (g : Group) (b1 b2 : Mesh) (rest : list Mesh),
       snd (createDNAHelix (map EObject sample) fresh) = Return g
       /\ children g = b1 :: b2 :: rest
       /\ Forall2
            (fun p1 p2 : Vector3 =>
               x p2 = - x p1 /\ y p2 = y p1 /\ z p2 = - z p1
               /\ x p1 * x p1 + z p1 * z p1
                  = helixRadius (config fresh) * helixRadius (config fresh))
            (tube_path b1) (tube_path b2).
Proof.
  split; [exact whole_turns_fresh|].
  split; [discriminate|]. split; [reflexivity|].
  destruct (strands_opposite fresh sample whole_turns_fresh
              ltac:(discriminate) eq_refl)
    as (g & b1 & b2 & rest & Hret & Hkids & _ & _ & Hopp).
  exists g, b1, b2, rest. split; [exact Hret|]. split; [exact Hkids|exact Hopp].
Defined.

Lemma segment_rung_position (radius turns height : R) (n i : nat)
    (s : Segment) (type : string) (p : R) :
  position (segment_rung radius turns height n i s type p)
  = mkVector3 0 (height * (0.5 - INR i / INR n)) 0.
Proof.
  unfold segment_rung, rung_mesh. cbn [position].
  unfold multiplyScalar, add, strand_point. cbn [x y z].
  rewrite neg_cos, neg_sin.
  generalize (cos (2 * PI * turns * (INR i / INR n))),
    (sin (2 * PI * turns * (INR i / INR n))), (INR i / INR n).
  intros c s' t. f_equal; nra.
Qed.

Lemma div_lt_compat (a b c : R) : 0 < c -> a < b -> a / c < b / c.
Proof.
  intros Hc Hab. unfold Rdiv. apply Rmult_lt_compat_r; [|exact Hab].
  apply Rinv_0_lt_compat. exact Hc.
Qed.

(** X20.  When the number of turns gives the tubes of the backbones a whole
    positive number of sections, the rung of segment number [j] of [n] is
    centred on the axis of the helix at the height [200 * (0.5 - j / n)]: the first rung is at the
    top, at 100, every rung is above -100, and a later rung is lower.  It is
    as long as twice the configured radius and is turned towards a point at
    its own height and at the distance of the radius from the axis. *)
Theorem rung_placement (st : State) (segs : list Segment) (j : nat)
    (s : Segment) :
  whole_turns st ->
  forallb renderable segs = true ->
  segs !! j = Some s ->
  exists (g : Group) (m : Mesh),
    snd (createDNAHelix (map EObject segs) st) = Return g
    /\ rungs g !! j = Some m
    /\ position m
       = mkVector3 0 (200 * (0.5 - INR j / INR (length segs))) 0
    /\ -100 < y (position m) <= 100
    /\ (j = 0%nat -> y (position m) = 100)
    /\ (forall (k : nat) (m' : Mesh),
          (j < k)%nat -> rungs g !! k = Some m' ->
          y (position m') < y (position m))
    /\ rung_height m = Some (helixRadius (config st) * 2)
    /\ exists target : Vector3,
         lookAt m = Some target
         /\ y target = y (position m)
         /\ x target * x target + z target * z target
            = helixRadius (config st) * helixRadius (config st).
Proof.
  intros Hwhole Hok Hj.
  assert (Hne : segs <> []) by (intros ->; discriminate).
  pose proof (lookup_lt_Some _ _ _ Hj) as Hlt.
  assert (Hn : 0 < INR (length segs)) by (apply lt_0_INR; lia).
  rewrite (createDNAHelix_objects segs st Hne Hok Hwhole).
  destruct (helix_rungs_lookup (helixRadius (config st))
              (helixTurns (config st)) 200 (length segs) segs Hok 0 j s Hj)
    as (type & p & Htype & Hp & Hrung).
  cbn [Nat.add] in Hrung.
  eexists _, _. split; [reflexivity|].
  rewrite rungs_helix_group. split; [exact Hrung|].
  rewrite segment_rung_position. cbn [y].
  assert (Hj0 : 0 <= INR j / INR (length segs)).
  { unfold Rdiv. apply Rmult_le_pos; [apply pos_INR|].
    left. apply Rinv_0_lt_compat. exact Hn. }
  assert (Hj1 : INR j / INR (length segs) < 1).
  { replace 1 with (INR (length segs) / INR (length segs)) by (field; lra).
    apply div_lt_compat; [exact Hn|]. apply lt_INR. exact Hlt. }
  split; [reflexivity|]. split; [lra|]. split.
  { intros ->. cbn [INR]. unfold Rdiv. rewrite Rmult_0_l. lra. }
  split.
  { intros k m' Hjk Hk.
    pose proof (lookup_lt_Some _ _ _ Hk) as Hklt.
    rewrite (helix_rungs_length _ _ _ _ _ Hok) in Hklt.
    destruct (lookup_lt_is_Some_2 segs k Hklt) as [s' Hs'].
    destruct (helix_rungs_lookup (helixRadius (config st))
                (helixTurns (config st)) 200 (length segs) segs Hok 0 k s' Hs')
      as (type' & p' & _ & _ & Hrung').
    cbn [Nat.add] in Hrung'. rewrite Hrung' in Hk. injection Hk as <-.
    rewrite segment_rung_position. cbn [y].
    assert (INR j / INR (length segs) < INR k / INR (length segs))
      by (apply div_lt_compat; [exact Hn|apply lt_INR; exact Hjk]).
    lra. }
  split; [reflexivity|].
  eexists. split; [reflexivity|]. unfold strand_point. cbn [x y z].
  split; [reflexivity|apply on_circle].
Qed.

Lemma rung_placement_witness :
  whole_turns fresh
  /\ forallb renderable sample = true
  /\ sample !! 1%nat = Some (segment "negative" 10 12 110 99 (-10))
  /\ exists (g : Group) (m : Mesh),
       snd (createDNAHelix (map EObject sample) fresh) = Return g
       /\ rungs g !! 1%nat = Some m
       /\ position m = mkVector3 0 (200 * (0.5 - INR 1 / INR (length sample))) 0.
Proof.
  split; [exact whole_turns_fresh|].
  split; [reflexivity|]. split; [reflexivity|].
  destruct (rung_placement fresh sample 1
              (segment "negative" 10 12 110 99 (-10)) whole_turns_fresh
              eq_refl eq_refl)
    as (g & m & Hret & Hrung & Hpos & _).
  exists g, m. split; [exact Hret|]. split; [exact Hrung|exact Hpos].
Defined.






Lemma rung_color_plain (type : string) :
  plain_tag type -> rung_color type = Own (type_colour type).
Proof.
  intros Hplain. unfold rung_color, colorMap, type_colour.
  destruct (String.string_dec type "negative") as [->|Hn]; [reflexivity|].
  apply String.eqb_neq in Hn. rewrite Hn.
  destruct (String.string_dec type "optimal") as [->|Ho]; [reflexivity|].
  apply String.eqb_neq in Ho. rewrite Ho.
  unfold get_property, inherited.
  replace (existsb (String.eqb type) prototype_members) with false;
    [reflexivity|].
  symmetry. apply Bool.not_true_is_false. intros Hex.
  apply List.existsb_exists in Hex as (name & Hin & Heq).
  apply String.eqb_eq in Heq. subst name. exact (Hplain Hin).
Qed.

Lemma helix_blocks_follow (radius turns height : R) (ent : nat -> R)
    (numSegments : nat) (segs : list Segment) :
  forallb renderable segs = true ->
  forall i d : nat,
    Forall2
      (fun (s : Segment) (block : list Mesh) =>
         exists (type : string) (rung : Mesh) (effects : list Mesh),
           segment_type s = Some type
           /\ block = rung :: effects
           /\ is_rung rung = true
           /\ (plain_tag type -> mesh_color rung = type_colour type)
           /\ Forall
                (fun m : Mesh =>
                   is_pulse m = true
                   /\ position m = position rung
                   /\ mesh_color m = mesh_color rung)
                effects)
      segs (helix_blocks radius turns height ent numSegments i d segs).
Proof.
  induction segs as [|s segs IH]; intros Hok i d; [constructor|].
  cbn [forallb] in Hok. apply andb_prop in Hok as [Hs Hrest].
  unfold renderable in Hs. cbn [helix_blocks].
  destruct (segment_type s) as [type|] eqn:Etype; [|discriminate].
  destruct (pct_change s) as [p|]; [|discriminate].
  constructor; [|apply IH; exact Hrest].
  eexists type, _, _. split; [exact Etype|]. split; [reflexivity|].
  split; [reflexivity|]. split.
  { intros Hplain. unfold segment_rung, rung_mesh, mesh_color.
    cbn [material]. rewrite (rung_color_plain type Hplain). reflexivity. }
  unfold effect_meshes.
  destruct (Rlt_dec 5 (Rabs p)); [|constructor].
  constructor; [repeat split|].
  destruct (Rlt_dec 8 (Rabs p)); [|constructor].
  constructor; [repeat split|constructor].
Qed.

(** X22.  When the number of turns gives the tubes of the backbones a whole
    positive number of sections, the children of a helix come after the two
    backbones in blocks, one per segment in the order of the data: the rung
    of the segment and then its pulse spheres.  The rung has the colour of
    the type of the segment, berry for [negative], cyan for [optimal] and
    pale blue for another tag, as far as tags go whose name no object
    inherits, and every pulse sphere of the block sits at the centre of the
    rung and has its colour. *)
Theorem pulses_follow_rung (st : State) (segs : list Segment) :
  whole_turns st ->
  segs <> [] ->
  forallb renderable segs = true ->
  exists (g : Group) (b1 b2 : Mesh) (blocks : list (list Mesh)),
    snd (createDNAHelix (map EObject segs) st) = Return g
    /\ children g = b1 :: b2 :: concat blocks
    /\ Forall2
         (fun (s : Segment) (block : list Mesh) =>
            exists (type : string) (rung : Mesh) (effects : list Mesh),
              segment_type s = Some type
              /\ block = rung :: effects
              /\ is_rung rung = true
              /\ (plain_tag type -> mesh_color rung = type_colour type)
              /\ Forall
                   (fun m : Mesh =>
                      is_pulse m = true
                      /\ position m = position rung
                      /\ mesh_color m = mesh_color rung)
                   effects)
         segs blocks.
Proof.
  intros Hwhole Hne Hok.
  rewrite (createDNAHelix_objects segs st Hne Hok Hwhole).
  eexists _, _, _, _. split; [reflexivity|]. split; [reflexivity|].
  apply helix_blocks_follow. exact Hok.
Qed.

Lemma pulses_follow_rung_witness :
  whole_turns fresh
  /\ [segment "negative" 10 12 110 99 (-10)] <> []
  /\ forallb renderable [segment "negative" 10 12 110 99 (-10)] = true
  /\ plain_tag "negative"
  /\ exists (g : Group) (b1 b2 rung : Mesh) (effects : list Mesh),
       snd (createDNAHelix (map EObject [segment "negative" 10 12 110 99 (-10)])
              fresh) = Return g
       /\ children g = b1 :: b2 :: rung :: effects
       /\ mesh_color rung = 0xE55C7A%Z
       /\ Forall (fun m : Mesh => mesh_color m = 0xE55C7A%Z) effects.
Proof.
  split; [exact whole_turns_fresh|].
  split; [discriminate|]. split; [reflexivity|].
  split; [exact (proj2 plain_optimal_negative)|].
  destruct (pulses_follow_rung fresh [segment "negative" 10 12 110 99 (-10)]
              whole_turns_fresh ltac:(discriminate) eq_refl)
    as (g & b1 & b2 & blocks & Hret & Hkids & Hblocks).
  destruct blocks as [|block blocks]; [inversion Hblocks|].
  inversion Hblocks as [|? ? ? ? Hblock Hrest]; subst.
  inversion Hrest; subst.
  destruct Hblock as (type & rung & effects & Htype & -> & _ & Hcolor & Hall).
  injection Htype as <-.
  specialize (Hcolor (proj2 plain_optimal_negative)).
  exists g, b1, b2, rung, effects. split; [exact Hret|].
  split; [rewrite Hkids; cbn [concat]; rewrite app_nil_r; reflexivity|].
  split; [exact Hcolor|].
  revert Hall. apply List.Forall_impl. intros m (_ & _ & ->). exact Hcolor.
Defined.

(** The pulse animation on parameters whose scales are positive and
    apart. *)
Lemma pulse_animation_bounds (params : AnimationParams) (elapsedTime : R) :
  0 < initialScale params < maxScale params ->
  initialScale params <= pulse_scale params elapsedTime <= maxScale params
  /\ 0 <= pulse_opacity params (pulse_scale params elapsedTime) <= 0.3.
Proof.
  intros [Hpos Hlt]. unfold pulse_opacity, pulse_scale.
  pose proof (SIN_bound (elapsedTime * pulseSpeed params + phase params))
    as [Hlo Hhi].
  set (f := 0.5 + 0.5 * sin (elapsedTime * pulseSpeed params + phase params))
    in *.
  assert (Hf : 0 <= f <= 1) by (unfold f; lra).
  replace ((initialScale params + (maxScale params - initialScale params) * f
            - initialScale params)
           / (maxScale params - initialScale params))
    with f by (field; lra).
  split; [nra|lra].
Qed.

Lemma animate_pulse_bounds (m : Mesh) (params : AnimationParams)
    (elapsedTime : R) :
  userData m = UserAnimation params ->
  0 < initialScale params < maxScale params ->
  exists (scale : R) (m' : Mesh),
    animate_pulse elapsedTime m = Some (scale, m')
    /\ initialScale params <= scale <= maxScale params
    /\ 0 <= mesh_opacity m' <= 0.3
    /\ geometry m' = geometry m
    /\ position m' = position m.
Proof.
  intros Hdata Hscales.
  destruct (pulse_animation_bounds params elapsedTime Hscales) as [Hs Ho].
  unfold animate_pulse. rewrite Hdata.
  destruct (Req_dec_T (initialScale params) 0) as [H0|_]; [lra|].
  eexists _, _. split; [reflexivity|]. split; [exact Hs|].
  split; [|split; reflexivity].
  unfold mesh_opacity. cbn [material].
  destruct (material m); exact Ho.
Qed.

(** X23.  When the number of turns gives the tubes of the backbones a whole
    positive number of sections, so that the helix is built, the pulse
    animation keeps every pulse sphere of it within its bounds at every
    time: the scale it sets is between the initial and
    the maximal scale of the sphere, the opacity between 0 and 0.3, and the
    sphere stays where it is.  The backbones and the rungs are not
    animated. *)
Theorem pulses_animate_within_bounds (st : State) (segs : list Segment)
    (elapsedTime : R) :
  whole_turns st ->
  segs <> [] ->
  forallb renderable segs = true ->
  exists g : Group,
    snd (createDNAHelix (map EObject segs) st) = Return g
    /\ Forall
         (fun m : Mesh =>
            if is_pulse m then
              exists (params : AnimationParams) (scale : R) (m' : Mesh),
                userData m = UserAnimation params
                /\ animate_pulse elapsedTime m = Some (scale, m')
                /\ initialScale params <= scale <= maxScale params
                /\ 0 <= mesh_opacity m' <= 0.3
                /\ geometry m' = geometry m
                /\ position m' = position m
            else animate_pulse elapsedTime m = None)
         (children g).
Proof.
  intros Hwhole Hne Hok.
  rewrite (createDNAHelix_objects segs st Hne Hok Hwhole).
  eexists. split; [reflexivity|].
  unfold helix_group. cbn [children].
  constructor; [reflexivity|]. constructor; [reflexivity|].
  apply helix_blocks_Forall.
  - intros. reflexivity.
  - intros at_ color p r1 r2 H5.
    change (is_pulse (pulse_mesh at_ color p r1 r2)) with true. cbv iota.
    pose proof (Rabs_pos p) as Hp.
    destruct (animate_pulse_bounds (pulse_mesh at_ color p r1 r2)
                (mkAnimationParams 0.5 (1.0 + Rabs p * 0.02)
                   (0.6 + r1 * 0.4) (r2 * PI * 2)) elapsedTime eq_refl)
      as (scale & m' & H); [cbn; lra|].
    eexists _, scale, m'. split; [reflexivity|exact H].
  - intros at_ color p r1 r2 H8.
    change (is_pulse (outer_pulse_mesh at_ color p r1 r2)) with true.
    cbv iota. pose proof (Rabs_pos p) as Hp.
    destruct (animate_pulse_bounds (outer_pulse_mesh at_ color p r1 r2)
                (mkAnimationParams 0.7 (1.2 + Rabs p * 0.03)
                   (0.4 + r1 * 0.3) (r2 * PI * 2)) elapsedTime eq_refl)
      as (scale & m' & H); [cbn; lra|].
    eexists _, scale, m'. split; [reflexivity|exact H].
Qed.

Lemma pulses_animate_within_bounds_witness :
  whole_turns fresh
  /\ sample <> []
  /\ forallb renderable sample = true
  /\ exists g : Group,
       snd (createDNAHelix (map EObject sample) fresh) = Return g
       /\ Forall
            (fun m : Mesh =>
               if is_pulse m then animate_pulse 2 m <> None
               else animate_pulse 2 m = None)
            (children g).
Proof.
  split; [exact whole_turns_fresh|].
  split; [discriminate|]. split; [reflexivity|].
  destruct (pulses_animate_within_bounds fresh sample 2 whole_turns_fresh
              ltac:(discriminate) eq_refl) as (g & Hret & Hall).
  exists g. split; [exact Hret|].
  revert Hall. apply List.Forall_impl. intros m.
  destruct (is_pulse m); [|auto].
  intros (params & scale & m' & _ & -> & _). discriminate.
Defined.

(** X24.  The helper [_addSegmentEffects] adds to a group what the loop of
    [createDNAHelix] adds as the first pulse sphere of a segment, at the
    place it is given: the same sphere from the same two random draws when
    the change is above 5 in absolute value, and nothing otherwise.  It
    never adds the outer sphere that the loop adds above 8, and it keeps the
    children that the group had. *)
Theorem addSegmentEffects_first_pulse (radius turns height : R) (n i : nat)
    (group : Group) (s : Segment) (st : State) :
  renderable s = true ->
  exists (rung : Mesh) (effects : list Mesh) (st1 st2 : State) (g : Group),
    add_segment radius turns height n i (EObject s) st
    = (st1, Return (rung :: effects))
    /\ Effects._addSegmentEffects group (EObject s) (position rung) st
       = (st2, Return g)
    /\ id g = id group
    /\ children g = children group ++ firstn 1 effects
    /\ ((length effects <= 1)%nat -> st2 = st1)
    /\ (length (children g) <= S (length (children group)))%nat.
Proof.
  intros Hs. unfold renderable in Hs. apply andb_prop in Hs as [Ht Hp].
  destruct (segment_type s) as [type|] eqn:Etype; [|discriminate].
  destruct (pct_change s) as [p|] eqn:Ep; [|discriminate].
  rewrite (add_segment_object _ _ _ _ _ s type p st Etype Ep).
  unfold Effects._addSegmentEffects. run. rewrite Ep, Etype.
  unfold Effects.effect_color, effect_meshes, draws.
  destruct (Rlt_dec 5 (Rabs p)); [destruct (Rlt_dec 8 (Rabs p))|]; run;
    eexists _, _, _, _, _; (split; [reflexivity|]); (split; [reflexivity|]).
  - cbn. split; [reflexivity|]. split; [reflexivity|].
    split; [lia|rewrite List.length_app; cbn; lia].
  - cbn. split; [reflexivity|]. split; [reflexivity|].
    split; [reflexivity|rewrite List.length_app; cbn; lia].
  - cbn. split; [reflexivity|]. split; [rewrite app_nil_r; reflexivity|].
    split; [intros _; rewrite advance_0; reflexivity|lia].
Qed.

Lemma addSegmentEffects_first_pulse_witness :
  renderable (segment "negative" 10 12 110 99 (-10)) = true
  /\ exists (rung : Mesh) (effects : list Mesh) (st1 st2 : State) (g : Group),
       add_segment 10 15 200 4 1
         (EObject (segment "negative" 10 12 110 99 (-10))) fresh
       = (st1, Return (rung :: effects))
       /\ Effects._addSegmentEffects (empty_group fresh)
            (EObject (segment "negative" 10 12 110 99 (-10)))
            (position rung) fresh
          = (st2, Return g)
       /\ children g = children (empty_group fresh) ++ firstn 1 effects.
Proof.
  split; [reflexivity|].
  destruct (addSegmentEffects_first_pulse 10 15 200 4 1 (empty_group fresh)
              (segment "negative" 10 12 110 99 (-10)) fresh eq_refl)
    as (rung & effects & st1 & st2 & g & Hloop & Hhelper & _ & Hkids & _).
  exists rung, effects, st1, st2, g.
  split; [exact Hloop|]. split; [exact Hhelper|exact Hkids].
Defined.

End Shape.

(** ** Validated data *)

Section Validated.

Import THREE DNAVisualizer Spec Props.

Lemma filter_all {A : Type} (p : A -> bool) (l : list A) :
  forallb p l = true -> List.filter p l = l.
Proof.
  induction l as [|a l IH]; [reflexivity|].
  cbn [forallb List.filter]. intros H. apply andb_prop in H as [Ha Hl].
  rewrite Ha, (IH Hl). reflexivity.
Qed.

Lemma forallb_filter_self {A : Type} (p : A -> bool) (l : list A) :
  forallb p (List.filter p l) = true.
Proof.
  induction l as [|a l IH]; [reflexivity|].
  cbn [List.filter]. destruct (p a) eqn:Ea; [|exact IH].
  cbn [forallb]. rewrite Ea, IH. reflexivity.
Qed.

(** X25.  What [validateData] returns is stable: validating it again gives
    it back unchanged, filtering it by any type never throws and gives a
    part of it that is valid in turn, and filtering that part by the same
    type again changes nothing. *)
Theorem validated_data_stable (raw : json) (data : list entry)
    (type : string) :
  validateData raw = Return data ->
  validateData (JArray data) = Return data
  /\ exists filtered : list entry,
       filterSegmentsByType data type = Return filtered
       /\ (forall e : entry, In e filtered -> In e data)
       /\ (length filtered <= length data)%nat
       /\ validateData (JArray filtered) = Return filtered
       /\ filterSegmentsByType filtered type = Return filtered.
Proof.
  intros Hvalid.
  destruct (validateData_returns _ _ Hvalid) as (segs & -> & Hall).
  assert (Hsel : forallb valid_segment (selection type segs) = true).
  { unfold selection. destruct (String.eqb type "all"); [exact Hall|].
    apply forallb_filter_keeps. exact Hall. }
  cbn [validateData]. rewrite array_filter_objects, (filter_all _ _ Hall).
  split; [reflexivity|].
  exists (map EObject (selection type segs)).
  rewrite !filterSegmentsByType_selection, array_filter_objects.
  rewrite (filter_all _ _ Hsel).
  split; [reflexivity|]. split; [|split; [|split; [reflexivity|]]].
  - intros e He. apply List.in_map_iff in He as (s & <- & Hs).
    apply List.in_map. unfold selection in Hs.
    destruct (String.eqb type "all"); [exact Hs|].
    apply List.filter_In in Hs. apply Hs.
  - rewrite !length_map. unfold selection.
    destruct (String.eqb type "all"); [lia|]. apply List.filter_length_le.
  - do 2 f_equal. unfold selection.
    destruct (String.eqb type "all"); [reflexivity|].
    apply filter_all. apply forallb_filter_self.
Qed.

Lemma validated_data_stable_witness :
  validateData
    (JArray [EObject (segment "optimal" 0 10 100 110 10);
             EObject (segment "" 10 12 110 99 (-10));
             EObject (segment "negative" 12 15 99 104 5)])
  = Return [EObject (segment "optimal" 0 10 100 110 10);
            EObject (segment "negative" 12 15 99 104 5)]
  /\ validateData
       (JArray [EObject (segment "optimal" 0 10 100 110 10);
                EObject (segment "negative" 12 15 99 104 5)])
     = Return [EObject (segment "optimal" 0 10 100 110 10);
               EObject (segment "negative" 12 15 99 104 5)].
Proof.
  split; [reflexivity|].
  apply (validated_data_stable
           (JArray [EObject (segment "optimal" 0 10 100 110 10);
                    EObject (segment "" 10 12 110 99 (-10));
                    EObject (segment "negative" 12 15 99 104 5)])
           _ "negative").
  reflexivity.
Defined.

End Validated.
